(** * Ozon parser: fingerprint synthesis and the navigation workflow

    A shallow embedding of [tools/ozon_parser/ozon_parser.py] and the
    properties its specification states about it.

    Conventions of the embedding:
    - a Python [str] is the list of its Unicode code points ([str]), so
      [len] is [length] and the Cyrillic phrases count one per letter;
    - a Python [int] is a [Z];
    - a value read from JSON is a [Json]: the timezone the geolocation
      service reports is one, and is not checked to be a string;
    - code that touches the process-wide random generator, or the
      browser, is a function from the state before to an outcome and the
      state after ([M]); a raised exception is the outcome [Raise];
    - the [random] module, [str.lower] beyond ASCII and the Unicode
      decimal-digit table are interfaces of the Python runtime: they are
      taken as parameters, with the laws the runtime documents. *)

From Stdlib Require Import String Ascii.
From Stdlib Require Import List ZArith NArith Lia Bool Arith.
Import ListNotations.

#[local] Open Scope Z_scope.

(* ================================================================== *)
(** ** Python strings *)

Module Str.

(** A Python string: its code points, in order. *)
Definition str : Type := list N.

(** UTF-8 decoding of a source literal (well-formed input only; the
    literals of the program are). *)
Fixpoint utf8 (bs : list N) : str :=
  match bs with
  | [] => []
  | b :: r =>
      if (b <? 128)%N then b :: utf8 r
      else if (b <? 224)%N then
        match r with
        | c1 :: r' => ((b mod 32) * 64 + c1 mod 64)%N :: utf8 r'
        | _ => []
        end
      else if (b <? 240)%N then
        match r with
        | c1 :: c2 :: r' =>
            ((b mod 16) * 4096 + (c1 mod 64) * 64 + c2 mod 64)%N :: utf8 r'
        | _ => []
        end
      else
        match r with
        | c1 :: c2 :: c3 :: r' =>
            ((b mod 8) * 262144 + (c1 mod 64) * 4096
             + (c2 mod 64) * 64 + c3 mod 64)%N :: utf8 r'
        | _ => []
        end
  end.

(** The string a literal of the source denotes. *)
Definition lit (s : string) : str :=
  utf8 (map N_of_ascii (list_ascii_of_string s)).

(** [a == b] on strings. *)
Fixpoint eqb (a b : str) : bool :=
  match a, b with
  | [], [] => true
  | x :: a', y :: b' => (x =? y)%N && eqb a' b'
  | _, _ => false
  end.

(** [s.startswith(p)]. *)
Fixpoint startswith (p s : str) : bool :=
  match p, s with
  | [], _ => true
  | x :: p', y :: s' => (x =? y)%N && startswith p' s'
  | _ :: _, [] => false
  end.

(** [p in s]: [p] occurs in [s] as a contiguous substring. *)
Fixpoint contains (p s : str) : bool :=
  startswith p s ||
  match s with
  | [] => false
  | _ :: s' => contains p s'
  end.

(** [len(s)]. *)
Definition len (s : str) : Z := Z.of_nat (length s).

(** What [p in s] means. *)
Definition occurs_in (p s : str) : Prop :=
  exists pre post, s = pre ++ p ++ post.

End Str.

Import Str.

(* ================================================================== *)
(** ** Exceptions and the state-and-exception monad *)

(** The exceptions the program distinguishes: Playwright's timeout, any
    other subclass of [Exception] ([except Exception] catches both), and
    the rest of [BaseException] (an interrupt), which no handler of the
    program catches. *)
Inductive exn : Type :=
| PlaywrightTimeoutError (msg : str)
| PyException (cls : string) (msg : str)
| PyBaseException (cls : string).

Inductive Outcome (A : Type) : Type :=
| Val (a : A)
| Raise (e : exn).

Arguments Val {A} a.
Arguments Raise {A} e.

(** A computation over a state [S]. *)
Definition M (S A : Type) : Type := S -> Outcome A * S.

Definition ret {S A} (a : A) : M S A := fun s => (Val a, s).

Definition raise {S A} (e : exn) : M S A := fun s => (Raise e, s).

Definition bind {S A B} (m : M S A) (k : A -> M S B) : M S B :=
  fun s =>
    match m s with
    | (Val a, s') => k a s'
    | (Raise e, s') => (Raise e, s')
    end.

Notation "x <- m ;; k" := (bind m (fun x => k))
  (at level 61, m at next level, right associativity).
Notation "m ;;; k" := (bind m (fun _ => k))
  (at level 61, right associativity).

(* ================================================================== *)
(** ** The random module *)

(** The generator behind Python's [random]: [random_seed n] is the state
    [random.seed(n)] installs, [randbelow r n] is [_randbelow(n)], a
    draw from [range(n)] and the next state. *)
Class RandomSource (R : Type) : Type := {
  random_seed : Z -> R;
  randbelow : R -> Z -> Z * R;
  randbelow_range : forall r n, 0 < n -> 0 <= fst (randbelow r n) < n
}.

Section Random.

Context {R : Type} `{RandomSource R}.

(** [seq[i]], raising [IndexError] out of range. *)
Definition getitem {A} (l : list A) (i : Z) : M R A :=
  match nth_error l (Z.to_nat i) with
  | Some x => ret x
  | None => raise (PyException "IndexError" (lit "list index out of range"))
  end.

(** [random.choice(seq)] is [seq[self._randbelow(len(seq))]]. *)
Definition choice {A} (l : list A) : M R A :=
  match l with
  | [] => raise (PyException "IndexError"
                   (lit "Cannot choose from an empty sequence"))
  | _ :: _ =>
      fun r =>
        let (i, r') := randbelow r (Z.of_nat (length l)) in
        getitem l i r'
  end.

(** [random.randint(a, b)] is [a + self._randbelow(b - a + 1)]. *)
Definition randint (a b : Z) : M R Z :=
  fun r =>
    let (i, r') := randbelow r (b - a + 1) in
    (Val (a + i), r').

(** [d[k]] on a dict with integer keys, raising [KeyError]. *)
Fixpoint dict_getitem (d : list (Z * Z)) (k : Z) : M R Z :=
  match d with
  | [] => raise (PyException "KeyError" [])
  | (k', v) :: d' => if k' =? k then ret v else dict_getitem d' k
  end.

End Random.

(* ================================================================== *)
(** ** Fingerprint synthesis *)

Module Lit.
Definition Europe_Moscow : str := Eval vm_compute in lit "Europe/Moscow".
Definition Moscow : str := Eval vm_compute in lit "Moscow".
Definition Kaliningrad : str := Eval vm_compute in lit "Kaliningrad".
Definition Samara : str := Eval vm_compute in lit "Samara".
Definition Yekaterinburg : str := Eval vm_compute in lit "Yekaterinburg".
Definition Win32 : str := Eval vm_compute in lit "Win32".
Definition MacIntel : str := Eval vm_compute in lit "MacIntel".
Definition Linux_x86_64 : str := Eval vm_compute in lit "Linux x86_64".
Definition ru_RU : str := Eval vm_compute in lit "ru-RU".
Definition ru : str := Eval vm_compute in lit "ru".
Definition en_US : str := Eval vm_compute in lit "en-US".
Definition en : str := Eval vm_compute in lit "en".
Definition Google_Inc : str := Eval vm_compute in lit "Google Inc.".
End Lit.

(** [USER_AGENTS]: Chromium-based browsers only. *)
Definition USER_AGENTS : list str := map lit [
  (* Chrome *)
  "Mozilla/5.0 (Windows NT 10.0; Win64; x64) AppleWebKit/537.36 (KHTML, like Gecko) Chrome/120.0.0.0 Safari/537.36";
  "Mozilla/5.0 (Windows NT 10.0; Win64; x64) AppleWebKit/537.36 (KHTML, like Gecko) Chrome/119.0.0.0 Safari/537.36";
  "Mozilla/5.0 (Windows NT 10.0; Win64; x64) AppleWebKit/537.36 (KHTML, like Gecko) Chrome/118.0.0.0 Safari/537.36";
  "Mozilla/5.0 (Macintosh; Intel Mac OS X 10_15_7) AppleWebKit/537.36 (KHTML, like Gecko) Chrome/120.0.0.0 Safari/537.36";
  "Mozilla/5.0 (Macintosh; Intel Mac OS X 10_15_7) AppleWebKit/537.36 (KHTML, like Gecko) Chrome/119.0.0.0 Safari/537.36";
  (* Opera *)
  "Mozilla/5.0 (Windows NT 10.0; Win64; x64) AppleWebKit/537.36 (KHTML, like Gecko) Chrome/118.0.0.0 Safari/537.36 OPR/104.0.0.0";
  "Mozilla/5.0 (Windows NT 10.0; Win64; x64) AppleWebKit/537.36 (KHTML, like Gecko) Chrome/119.0.0.0 Safari/537.36 OPR/105.0.0.0";
  (* Edge *)
  "Mozilla/5.0 (Windows NT 10.0; Win64; x64) AppleWebKit/537.36 (KHTML, like Gecko) Chrome/120.0.0.0 Safari/537.36 Edg/120.0.0.0";
  "Mozilla/5.0 (Macintosh; Intel Mac OS X 10_15_7) AppleWebKit/537.36 (KHTML, like Gecko) Chrome/120.0.0.0 Safari/537.36 Edg/120.0.0.0";
  (* Brave *)
  "Mozilla/5.0 (Windows NT 10.0; Win64; x64) AppleWebKit/537.36 (KHTML, like Gecko) Chrome/120.0.0.0 Safari/537.36 Brave/120.0.0.0";
  (* Yandex Browser *)
  "Mozilla/5.0 (Windows NT 10.0; Win64; x64) AppleWebKit/537.36 (KHTML, like Gecko) Chrome/120.0.0.0 Safari/537.36 YaBrowser/24.1.0.0"
]%string.

(** A value as [response.json()] gives it: [None], a [bool], an [int],
    a [float] (kept as the literal it was read from: the program does
    no arithmetic on it), a [str], a [list] or a [dict] with string
    keys. *)
#[local] Unset Elimination Schemes.

Inductive Json : Type :=
| JNull
| JBool (b : bool)
| JInt (n : Z)
| JFloat (literal : str)
| JString (s : str)
| JArray (items : list Json)
| JObject (entries : list (str * Json)).

#[local] Set Elimination Schemes.

(** [type(v).__name__]. *)
Definition type_name (v : Json) : string :=
  match v with
  | JNull => "NoneType"
  | JBool _ => "bool"
  | JInt _ => "int"
  | JFloat _ => "float"
  | JString _ => "str"
  | JArray _ => "list"
  | JObject _ => "dict"
  end.

(** [x == v] for a string [x]: only an equal string is equal to it. *)
Definition str_eq_value (x : str) (v : Json) : bool :=
  match v with
  | JString s => Str.eqb x s
  | _ => false
  end.

(** [x in v] for a string [x]: a substring of a string, an item of a
    list, a key of a dict. The other values are no containers, and the
    test raises [TypeError]. *)
Definition in_ (x : str) (v : Json) : Outcome bool :=
  match v with
  | JString s => Val (contains x s)
  | JArray items => Val (existsb (str_eq_value x) items)
  | JObject entries => Val (existsb (fun entry => Str.eqb x (fst entry)) entries)
  | JNull | JBool _ | JInt _ | JFloat _ =>
      Raise (PyException "TypeError"
               (lit "argument of type '" ++ lit (type_name v)
                ++ lit "' is not iterable"))
  end.

(** [a or b] on two tests: [b] is evaluated only when [a] is false. *)
Definition or_else (a b : Outcome bool) : Outcome bool :=
  match a with
  | Val true => Val true
  | Val false => b
  | Raise e => Raise e
  end.

(** What the request to the IP-geolocation service came to, as
    [detect_timezone_by_ip] sees it: an exception somewhere in the
    [try] block, or a response with its status code and the
    ['timezone'] entry of its JSON body, when it has one. The entry is
    whatever value the body holds there: the service documents a
    string, the code does not check it. *)
Inductive IpApiReply : Type :=
| IpApiRaised (e : exn)
| IpApiResponse (status_code : Z) (timezone_field : option Json).

(** [detect_timezone_by_ip]: the entry the service reports, as it is,
    and ['Europe/Moscow'] when the request fails, the status is not 200
    or the body has no ['timezone'] entry. An exception outside
    [Exception] is not caught. *)
Definition detect_timezone_by_ip {S} (reply : IpApiReply) : M S Json :=
  match reply with
  | IpApiResponse 200 (Some tz) => ret tz
  | IpApiResponse 200 None => ret (JString Lit.Europe_Moscow)
  | IpApiResponse _ _ => ret (JString Lit.Europe_Moscow)
  | IpApiRaised (PyBaseException c) => raise (PyBaseException c)
  | IpApiRaised _ => ret (JString Lit.Europe_Moscow)
  end.

Record Screen : Type := {
  width : Z;
  height : Z;
  avail_width : Z;
  avail_height : Z;
  color_depth : Z;
  pixel_depth : Z
}.

Record Viewport : Type := {
  viewport_width : Z;
  viewport_height : Z
}.

Record Navigator : Type := {
  hardware_concurrency : Z;
  device_memory : Z;
  max_touch_points : Z;
  platform : str;
  language : str;
  languages : list str;
  vendor : str
}.

(** The dict [generate_random_fingerprint] returns. *)
Record Fingerprint : Type := {
  user_agent : str;
  screen : Screen;
  viewport : Viewport;
  navigator : Navigator;
  timezone : Json;
  locale : str
}.

(** [is_russian_tz], line 94: the four tests, from left to right, up to
    the first that holds. *)
Definition is_russian_tz (timezone : Json) : Outcome bool :=
  or_else (in_ Lit.Moscow timezone)
    (or_else (in_ Lit.Kaliningrad timezone)
       (or_else (in_ Lit.Samara timezone)
          (in_ Lit.Yekaterinburg timezone))).

(** [platforms], lines 96-100. *)
Definition platforms (is_russian : bool) : list str :=
  if is_russian
  then [Lit.Win32; Lit.Win32; Lit.Win32; Lit.MacIntel; Lit.Linux_x86_64]
  else [Lit.Win32; Lit.MacIntel; Lit.Linux_x86_64].

Definition resolutions : list (Z * Z) :=
  [ (1920, 1080); (1920, 1080); (1920, 1080); (1920, 1080);
    (2560, 1440); (1366, 768); (1536, 864); (1440, 900); (1680, 1050) ].

Definition core_counts : list Z := [4; 6; 8; 8; 12; 16].

Definition memory_map : list (Z * Z) :=
  [ (4, 8); (6, 16); (8, 16); (12, 32); (16, 32) ].

(** The timezone after the platform is drawn, lines 132-135. *)
Definition corrected_timezone (platform : str) (timezone : Json)
    (is_russian : bool) : Json :=
  if Str.eqb platform Lit.MacIntel && is_russian
  then JString Lit.Europe_Moscow
  else if Str.eqb platform Lit.Win32 && is_russian then timezone
  else timezone.

Section Synthesis.

Context {R : Type} `{RandomSource R}.

(** [generate_random_fingerprint(detect_timezone)]; [reply] is what the
    geolocation request comes to when it is made. The draws are in the
    order Python evaluates them: cores, resolution, the two screen
    margins, platform, then, while the dict is built, the user agent
    and the touch points. *)
Definition generate_random_fingerprint (detect_timezone : bool)
    (reply : IpApiReply) : M R Fingerprint :=
  timezone <- (if detect_timezone then detect_timezone_by_ip reply
               else ret (JString Lit.Europe_Moscow)) ;;
  is_russian <- (fun r => (is_russian_tz timezone, r)) ;;
  let platforms := platforms is_russian in
  let user_agents := USER_AGENTS in
  cores <- choice core_counts ;;
  wh <- choice resolutions ;;
  let '(width, height) := wh in
  dw <- randint 0 100 ;;
  let avail_width := width - dw in
  dh <- randint 40 150 ;;
  let avail_height := height - dh in
  platform <- choice platforms ;;
  let timezone := corrected_timezone platform timezone is_russian in
  ua <- choice user_agents ;;
  memory <- dict_getitem memory_map cores ;;
  touch <- (if Str.eqb platform Lit.Win32 then ret 0 else choice [0; 5]) ;;
  ret {| user_agent := ua;
         screen := {| width := width;
                      height := height;
                      avail_width := avail_width;
                      avail_height := avail_height;
                      color_depth := 24;
                      pixel_depth := 24 |};
         viewport := {| viewport_width := width;
                        viewport_height := height - 40 |};
         navigator := {| hardware_concurrency := cores;
                         device_memory := memory;
                         max_touch_points := touch;
                         platform := platform;
                         language := Lit.ru_RU;
                         languages := [Lit.ru_RU; Lit.ru; Lit.en_US; Lit.en];
                         vendor := Lit.Google_Inc |};
         timezone := timezone;
         locale := Lit.ru_RU |}.

(** [OzonParser.__init__], lines 330-332, on the process-wide generator:
    a given seed replaces its state, no seed leaves it as it is. *)
Definition OzonParser_init (seed : option Z) : M R unit :=
  fun r =>
    match seed with
    | Some n => (Val tt, random_seed n)
    | None => (Val tt, r)
    end.

(** The fingerprint of a session: [OzonParser(seed=seed)] followed by
    [start()], which calls [generate_random_fingerprint()] (line 350,
    [detect_timezone] at its default [True]). *)
Definition session_fingerprint (seed : option Z) (reply : IpApiReply)
  : M R Fingerprint :=
  OzonParser_init seed ;;;
  generate_random_fingerprint true reply.

(** The state of the generator when the platform is drawn: after the
    draws of the cores, the resolution and the two screen margins. *)
Definition before_platform (r : R) : R :=
  snd ((choice core_counts ;;; choice resolutions ;;;
        randint 0 100 ;;; randint 40 150) r).

End Synthesis.

(** The values [in] can be asked of. *)
Definition container (v : Json) : bool :=
  match v with
  | JString _ | JArray _ | JObject _ => true
  | JNull | JBool _ | JInt _ | JFloat _ => false
  end.

(** [Fingerprint]'s consistency, as the specification words it. *)
Definition spec_memory_map : list (Z * Z) :=
  [ (4, 8); (6, 16); (8, 16); (12, 32); (16, 32) ].

Definition consistent (fp : Fingerprint) : Prop :=
  let s := screen fp in
  let n := navigator fp in
  In (hardware_concurrency n, device_memory n) spec_memory_map
  /\ avail_width s <= width s
  /\ avail_height s < height s
  /\ 40 <= height s - avail_height s <= 150
  /\ viewport_width (viewport fp) = width s
  /\ viewport_height (viewport fp) = height s - 40.

(* ================================================================== *)
(** ** A generator for the examples *)

(** A linear congruential generator, standing in for Python's Mersenne
    Twister wherever a concrete run is evaluated. The theorems hold for
    every [RandomSource]; only the examples use this one. *)
Module Lcg.

Definition modulus : Z := 2147483648.

Definition next (s : Z) : Z := (1103515245 * s + 12345) mod modulus.

Definition below (s n : Z) : Z * Z := (next s mod n, next s).

Lemma below_range (s n : Z) : 0 < n -> 0 <= fst (below s n) < n.
Proof. intros Hn. simpl. apply Z.mod_pos_bound. exact Hn. Qed.

#[export] Instance source : RandomSource Z := {
  random_seed := fun n => n mod modulus;
  randbelow := below;
  randbelow_range := below_range
}.

End Lcg.

(* ================================================================== *)
(** ** Unicode tables of the Python runtime *)

(** The whitespace of Unicode, as [str.isspace] and the class [\s] of
    [re] have it. *)
Definition whitespace (c : N) : bool :=
  ((9 <=? c) && (c <=? 13) || (28 <=? c) && (c <=? 32)
   || (c =? 133) || (c =? 160) || (c =? 5760)
   || (8192 <=? c) && (c <=? 8202)
   || (c =? 8232) || (c =? 8233) || (c =? 8239) || (c =? 8287)
   || (c =? 12288))%N.

(** What the program uses of Python's Unicode database outside ASCII:
    [str.lower] on a code point above 127, which may look at the text
    before and after it (the final-sigma rule) and may give several code
    points, and the value of a decimal digit above 127, [None] for a
    code point that is not one. No whitespace is a decimal digit. *)
Class UnicodeData : Type := {
  lower_nonascii : str -> N -> str -> str;
  decimal_nonascii : N -> option Z;
  decimal_not_space :
    forall c, whitespace c = true -> decimal_nonascii c = None
}.

Module Py.

Section WithUnicode.

Context {U : UnicodeData}.

Definition ascii_lower (c : N) : N :=
  if ((65 <=? c) && (c <=? 90))%N then (c + 32)%N else c.

Fixpoint lower_from (before s : str) : str :=
  match s with
  | [] => []
  | c :: after =>
      (if (c <? 128)%N then [ascii_lower c]
       else lower_nonascii before c after)
      ++ lower_from (before ++ [c]) after
  end.

(** [s.lower()]. *)
Definition lower (s : str) : str := lower_from [] s.

(** [c.isspace()], which is also the class [\s] of [re] on [str]. *)
Definition isspace (c : N) : bool := whitespace c.

(** The value of a decimal digit ([Nd]), [None] for other code points. *)
Definition decimal (c : N) : option Z :=
  if (c <? 128)%N then
    if ((48 <=? c) && (c <=? 57))%N then Some (Z.of_N c - 48) else None
  else decimal_nonascii c.

(** The class [\d] of [re] on [str]. *)
Definition isdecimal (c : N) : bool :=
  match decimal c with Some _ => true | None => false end.

Fixpoint lstrip (s : str) : str :=
  match s with
  | c :: s' => if isspace c then lstrip s' else s
  | [] => []
  end.

(** [s.strip()]. *)
Definition strip (s : str) : str := rev (lstrip (rev (lstrip s))).

(** [s.replace(' ', '')]. *)
Definition remove_spaces (s : str) : str :=
  filter (fun c => negb (c =? 32)%N) s.

Fixpoint digits_value (acc : Z) (s : str) : option Z :=
  match s with
  | [] => Some acc
  | c :: s' =>
      match decimal c with
      | Some d => digits_value (10 * acc + d) s'
      | None => None
      end
  end.

Fixpoint take_while (f : N -> bool) (s : str) : str :=
  match s with
  | c :: s' => if f c then c :: take_while f s' else []
  | [] => []
  end.

Fixpoint drop_while (f : N -> bool) (s : str) : str :=
  match s with
  | c :: s' => if f c then drop_while f s' else s
  | [] => []
  end.

(** The whitespace [int] skips at the two ends of its argument: the
    blanks of C's [isspace], and the whitespace beyond ASCII, which
    [int] reads as a blank. The separators U+001C to U+001F are
    whitespace to [str.isspace] and to [\s], and not to [int]. *)
Definition int_space (c : N) : bool :=
  ((9 <=? c) && (c <=? 13) || (c =? 32) || (128 <=? c) && isspace c)%N.

(** [sys.int_info.default_max_str_digits] of CPython 3.11: the longest
    decimal string [int] converts. *)
Definition int_max_str_digits : Z := 4300.

(** [int(s)] on a string of decimal digits and whitespace. The
    whitespace [int] skips is dropped at the two ends; the digits are
    scanned, and more than [int_max_str_digits] of them is a
    [ValueError]; so is anything but a non-empty run of digits between
    the blanks. (A sign or an underscore, which [int] also reads, is
    taken as invalid here: no match of [[\d\s]+] has one.) *)
Definition int {S} (s : str) : M S Z :=
  let text := drop_while int_space s in
  let digits := take_while isdecimal text in
  let rest := drop_while isdecimal text in
  if int_max_str_digits <? len digits then
    raise (PyException "ValueError"
             (lit "Exceeds the limit (4300 digits) for integer string conversion"))
  else
    match digits, drop_while int_space rest, digits_value 0 digits with
    | _ :: _, [], Some n => ret n
    | _, _, _ =>
        raise (PyException "ValueError" (lit "invalid literal for int()"))
    end.

Definition digit_or_space (c : N) : bool := isdecimal c || isspace c.

(** [re.search(r'[\d\s]+', s)]: the leftmost longest run of digits and
    whitespace, [None] when [s] has neither. *)
Fixpoint search_digits_spaces (s : str) : option str :=
  match s with
  | [] => None
  | c :: s' =>
      if digit_or_space c then Some (take_while digit_or_space s)
      else search_digits_spaces s'
  end.

End WithUnicode.

End Py.

(** Tables for the examples: the lower case of the Cyrillic capitals
    and no digit beyond ASCII. The theorems hold for every
    [UnicodeData]; only the examples use this one. *)
Module BasicUnicode.

Definition lower_cyrillic (before : str) (c : N) (after : str) : str :=
  if ((1040 <=? c) && (c <=? 1071))%N then [(c + 32)%N]
  else if ((1024 <=? c) && (c <=? 1039))%N then [(c + 80)%N]
  else [c].

#[export] Instance tables : UnicodeData := {
  lower_nonascii := lower_cyrillic;
  decimal_nonascii := fun _ => None;
  decimal_not_space := fun _ _ => eq_refl
}.

End BasicUnicode.

(* ================================================================== *)
(** ** The browser engine *)

(** A handle on an object of the engine. *)
Definition Handle : Type := nat.

(** The calls the program makes on the engine. *)
Inductive Call : Type :=
| CGoto (url : str) (timeout : Z)
| CWaitForTimeout (ms : Z)
| CInnerText (selector : str)
| CScreenshot (path : str)
| CQuerySelector (selector : str)
| CElementInnerText (element : Handle)
| CPageClose
| CBrowserClose
| CPlaywrightStop.

(** The engine as the program meets it: what each call comes to, given
    how many calls were made before it. Any behaviour of a real
    browser, on a run of this (deterministic) program, is the behaviour
    of some such table. *)
Record Engine : Type := {
  goto_reply : nat -> str -> Outcome (option Z);
  wait_reply : nat -> Z -> Outcome unit;
  inner_text_reply : nat -> str -> Outcome str;
  screenshot_reply : nat -> str -> Outcome unit;
  query_selector_reply : nat -> str -> Outcome (option Handle);
  element_inner_text_reply : nat -> Handle -> Outcome str;
  close_reply : nat -> Outcome unit
}.

(** The world outside the program: the engine and the calls made so
    far, oldest first. *)
Record World : Type := {
  engine : Engine;
  log : list Call
}.

(** One call: logged, and answered by the engine. *)
Definition call {A} (c : Call) (reply : Engine -> nat -> Outcome A)
  : M World A :=
  fun w =>
    (reply (engine w) (length (log w)),
     {| engine := engine w; log := log w ++ [c] |}).

(** The fields of an [OzonParser] that hold engine objects; each is
    [None] until [start] sets it. *)
Record OzonParser : Type := {
  playwright : option Handle;
  browser : option Handle;
  page : option Handle
}.

Definition attribute_error : exn :=
  PyException "AttributeError"
    (lit "'NoneType' object has no attribute").

(** A method call on [self.page]. *)
Definition on_page {A} (self : OzonParser) (c : Call)
    (reply : Engine -> nat -> Outcome A) : M World A :=
  match page self with
  | Some _ => call c reply
  | None => raise attribute_error
  end.

Definition page_goto (self : OzonParser) (url : str) (timeout : Z)
  : M World (option Z) :=
  on_page self (CGoto url timeout) (fun e n => goto_reply e n url).

Definition page_wait_for_timeout (self : OzonParser) (ms : Z)
  : M World unit :=
  on_page self (CWaitForTimeout ms) (fun e n => wait_reply e n ms).

Definition page_inner_text (self : OzonParser) (selector : str)
  : M World str :=
  on_page self (CInnerText selector)
    (fun e n => inner_text_reply e n selector).

Definition page_screenshot (self : OzonParser) (path : str)
  : M World unit :=
  on_page self (CScreenshot path) (fun e n => screenshot_reply e n path).

Definition page_query_selector (self : OzonParser) (selector : str)
  : M World (option Handle) :=
  on_page self (CQuerySelector selector)
    (fun e n => query_selector_reply e n selector).

Definition element_inner_text (element : Handle) : M World str :=
  call (CElementInnerText element)
    (fun e n => element_inner_text_reply e n element).

(** [OzonParser.stop], lines 391-398. *)
Definition stop (self : OzonParser) : M World unit :=
  (match page self with
   | Some _ => call CPageClose close_reply
   | None => ret tt
   end) ;;;
  (match browser self with
   | Some _ => call CBrowserClose close_reply
   | None => ret tt
   end) ;;;
  (match playwright self with
   | Some _ => call CPlaywrightStop close_reply
   | None => ret tt
   end).

(* ================================================================== *)
(** ** Product pages *)

(** A value of a result dict. *)
Inductive PyVal : Type :=
| PStr (s : str)
| PInt (n : Z).

(** A dict with string keys, in insertion order. *)
Definition dict : Type := list (string * PyVal).

Definition has_key (k : string) (d : dict) : bool :=
  existsb (fun kv => String.eqb k (fst kv)) d.

Fixpoint get (k : string) (d : dict) : option PyVal :=
  match d with
  | [] => None
  | (k', v) :: d' => if String.eqb k k' then Some v else get k d'
  end.

(** [SELECTORS["product"]]. *)
Module Selectors.
Definition title : str := lit "h1[data-widget='webProductHeading']".
Definition price : str := lit ".tsHeadline500Medium".
Definition old_price : str := lit ".tsBodyControlLergeStrike".
Definition discount : str := lit ".tsCaptionBold".
Definition rating : str := lit "[itemprop='ratingValue']".
Definition reviews : str := lit "[itemprop='reviewCount']".
Definition brand : str := lit ".a6c6".
Definition seller : str := lit ".a0o6".
Definition description : str := lit ".pda6".
End Selectors.

(** [captcha_indicators], lines 443-452. *)
Definition captcha_indicators : list str :=
  Eval vm_compute in map lit [
    "доступ ограничен";
    "captcha";
    "подтвердите, что вы не бот";
    "подтвердите что вы не бот";
    "передвиньте ползунок";
    "verify you are human";
    "human verification";
    "challenge"
  ]%string.

Definition captcha_timeout_message : str :=
  Eval vm_compute in
    lit "CAPTCHA timeout - пользователь не прошёл проверку".

Definition load_failed_prefix : str :=
  Eval vm_compute in lit "Не удалось загрузить страницу: ".

Definition body : str := Eval vm_compute in lit "body".

Definition captcha : str := Eval vm_compute in lit "captcha".

Definition screenshot_path : str := Eval vm_compute in lit "/tmp/ozon_debug.png".

(** [str(e)]. *)
Definition exn_str (e : exn) : str :=
  match e with
  | PlaywrightTimeoutError msg => msg
  | PyException _ msg => msg
  | PyBaseException _ => []
  end.

(** [range(n)]. *)
Definition range (n : nat) : list Z := map Z.of_nat (seq 0 n).

Section Parser.

Context {U : UnicodeData}.

(** [any(indicator in text.lower() for indicator in captcha_indicators)],
    lines 454 and 469. *)
Definition detected_captcha (text : str) : bool :=
  existsb (fun indicator => contains indicator (Py.lower text))
    captcha_indicators.

(** The test of line 456: the page is taken for a challenge. *)
Definition challenged (page_text : str) : bool :=
  detected_captcha page_text || (len page_text <? 200).

(** The test of line 471: the challenge is taken as passed. *)
Definition passed (current_text : str) : bool :=
  negb (detected_captcha current_text) && (len current_text >? 500).

(** The loop of lines 464-481 over the indices still to run. A result
    of [Some d] is the [return d] of line 481; [None] is the loop left
    by [break] or by running out of indices. *)
Fixpoint wait_for_captcha (self : OzonParser) (ticks : list Z)
  : M World (option dict) :=
  match ticks with
  | [] => ret None
  | i :: rest =>
      page_wait_for_timeout self 1000 ;;;
      current_text <- page_inner_text self body ;;
      if passed current_text then
        page_wait_for_timeout self 2000 ;;;
        ret None
      else if i >=? 119 then
        ret (Some [("error"%string, PStr captcha_timeout_message)])
      else wait_for_captcha self rest
  end.

(** Lines 483-496, the end of the [try]: reached unless the loop
    returned ([returned] is then the dict of line 481). The screenshot
    is saved and the text is read once more, for the log only. *)
Definition check_content (self : OzonParser) (returned : option dict)
  : M World (option dict) :=
  match returned with
  | Some d => ret (Some d)
  | None =>
      page_screenshot self screenshot_path ;;;
      page_text <- page_inner_text self body ;;
      ret None
  end.

(** The body of the [try] of lines 432-496. *)
Definition load_page (self : OzonParser) (url : str)
  : M World (option dict) :=
  response <- page_goto self url 60000 ;;
  page_wait_for_timeout self 5000 ;;;
  page_text <- page_inner_text self body ;;
  returned <- (if challenged page_text
               then wait_for_captcha self (range 120)
               else ret None) ;;
  check_content self returned.

(** [_extract_text(selector)], lines 400-408, with [default=""]. *)
Definition _extract_text (self : OzonParser) (selector : str) : M World str :=
  fun w =>
    match
      (element <- page_query_selector self selector ;;
       match element with
       | Some h => text <- element_inner_text h ;; ret (Some (Py.strip text))
       | None => ret None
       end) w
    with
    | (Val (Some text), w') => (Val text, w')
    | (Val None, w') => (Val [], w')
    | (Raise (PyBaseException c), w') => (Raise (PyBaseException c), w')
    | (Raise _, w') => (Val [], w')
    end.

(** Lines 517-522: the numeric price, when the price text has a run of
    digits and whitespace. *)
Definition add_price_number {S} (data : dict) (price : str) : M S dict :=
  match price with
  | [] => ret data
  | _ :: _ =>
      match Py.search_digits_spaces price with
      | Some group =>
          n <- Py.int (Py.remove_spaces group) ;;
          ret (data ++ [("price_number"%string, PInt n)])
      | None => ret data
      end
  end.

(** Lines 503-530: the extraction that follows the [try]. *)
Definition extract_product (self : OzonParser) (url : str) : M World dict :=
  title <- _extract_text self Selectors.title ;;
  price <- _extract_text self Selectors.price ;;
  old_price <- _extract_text self Selectors.old_price ;;
  discount <- _extract_text self Selectors.discount ;;
  rating <- _extract_text self Selectors.rating ;;
  reviews <- _extract_text self Selectors.reviews ;;
  brand <- _extract_text self Selectors.brand ;;
  seller <- _extract_text self Selectors.seller ;;
  description <- _extract_text self Selectors.description ;;
  let data := [ ("url", PStr url);
                ("title", PStr title);
                ("price", PStr price);
                ("old_price", PStr old_price);
                ("discount", PStr discount);
                ("rating", PStr rating);
                ("reviews", PStr reviews);
                ("brand", PStr brand);
                ("seller", PStr seller);
                ("description", PStr description) ]%string in
  data <- add_price_number data price ;;
  page_wait_for_timeout self 5000 ;;;
  ret data.

(** [OzonParser.parse_product], lines 420-530: the [try], its two
    handlers, and the extraction. *)
Definition parse_product (self : OzonParser) (url : str) : M World dict :=
  fun w =>
    match load_page self url w with
    | (Val (Some d), w') => (Val d, w')
    | (Val None, w') => extract_product self url w'
    | (Raise (PlaywrightTimeoutError _), w') => extract_product self url w'
    | (Raise (PyException cls msg), w') =>
        (Val [("error"%string,
               PStr (load_failed_prefix ++ exn_str (PyException cls msg)))],
         w')
    | (Raise (PyBaseException c), w') => (Raise (PyBaseException c), w')
    end.

End Parser.




(** The steps of a teardown, in order: one for each engine object the
    parser holds. *)
Definition teardown (self : OzonParser) : list Call :=
  (match page self with Some _ => [CPageClose] | None => [] end)
  ++ (match browser self with Some _ => [CBrowserClose] | None => [] end)
  ++ (match playwright self with Some _ => [CPlaywrightStop] | None => [] end).

(** The world after further calls. *)
Definition after (w : World) (calls : list Call) : World :=
  {| engine := engine w; log := log w ++ calls |}.

(** A poll tick in a log: the one-second wait of line 465. *)
Definition is_tick (c : Call) : bool :=
  match c with
  | CWaitForTimeout ms => ms =? 1000
  | _ => false
  end.

Definition ticks_in (calls : list Call) : nat :=
  length (filter is_tick calls).


(** The timezone [generate_random_fingerprint] starts from. *)
Definition initial_timezone (detect_timezone : bool) (reply : IpApiReply)
  : Outcome Json :=
  fst ((if detect_timezone return M unit Json
        then detect_timezone_by_ip reply
        else ret (JString Lit.Europe_Moscow)) tt).

(** Calls made one after the other, up to the first that raises. *)
Fixpoint attempt (calls : list Call) : M World unit :=
  match calls with
  | [] => ret tt
  | c :: rest => call c close_reply ;;; attempt rest
  end.

(** The calls made between two worlds. *)
Definition calls_since (w w' : World) : list Call :=
  skipn (length (log w)) (log w').

(** The calls of [n] poll ticks that do not leave the loop. *)
Fixpoint poll_calls (n : nat) : list Call :=
  match n with
  | O => []
  | S n' => CWaitForTimeout 1000 :: CInnerText body :: poll_calls n'
  end.

(** Engines and sessions for the examples. *)
Module Examples.

(** An engine on which every call succeeds and the page shows [text]. *)
Definition showing (text : str) : Engine := {|
  goto_reply := fun _ _ => Val (Some 200);
  wait_reply := fun _ _ => Val tt;
  inner_text_reply := fun _ _ => Val text;
  screenshot_reply := fun _ _ => Val tt;
  query_selector_reply := fun _ _ => Val None;
  element_inner_text_reply := fun _ _ => Val [];
  close_reply := fun _ => Val tt
|}.

(** An engine whose navigation times out. *)
Definition navigation_times_out : Engine := {|
  goto_reply := fun _ _ =>
    Raise (PlaywrightTimeoutError (lit "Timeout 60000ms exceeded."));
  wait_reply := fun _ _ => Val tt;
  inner_text_reply := fun _ _ => Val [];
  screenshot_reply := fun _ _ => Val tt;
  query_selector_reply := fun _ _ => Val None;
  element_inner_text_reply := fun _ _ => Val [];
  close_reply := fun _ => Val tt
|}.

(** An engine on which closing the page fails. *)
Definition page_close_fails : Engine := {|
  goto_reply := fun _ _ => Val (Some 200);
  wait_reply := fun _ _ => Val tt;
  inner_text_reply := fun _ _ => Val [];
  screenshot_reply := fun _ _ => Val tt;
  query_selector_reply := fun _ _ => Val None;
  element_inner_text_reply := fun _ _ => Val [];
  close_reply := fun n =>
    match n with
    | O => Raise (PyException "Error" (lit "Target page has been closed"))
    | _ => Val tt
    end
|}.

(** A text of [n] letters x, which holds no challenge phrase. *)
Definition clean (n : nat) : str := repeat 120%N n.

(** A started session: all three engine objects are set. *)
Definition started : OzonParser :=
  {| playwright := Some 0%nat; browser := Some 1%nat; page := Some 2%nat |}.

Definition fresh (e : Engine) : World := {| engine := e; log := [] |}.

Definition product_url : str :=
  Eval vm_compute in lit "https://www.ozon.ru/product/futbolka-cosmo-2543561282/".

End Examples.

(** A computation that, from any world, only appends calls to the
    log, at most [bound] of them poll ticks. *)
Definition emits {A} (m : M World A) (bound : nat) : Prop :=
  forall w, exists calls,
    snd (m w) = after w calls /\ (ticks_in calls <= bound)%nat.

(** The engine answers the poll tick that starts at call [n] (the
    one-second wait, then the body text) with a text the loop does not
    take as passed. *)
Definition still_challenged_at {U : UnicodeData} (e : Engine) (n : nat)
  : Prop :=
  exists text,
    wait_reply e n 1000 = Val tt
    /\ inner_text_reply e (S n) body = Val text
    /\ passed text = false.

(** The result of line 481. *)
Definition captcha_timeout : dict :=
  [("error"%string, PStr captcha_timeout_message)].

(* ================================================================== *)
(** ** A generator that replays given draws *)

(** A generator whose raw outputs are a given list, read from its head
    (and 0 once the list is used up): with it a run can be steered to
    any draw the program can make. *)
Module Replay.

Definition below (r : list Z) (n : Z) : Z * list Z :=
  match r with
  | x :: r' => (x mod n, r')
  | [] => (0, [])
  end.

Lemma replay_in_range (r : list Z) (n : Z) : 0 < n -> 0 <= fst (below r n) < n.
Proof.
  intros Hn. destruct r as [|x r]; simpl; [lia|].
  apply Z.mod_pos_bound. exact Hn.
Qed.

Definition source : RandomSource (list Z) := {|
  random_seed := fun _ => [];
  randbelow := below;
  randbelow_range := replay_in_range
|}.

End Replay.

(* ================================================================== *)
(** ** Measures of a run *)

(** The keys of a product record, in the order lines 504-515 set them. *)
Definition product_keys : list string :=
  [ "url"; "title"; "price"; "old_price"; "discount"; "rating";
    "reviews"; "brand"; "seller"; "description" ]%string.

(** The milliseconds a call waits: those of [wait_for_timeout]. *)
Definition wait_ms (c : Call) : N :=
  match c with
  | CWaitForTimeout ms => Z.to_N ms
  | _ => 0%N
  end.

(** The total of a cost over a list of calls. *)
Definition total (cost : Call -> N) (calls : list Call) : N :=
  fold_right (fun c acc => (cost c + acc)%N) 0%N calls.

(** A computation that only appends calls to the log, of total cost at
    most [bound]. *)
Definition costs {A} (cost : Call -> N) (m : M World A) (bound : N)
  : Prop :=
  forall w, exists calls,
    snd (m w) = after w calls /\ (total cost calls <= bound)%N.

(** A string with no whitespace at either end, as [strip] leaves it. *)
Definition stripped (s : str) : Prop :=
  match s with [] => True | c :: _ => Py.isspace c = false end
  /\ match rev s with [] => True | c :: _ => Py.isspace c = false end.

(* ================================================================== *)
(** ** Listing pages and search *)

(** [d[k] = v]: the value of an existing key is replaced where it
    stands, a new key goes to the end. *)
Fixpoint set_item (k : string) (v : PyVal) (d : dict) : dict :=
  match d with
  | [] => [(k, v)]
  | (k', v') :: d' =>
      if String.eqb k k' then (k, v) :: d' else (k', v') :: set_item k v d'
  end.

(** [l[:limit]]: the first [limit] elements, and for a negative [limit]
    all but the last [-limit]. *)
Definition slice_to {A} (limit : Z) (l : list A) : list A :=
  if limit <? 0 then firstn (Z.to_nat (Z.of_nat (length l) + limit)) l
  else firstn (Z.to_nat limit) l.

Module Listing.

(** [SELECTORS["listing"]], the entries [parse_listing] uses. *)
Module Selectors.
Definition items : str := lit ".widget-search-result-container .tile-wrapper".
Definition title : str := lit ".tsBody500Medium".
Definition price : str := lit ".tsHeadline500Medium".
Definition link : str := lit "a".
End Selectors.

Definition href : str := Eval vm_compute in lit "href".
Definition http : str := Eval vm_compute in lit "http".
Definition ozon : str := Eval vm_compute in lit "https://www.ozon.ru".
Definition search_prefix : str :=
  Eval vm_compute in lit "https://www.ozon.ru/search/?".
Definition not_found_prefix : str :=
  Eval vm_compute in lit "Не удалось найти товары: ".

(** The calls [parse_listing] makes on the engine. *)
Inductive Call : Type :=
| CGoto (url : str)
| CWaitForTimeout (ms : Z)
| CQuerySelectorsAll (selector : str)
| CElementQuerySelector (element : Handle) (selector : str)
| CElementInnerText (element : Handle)
| CElementGetAttribute (element : Handle) (name : str).

(** The engine as [parse_listing] meets it: what each call comes to,
    given how many calls were made before it.
    [query_selectors_all_reply] is what looking up and calling
    [self.page.query_selectors_all] comes to; the table leaves it open.
    (Playwright's page has no method of that name, its method is
    [query_selector_all]: with that library the reply is an
    [AttributeError].) *)
Record Engine : Type := {
  goto_reply : nat -> str -> Outcome unit;
  wait_reply : nat -> Z -> Outcome unit;
  query_selectors_all_reply : nat -> str -> Outcome (list Handle);
  element_query_selector_reply : nat -> Handle -> str -> Outcome (option Handle);
  element_inner_text_reply : nat -> Handle -> Outcome str;
  element_get_attribute_reply : nat -> Handle -> str -> Outcome (option str)
}.

Record World : Type := {
  engine : Engine;
  log : list Call
}.

Definition after (w : World) (calls : list Call) : World :=
  {| engine := engine w; log := log w ++ calls |}.

Definition calls_since (w w' : World) : list Call :=
  skipn (length (log w)) (log w').

Definition call {A} (c : Call) (reply : Engine -> nat -> Outcome A)
  : M World A :=
  fun w => (reply (engine w) (length (log w)), after w [c]).

(** A method call on [self.page]. *)
Definition on_page {A} (self : OzonParser) (c : Call)
    (reply : Engine -> nat -> Outcome A) : M World A :=
  match page self with
  | Some _ => call c reply
  | None => raise attribute_error
  end.

(** The state while one item is read: the item's dict and the world. *)
Definition ItemState : Type := (dict * World)%type.

Definition on_world {A} (m : M World A) : M ItemState A :=
  fun s =>
    let (o, w') := m (snd s) in (o, (fst s, w')).

(** [item_data[k] = v]. *)
Definition assign (k : string) (v : PyVal) : M ItemState unit :=
  fun s => (Val tt, (set_item k v (fst s), snd s)).

Definition element_query_selector (element : Handle) (selector : str)
  : M ItemState (option Handle) :=
  on_world (call (CElementQuerySelector element selector)
              (fun e n => element_query_selector_reply e n element selector)).

Definition element_inner_text (element : Handle) : M ItemState str :=
  on_world (call (CElementInnerText element)
              (fun e n => element_inner_text_reply e n element)).

Definition element_get_attribute (element : Handle) (name : str)
  : M ItemState (option str) :=
  on_world (call (CElementGetAttribute element name)
              (fun e n => element_get_attribute_reply e n element name)).

(** [item_data] as line 562 creates it. *)
Definition new_item (i : nat) : dict :=
  [ ("position", PInt (Z.of_nat i + 1));
    ("title", PStr []);
    ("price", PStr []);
    ("old_price", PStr []);
    ("discount", PStr []);
    ("rating", PStr []);
    ("reviews", PStr []);
    ("link", PStr []) ]%string.

(** Lines 575-590, the body of the inner [try]. *)
Definition read_item (elem : Handle) : M ItemState unit :=
  title_elem <- element_query_selector elem Selectors.title ;;
  (match title_elem with
   | Some h =>
       text <- element_inner_text h ;;
       assign "title" (PStr (Py.strip text))
   | None => ret tt
   end) ;;;
  price_elem <- element_query_selector elem Selectors.price ;;
  (match price_elem with
   | Some h =>
       text <- element_inner_text h ;;
       assign "price" (PStr (Py.strip text))
   | None => ret tt
   end) ;;;
  link_elem <- element_query_selector elem Selectors.link ;;
  match link_elem with
  | Some h =>
      value <- element_get_attribute h href ;;
      match value with
      | Some (c :: rest) =>
          let href := c :: rest in
          assign "link"
            (PStr (if startswith http href then href else ozon ++ href))
      | Some [] => ret tt
      | None => ret tt
      end
  | None => ret tt
  end.

(** Lines 562-595: one item, with the handler of its [try]. *)
Definition parse_item (i : nat) (elem : Handle) : M World dict :=
  fun w =>
    match read_item elem (new_item i, w) with
    | (Val _, (item_data, w')) => (Val item_data, w')
    | (Raise (PyBaseException c), (_, w')) => (Raise (PyBaseException c), w')
    | (Raise e, (item_data, w')) =>
        (Val (set_item "error" (PStr (exn_str e)) item_data), w')
    end.

(** The loop of line 561 from index [i] on. *)
Fixpoint parse_items (i : nat) (elems : list Handle) : M World (list dict) :=
  match elems with
  | [] => ret []
  | elem :: rest =>
      item_data <- parse_item i elem ;;
      items <- parse_items (S i) rest ;;
      ret (item_data :: items)
  end.

(** Lines 545-547, the body of the first [try]. *)
Definition load_listing (self : OzonParser) (url : str) : M World unit :=
  on_page self (CGoto url) (fun e n => goto_reply e n url) ;;;
  on_page self (CWaitForTimeout 3000) (fun e n => wait_reply e n 3000).

(** Lines 558-595, the body of the second [try]. *)
Definition find_items (self : OzonParser) (limit : Z)
  : M World (list dict) :=
  item_elements <- on_page self (CQuerySelectorsAll Selectors.items)
                     (fun e n => query_selectors_all_reply e n
                                   Selectors.items) ;;
  parse_items 0 (slice_to limit item_elements).

(** [OzonParser.parse_listing], lines 532-600. *)
Definition parse_listing (self : OzonParser) (url : str) (limit : Z)
  : M World (list dict) :=
  fun w =>
    let find w' :=
      match find_items self limit w' with
      | (Val items, w'') => (Val items, w'')
      | (Raise (PyBaseException c), w'') => (Raise (PyBaseException c), w'')
      | (Raise e, w'') =>
          (Val [[("error"%string, PStr (not_found_prefix ++ exn_str e))]],
           w'')
      end in
    match load_listing self url w with
    | (Val _, w') => find w'
    | (Raise (PlaywrightTimeoutError _), w') => find w'
    | (Raise (PyException cls msg), w') =>
        (Val [[("error"%string,
                PStr (load_failed_prefix ++ exn_str (PyException cls msg)))]],
         w')
    | (Raise (PyBaseException c), w') => (Raise (PyBaseException c), w')
    end.

(** What [parse_listing] does once the first [try] is over. *)
Definition found (self : OzonParser) (limit : Z) (w : World)
  : Outcome (list dict) * World :=
  match find_items self limit w with
  | (Val items, w') => (Val items, w')
  | (Raise (PyBaseException c), w') => (Raise (PyBaseException c), w')
  | (Raise e, w') =>
      (Val [[("error"%string, PStr (not_found_prefix ++ exn_str e))]], w')
  end.

(** The bytes of a code point in UTF-8; [None] for a surrogate, which
    a strict encoder refuses (and for a number beyond the code points,
    which no Python string holds). *)
Definition utf8_encode (c : N) : option (list N) :=
  (if c <? 128 then Some [c]
   else if c <? 2048 then Some [192 + c / 64; 128 + c mod 64]
   else if c <? 65536 then
     if (55296 <=? c) && (c <=? 57343) then None
     else Some [224 + c / 4096; 128 + (c / 64) mod 64; 128 + c mod 64]
   else if c <? 1114112 then
     Some [240 + c / 262144; 128 + (c / 4096) mod 64;
           128 + (c / 64) mod 64; 128 + c mod 64]
   else None)%N.

(** [s.encode('utf-8')], [None] when it raises [UnicodeEncodeError]. *)
Fixpoint encode (s : str) : option (list N) :=
  match s with
  | [] => Some []
  | c :: s' =>
      match utf8_encode c, encode s' with
      | Some bs, Some rest => Some (bs ++ rest)
      | _, _ => None
      end
  end.

(** The characters [quote] never escapes: letters, digits and [_.-~]. *)
Definition always_safe (b : N) : bool :=
  ((65 <=? b) && (b <=? 90) || (97 <=? b) && (b <=? 122)
   || (48 <=? b) && (b <=? 57)
   || (b =? 95) || (b =? 46) || (b =? 45) || (b =? 126))%N.

(** An uppercase hexadecimal digit. *)
Definition hex_digit (n : N) : N :=
  (if n <? 10 then 48 + n else 55 + n)%N.

(** One byte as [quote_plus] writes it: itself when it is always safe,
    [+] for a space, and [%XX] otherwise. *)
Definition quote_byte (b : N) : str :=
  if always_safe b then [b]
  else if (b =? 32)%N then [43%N]
  else [37%N; hex_digit (b / 16); hex_digit (b mod 16)].

(** [urllib.parse.quote_plus(s)] with its default arguments. *)
Definition quote_plus (s : str) : option str :=
  match encode s with
  | Some bytes => Some (flat_map quote_byte bytes)
  | None => None
  end.

(** [urlencode({'text': query})]. *)
Definition urlencode_text (query : str) : option str :=
  match quote_plus query with
  | Some q => Some (lit "text" ++ [61%N] ++ q)
  | None => None
  end.

(** [OzonParser.search], lines 602-614. *)
Definition search (self : OzonParser) (query : str) (limit : Z)
  : M World (list dict) :=
  match urlencode_text query with
  | Some params => parse_listing self (search_prefix ++ params) limit
  | None =>
      raise (PyException "UnicodeEncodeError"
               (lit "surrogates not allowed"))
  end.

(** The keys of an item of a listing, as line 562 sets them. *)
Definition item_keys : list string :=
  [ "position"; "title"; "price"; "old_price"; "discount"; "rating";
    "reviews"; "link" ]%string.

(** An item as [parse_listing] leaves it: the keys of line 562 in their
    order, then ['error'] if reading it failed; the position at index
    [i] is [i + 1]; title and price are stripped texts; the link is
    empty or an address that starts with [http]. *)
Definition well_formed_item (i : nat) (item : dict) : Prop :=
  (map fst item = item_keys \/ map fst item = item_keys ++ ["error"%string])
  /\ get "position" item = Some (PInt (Z.of_nat i + 1))
  /\ (exists t, get "title" item = Some (PStr t) /\ stripped t)
  /\ (exists p, get "price" item = Some (PStr p) /\ stripped p)
  /\ (exists l, get "link" item = Some (PStr l)
                /\ (l = [] \/ startswith http l = true)).

(** The items of a listing from index [i] on. *)
Fixpoint well_formed_items (i : nat) (items : list dict) : Prop :=
  match items with
  | [] => True
  | item :: rest => well_formed_item i item /\ well_formed_items (S i) rest
  end.

(** A character a URL may hold without escaping, or the [+] and [%] the
    escapes are written with. *)
Definition url_safe (c : N) : bool :=
  always_safe c || (c =? 43)%N || (c =? 37)%N.

(** The dict of an item while it is read: no ['error'] entry yet. *)
Definition reading (i : nat) (item : dict) : Prop :=
  map fst item = item_keys
  /\ get "position" item = Some (PInt (Z.of_nat i + 1))
  /\ (exists t, get "title" item = Some (PStr t) /\ stripped t)
  /\ (exists p, get "price" item = Some (PStr p) /\ stripped p)
  /\ (exists l, get "link" item = Some (PStr l)
                /\ (l = [] \/ startswith http l = true)).

(** A computation on the item state that keeps [reading]. *)
Definition keeps {A} (i : nat) (m : M ItemState A) : Prop :=
  forall s, reading i (fst s) -> reading i (fst (snd (m s))).

(** A hexadecimal digit's value (either case), 0 for anything else. *)
Definition hex_value (c : N) : N :=
  (if (48 <=? c) && (c <=? 57) then c - 48
   else if (65 <=? c) && (c <=? 70) then c - 55
   else if (97 <=? c) && (c <=? 102) then c - 87
   else 0)%N.

(** The bytes an escaped text stands for: [+] is a space and [%XX] the
    byte [XX]; the inverse of [flat_map quote_byte]. *)
Fixpoint unquote_plus (s : str) : list N :=
  match s with
  | [] => []
  | c :: rest =>
      if (c =? 43)%N then 32%N :: unquote_plus rest
      else if (c =? 37)%N then
        match rest with
        | h1 :: h2 :: rest' =>
            (16 * hex_value h1 + hex_value h2)%N :: unquote_plus rest'
        | _ => c :: unquote_plus rest
        end
      else c :: unquote_plus rest
  end.

End Listing.

(* ================================================================== *)
(** ** The session: start, the with block and main *)

Module Session.

(** The calls [start] makes to bring the browser up. The init script is
    [get_fingerprint_script(self.fingerprint)], a text fixed by the
    fingerprint: its call is recorded with the fingerprint it is
    compiled from. *)
Inductive Call : Type :=
| CStartPlaywright
| CLaunch (headless : bool) (args : list str)
| CNewPage (user_agent : str) (viewport_width viewport_height : Z)
    (locale : str) (timezone_id : Json)
| CAddInitScript (fingerprint : Fingerprint)
| CSetDefaultTimeout (timeout : Z).

(** What each of these calls comes to, given how many of them were made
    before it. *)
Record Launcher : Type := {
  start_reply : nat -> Outcome Handle;
  launch_reply : nat -> Outcome Handle;
  new_page_reply : nat -> Outcome Handle;
  add_init_script_reply : nat -> Outcome unit;
  set_default_timeout_reply : nat -> Outcome unit
}.

(** What [main] has a command return. *)
Inductive Result : Type :=
| One (data : dict)
| Many (items : list dict).

(** The file [main] saves to: the path given with [--output], or the
    default file of the command in the [output] directory beside the
    script. *)
Inductive Target : Type :=
| Given (path : str)
| Default (file : str).

(** What [main] puts out: the result it prints, the directory it
    creates, the file it saves. *)
Inductive Output : Type :=
| OPrint (result : Result)
| OMkdir
| OSave (target : Target) (result : Result).

(** What creating the directory and writing the file come to. *)
Record Files : Type := {
  mkdir_reply : nat -> Outcome unit;
  save_reply : nat -> Target -> Outcome unit
}.

Inductive Command : Type := Product | Category | Search.

(** The arguments as [argparse] hands them to [main]. *)
Record Args : Type := {
  command : Command;
  url : option str;
  query : option str;
  limit : Z;
  output : option str;
  no_headless : bool;
  seed : option Z
}.

Definition launch_args : list str :=
  map lit [ "--no-sandbox";
            "--disable-setuid-sandbox";
            "--disable-blink-features=AutomationControlled";
            "--disable-dev-shm-usage";
            "--disable-web-security";
            "--disable-features=IsolateOrigins,site-per-process" ]%string.

Definition command_name (c : Command) : str :=
  match c with
  | Product => lit "product"
  | Category => lit "category"
  | Search => lit "search"
  end.

(** [not v] for an optional string argument: absent or empty. *)
Definition missing (v : option str) : bool :=
  match v with
  | Some (_ :: _) => false
  | _ => true
  end.

Definition given (v : option str) : str :=
  match v with
  | Some s => s
  | None => []
  end.

(** [parser.error(...)]: the usage message and exit status 2. *)
Definition usage_error : exn := PyBaseException "SystemExit".

Section WithRandom.

Context {R : Type} `{RandomSource R}.
Context {U : UnicodeData}.

(** The process: the random generator, the browser as [start] meets it
    with the calls made on it, the two engines of the pages, the files,
    and the parser object. *)
Record Process : Type := {
  rng : R;
  launcher : Launcher;
  launched : list Call;
  world : World;
  listing : Listing.World;
  files : Files;
  put : list Output;
  self : OzonParser
}.

Definition in_rng {A} (m : M R A) : M Process A :=
  fun p =>
    let (o, r') := m (rng p) in
    (o, {| rng := r'; launcher := launcher p; launched := launched p;
           world := world p; listing := listing p; files := files p;
           put := put p; self := self p |}).

Definition in_world {A} (m : OzonParser -> M World A) : M Process A :=
  fun p =>
    let (o, w') := m (self p) (world p) in
    (o, {| rng := rng p; launcher := launcher p; launched := launched p;
           world := w'; listing := listing p; files := files p;
           put := put p; self := self p |}).

Definition in_listing {A} (m : OzonParser -> M Listing.World A)
  : M Process A :=
  fun p =>
    let (o, w') := m (self p) (listing p) in
    (o, {| rng := rng p; launcher := launcher p; launched := launched p;
           world := world p; listing := w'; files := files p;
           put := put p; self := self p |}).

Definition launch {A} (c : Call) (reply : Launcher -> nat -> Outcome A)
  : M Process A :=
  fun p =>
    (reply (launcher p) (length (launched p)),
     {| rng := rng p; launcher := launcher p; launched := launched p ++ [c];
        world := world p; listing := listing p; files := files p;
        put := put p; self := self p |}).

Definition emit {A} (o : Output) (reply : Files -> nat -> Outcome A)
  : M Process A :=
  fun p =>
    (reply (files p) (length (put p)),
     {| rng := rng p; launcher := launcher p; launched := launched p;
        world := world p; listing := listing p; files := files p;
        put := put p ++ [o]; self := self p |}).

Definition set_self (s : OzonParser -> OzonParser) : M Process unit :=
  fun p =>
    (Val tt,
     {| rng := rng p; launcher := launcher p; launched := launched p;
        world := world p; listing := listing p; files := files p;
        put := put p; self := s (self p) |}).

(** [OzonParser.__init__], lines 317-336. *)
Definition init (seed : option Z) : M Process unit :=
  in_rng (OzonParser_init seed) ;;;
  set_self (fun _ => {| playwright := None; browser := None; page := None |}).

(** [OzonParser.start], lines 347-389. The two progress lines it prints
    are left out. *)
Definition start (headless : bool) (timeout : Z) (reply : IpApiReply)
  : M Process unit :=
  fingerprint <- in_rng (generate_random_fingerprint true reply) ;;
  pw <- launch CStartPlaywright start_reply ;;
  set_self (fun s => {| playwright := Some pw; browser := browser s;
                        page := page s |}) ;;;
  br <- launch (CLaunch headless launch_args) launch_reply ;;
  set_self (fun s => {| playwright := playwright s; browser := Some br;
                        page := page s |}) ;;;
  pg <- launch (CNewPage (user_agent fingerprint)
                  (viewport_width (viewport fingerprint))
                  (viewport_height (viewport fingerprint))
                  Lit.ru_RU (timezone fingerprint))
          new_page_reply ;;
  set_self (fun s => {| playwright := playwright s; browser := browser s;
                        page := Some pg |}) ;;;
  launch (CAddInitScript fingerprint) add_init_script_reply ;;;
  launch (CSetDefaultTimeout timeout) set_default_timeout_reply ;;;
  ms <- in_rng (randint 2000 4000) ;;
  in_world (fun self => page_wait_for_timeout self ms).

(** [with OzonParser(headless=headless, seed=seed) as ozon: body]:
    [__init__] and [__enter__] (which calls [start]) run first, and an
    exception of theirs leaves the statement at once; after the body,
    whether it returned or raised, [__exit__] calls [stop]; the
    exception of the body goes on unless [stop] raises one itself. *)
Definition with_parser {A} (headless : bool) (seed : option Z)
    (reply : IpApiReply) (body : M Process A) : M Process A :=
  fun p =>
    match (init seed ;;; start headless 30000 reply) p with
    | (Raise e, p1) => (Raise e, p1)
    | (Val _, p1) =>
        match body p1 with
        | (Val a, p2) =>
            match in_world stop p2 with
            | (Val _, p3) => (Val a, p3)
            | (Raise e, p3) => (Raise e, p3)
            end
        | (Raise e, p2) =>
            match in_world stop p2 with
            | (Val _, p3) => (Raise e, p3)
            | (Raise e', p3) => (Raise e', p3)
            end
        end
    end.

(** Lines 658-663: the command. *)
Definition run_command (args : Args) : M Process Result :=
  match command args with
  | Product =>
      d <- in_world (fun self => parse_product self (given (url args))) ;;
      ret (One d)
  | Category =>
      l <- in_listing (fun self =>
             Listing.parse_listing self (given (url args)) (limit args)) ;;
      ret (Many l)
  | Search =>
      l <- in_listing (fun self =>
             Listing.search self (given (query args)) (limit args)) ;;
      ret (Many l)
  end.

(** [save_json(result, path)]. *)
Definition save_json (result : Result) (target : Target) : M Process unit :=
  emit (OSave target result) (fun f n => save_reply f n target).

(** Lines 665-676: the result is printed, then saved. Writing to the
    standard output is taken to succeed; creating the directory and
    writing the file come to what [Files] says. *)
Definition report (args : Args) (result : Result) : M Process unit :=
  emit (OPrint result) (fun _ _ => Val tt) ;;;
  if missing (output args) then
    emit OMkdir mkdir_reply ;;;
    save_json result
      (Default (command_name (command args) ++ lit "_result.json"))
  else save_json result (Given (given (output args))).

(** [main], lines 624-676, on parsed arguments. *)
Definition main (args : Args) (reply : IpApiReply) : M Process unit :=
  let needs_url :=
    match command args with
    | Product | Category => true
    | Search => false
    end in
  let needs_query :=
    match command args with
    | Search => true
    | _ => false
    end in
  if needs_url && missing (url args) then raise usage_error
  else if needs_query && missing (query args) then raise usage_error
  else
    with_parser (negb (no_headless args)) (seed args) reply
      (result <- run_command args ;;
       report args result).

(** A computation that keeps a property of the process, however it
    ends. *)
Definition preserves {A} (I : Process -> Prop) (m : M Process A) : Prop :=
  forall p, I p -> I (snd (m p)).

(** A call that only waits. *)
Definition is_wait c : Prop := exists ms, c = CWaitForTimeout ms.

(** Since [p0] nothing was asked of the page but waits, and nothing was
    listed, printed or saved. *)
Definition only_waited (p0 p : Process) : Prop :=
  exists waits,
    world p = after (world p0) waits
    /\ Forall is_wait waits
    /\ listing p = listing p0
    /\ put p = put p0.

(** Once the driver is held, the rest of [start] keeps it. *)
Definition holds_driver (pw : Handle) (p : Process) : Prop :=
  playwright (self p) = Some pw.

(** The arguments pass the checks of lines 649-652. *)
Definition valid (args : Args) : Prop :=
  match command args with
  | Product | Category => missing (url args) = false
  | Search => missing (query args) = false
  end.

End WithRandom.

End Session.

(** Sessions and listing engines for the examples. *)
Module MoreExamples.

(** A parser on which [start] was never called. *)
Definition not_started : OzonParser :=
  {| playwright := None; browser := None; page := None |}.

(** A listing engine of a page without the method
    [query_selectors_all]. *)
Definition no_such_method : Listing.Engine := {|
  Listing.goto_reply := fun _ _ => Val tt;
  Listing.wait_reply := fun _ _ => Val tt;
  Listing.query_selectors_all_reply := fun _ _ =>
    Raise (PyException "AttributeError"
             (lit "'Page' object has no attribute 'query_selectors_all'"));
  Listing.element_query_selector_reply := fun _ _ _ => Val None;
  Listing.element_inner_text_reply := fun _ _ => Val [];
  Listing.element_get_attribute_reply := fun _ _ _ => Val None
|}.

(** A listing engine whose navigation is refused. *)
Definition refusing : Listing.Engine := {|
  Listing.goto_reply := fun _ _ =>
    Raise (PyException "Error" (lit "net::ERR_CONNECTION_REFUSED"));
  Listing.wait_reply := fun _ _ => Val tt;
  Listing.query_selectors_all_reply := fun _ _ => Val [];
  Listing.element_query_selector_reply := fun _ _ _ => Val None;
  Listing.element_inner_text_reply := fun _ _ => Val [];
  Listing.element_get_attribute_reply := fun _ _ _ => Val None
|}.

Definition fresh (e : Listing.Engine) : Listing.World :=
  {| Listing.engine := e; Listing.log := [] |}.

Definition category_url : str :=
  Eval vm_compute in
    lit "https://www.ozon.ru/category/hlopkovye-muzhskie-futbolki/".

(** A machine on which the browser comes up: the driver, the browser
    and the page are the handles 0, 1 and 2. *)
Definition coming_up : Session.Launcher := {|
  Session.start_reply := fun _ => Val 0%nat;
  Session.launch_reply := fun _ => Val 1%nat;
  Session.new_page_reply := fun _ => Val 2%nat;
  Session.add_init_script_reply := fun _ => Val tt;
  Session.set_default_timeout_reply := fun _ => Val tt
|}.

(** A machine on which the driver starts and no browser is
    installed. *)
Definition no_browser : Session.Launcher := {|
  Session.start_reply := fun _ => Val 0%nat;
  Session.launch_reply := fun _ =>
    Raise (PyException "Error" (lit "Executable doesn't exist"));
  Session.new_page_reply := fun _ => Val 2%nat;
  Session.add_init_script_reply := fun _ => Val tt;
  Session.set_default_timeout_reply := fun _ => Val tt
|}.

(** A disk that takes every file. *)
Definition writable : Session.Files := {|
  Session.mkdir_reply := fun _ => Val tt;
  Session.save_reply := fun _ _ => Val tt
|}.

(** A process before [main]: nothing launched, asked or put out. *)
Definition process (l : Session.Launcher) (e : Engine)
    (le : Listing.Engine) : @Session.Process Z := {|
  Session.rng := 1;
  Session.launcher := l;
  Session.launched := [];
  Session.world := {| engine := e; log := [] |};
  Session.listing := fresh le;
  Session.files := writable;
  Session.put := [];
  Session.self := not_started
|}.

(** The process on a machine with a browser, and on one without. *)
Definition with_browser : @Session.Process Z :=
  process coming_up (Examples.showing []) no_such_method.

Definition without_browser : @Session.Process Z :=
  process no_browser (Examples.showing []) no_such_method.

(** [search --query <query> --seed 42]. *)
Definition search_args (query : option str) : Session.Args := {|
  Session.command := Session.Search;
  Session.url := None;
  Session.query := query;
  Session.limit := 20;
  Session.output := None;
  Session.no_headless := false;
  Session.seed := Some 42
|}.

(** [product --url <url> -o out.json]. *)
Definition product_args (url : str) : Session.Args := {|
  Session.command := Session.Product;
  Session.url := Some url;
  Session.query := None;
  Session.limit := 20;
  Session.output := Some (lit "out.json");
  Session.no_headless := false;
  Session.seed := None
|}.

End MoreExamples.

(* ================================================================== *)
(** * Properties *)

(** ** The monad and the random draws *)

Lemma bind_val {S A B} (m : M S A) (k : A -> M S B) s a s' :
  m s = (Val a, s') -> bind m k s = k a s'.
Proof. intros E. unfold bind. now rewrite E. Qed.

Lemma bind_raise {S A B} (m : M S A) (k : A -> M S B) s e s' :
  m s = (Raise e, s') -> bind m k s = (Raise e, s').
Proof. intros E. unfold bind. now rewrite E. Qed.

Section RandomFacts.

Context {R : Type} `{RandomSource R}.

Lemma getitem_in_range {A} (l : list A) (i : Z) (r : R) :
  0 <= i < Z.of_nat (length l) ->
  exists x, nth_error l (Z.to_nat i) = Some x
            /\ getitem l i r = (Val x, r).
Proof.
  intros Hi. unfold getitem.
  destruct (nth_error l (Z.to_nat i)) as [x|] eqn:E.
  - exists x. split; reflexivity.
  - apply nth_error_None in E. lia.
Qed.

(** A draw from a non-empty sequence returns one of its elements. *)
Lemma choice_spec {A} (l : list A) (r : R) :
  l <> [] ->
  exists i x r',
    0 <= i < Z.of_nat (length l)
    /\ nth_error l (Z.to_nat i) = Some x
    /\ choice l r = (Val x, r').
Proof.
  intros Hl. destruct l as [|a l]; [congruence|].
  unfold choice.
  pose proof (randbelow_range r (Z.of_nat (length (a :: l)))) as Hr.
  destruct (randbelow r (Z.of_nat (length (a :: l)))) as [i r'].
  simpl fst in Hr.
  assert (Hi : 0 <= i < Z.of_nat (length (a :: l))) by (apply Hr; simpl; lia).
  destruct (getitem_in_range (a :: l) i r' Hi) as [x [Hx Hg]].
  exists i, x, r'. auto.
Qed.

Lemma choice_in {A} (l : list A) (r : R) :
  l <> [] -> exists x r', In x l /\ choice l r = (Val x, r').
Proof.
  intros Hl. destruct (choice_spec l r Hl) as (i & x & r' & _ & Hx & Hc).
  exists x, r'. split; [eapply nth_error_In; eauto | exact Hc].
Qed.

Lemma randint_spec (a b : Z) (r : R) :
  a <= b -> exists i r', a <= i <= b /\ randint a b r = (Val i, r').
Proof.
  intros Hab. unfold randint.
  pose proof (randbelow_range r (b - a + 1)) as Hr.
  destruct (randbelow r (b - a + 1)) as [i r']. simpl fst in Hr.
  exists (a + i), r'. split; [lia | reflexivity].
Qed.

End RandomFacts.

(** ** Fingerprint synthesis *)

Lemma detect_timezone_by_ip_state {S} (reply : IpApiReply) (s : S) :
  detect_timezone_by_ip reply s = (fst (detect_timezone_by_ip reply tt), s).
Proof.
  destruct reply as [[m|c m|c]|code [tz|]]; try reflexivity;
    destruct code as [|p|p]; try reflexivity;
    repeat (destruct p as [p|p|]; try reflexivity).
Qed.

Lemma initial_timezone_run {S} (dt : bool) reply (s : S) :
  (if dt then detect_timezone_by_ip reply
   else ret (JString Lit.Europe_Moscow)) s
  = (initial_timezone dt reply, s).
Proof.
  unfold initial_timezone. destruct dt; [|reflexivity].
  apply detect_timezone_by_ip_state.
Qed.

(** The lookup fails only on an interrupt; the timezone it gives is
    Europe/Moscow or the entry of a reply with status 200. *)
Lemma initial_timezone_cases (dt : bool) reply :
  (exists tz, initial_timezone dt reply = Val tz
              /\ (tz = JString Lit.Europe_Moscow
                  \/ dt = true /\ reply = IpApiResponse 200 (Some tz)))
  \/ (exists c, dt = true /\ reply = IpApiRaised (PyBaseException c)
               /\ initial_timezone dt reply = Raise (PyBaseException c)).
Proof.
  assert (Hdone : forall o : Outcome Json,
             o = Val (JString Lit.Europe_Moscow) ->
             exists tz, o = Val tz
                        /\ (tz = JString Lit.Europe_Moscow
                            \/ dt = true
                               /\ reply = IpApiResponse 200 (Some tz)))
    by (intros o ->; eexists; split; [reflexivity|left; reflexivity]).
  unfold initial_timezone. destruct dt; [|left; now apply Hdone].
  rewrite (detect_timezone_by_ip_state reply tt). simpl fst.
  destruct reply as [[m|c m|c]|code [tz|]];
    try (left; now apply Hdone).
  - right. exists c. auto.
  - left. destruct code as [|p|p]; try now apply Hdone.
    repeat (destruct p as [p|p|]; try now apply Hdone).
    exists tz. split; [reflexivity|right; split; reflexivity].
  - left. destruct code as [|p|p]; try now apply Hdone.
    repeat (destruct p as [p|p|]; try now apply Hdone).
Qed.

(** Line 94 on a string: the four substring tests. *)
Lemma is_russian_tz_string (tz : str) :
  is_russian_tz (JString tz)
  = Val (contains Lit.Moscow tz || contains Lit.Kaliningrad tz
         || contains Lit.Samara tz || contains Lit.Yekaterinburg tz).
Proof.
  unfold is_russian_tz, in_, or_else.
  destruct (contains Lit.Moscow tz), (contains Lit.Kaliningrad tz),
    (contains Lit.Samara tz), (contains Lit.Yekaterinburg tz); reflexivity.
Qed.

(** Line 94 gives an answer on a string, a list or a dict, and raises
    [TypeError] on the other values. *)
Lemma is_russian_tz_cases (tz : Json) :
  (exists ru, container tz = true /\ is_russian_tz tz = Val ru)
  \/ (exists msg, container tz = false
                 /\ is_russian_tz tz = Raise (PyException "TypeError" msg)).
Proof.
  destruct tz as [|b|n|x|t|items|entries];
    try (right; eexists; split; reflexivity); left.
  - rewrite is_russian_tz_string. eexists. split; reflexivity.
  - unfold is_russian_tz, in_, or_else.
    repeat match goal with
           | |- context [existsb ?f ?l] => destruct (existsb f l)
           end; eexists; split; reflexivity.
  - unfold is_russian_tz, in_, or_else.
    repeat match goal with
           | |- context [existsb ?f ?l] => destruct (existsb f l)
           end; eexists; split; reflexivity.
Qed.

Section SynthesisFacts.

Context {R : Type} `{RandomSource R}.

Lemma memory_map_lookup (cores : Z) (r : R) :
  In cores core_counts ->
  exists mem, In (cores, mem) memory_map
              /\ dict_getitem memory_map cores r = (Val mem, r).
Proof.
  unfold core_counts. simpl In.
  intros [<-|[<-|[<-|[<-|[<-|[<-|[]]]]]]];
    eexists; (split; [|reflexivity]); simpl; tauto.
Qed.

(** Every run that gets a timezone line 94 can classify draws each
    component from its pool and assembles the record from the draws;
    the platform is the draw made after the cores, the resolution and
    the two margins. *)
Lemma generate_random_fingerprint_run (dt : bool) reply tz ru (r : R) :
  initial_timezone dt reply = Val tz ->
  is_russian_tz tz = Val ru ->
  exists cores mem w h dw dh p ua touch r',
    In cores core_counts
    /\ In (cores, mem) memory_map
    /\ In (w, h) resolutions
    /\ 0 <= dw <= 100
    /\ 40 <= dh <= 150
    /\ In p (platforms ru)
    /\ In ua USER_AGENTS
    /\ (if Str.eqb p Lit.Win32 then touch = 0 else In touch [0; 5])
    /\ fst (choice (platforms ru) (before_platform r)) = Val p
    /\ generate_random_fingerprint dt reply r =
       (Val {| user_agent := ua;
               screen := {| width := w; height := h;
                            avail_width := w - dw;
                            avail_height := h - dh;
                            color_depth := 24; pixel_depth := 24 |};
               viewport := {| viewport_width := w;
                              viewport_height := h - 40 |};
               navigator := {| hardware_concurrency := cores;
                               device_memory := mem;
                               max_touch_points := touch;
                               platform := p;
                               language := Lit.ru_RU;
                               languages :=
                                 [Lit.ru_RU; Lit.ru; Lit.en_US; Lit.en];
                               vendor := Lit.Google_Inc |};
               timezone := corrected_timezone p tz ru;
               locale := Lit.ru_RU |}, r').
Proof.
  intros Htz Hru. unfold generate_random_fingerprint.
  rewrite (bind_val _ _ r tz r)
    by (rewrite initial_timezone_run, Htz; reflexivity).
  rewrite (bind_val _ _ r ru r) by (rewrite Hru; reflexivity).
  destruct (choice_in core_counts r) as (cores & r1 & Hc & E1);
    [discriminate|].
  rewrite (bind_val _ _ _ _ _ E1).
  destruct (choice_in resolutions r1) as ([w h] & r2 & Hwh & E2);
    [discriminate|].
  rewrite (bind_val _ _ _ _ _ E2).
  destruct (randint_spec 0 100 r2) as (dw & r3 & Hdw & E3); [lia|].
  rewrite (bind_val _ _ _ _ _ E3).
  destruct (randint_spec 40 150 r3) as (dh & r4 & Hdh & E4); [lia|].
  rewrite (bind_val _ _ _ _ _ E4).
  assert (Hbefore : before_platform r = r4).
  { unfold before_platform.
    rewrite (bind_val _ _ _ _ _ E1), (bind_val _ _ _ _ _ E2),
      (bind_val _ _ _ _ _ E3), E4. reflexivity. }
  destruct (choice_in (platforms ru) r4)
    as (p & r5 & Hp & E5); [destruct ru; discriminate|].
  rewrite (bind_val _ _ _ _ _ E5).
  assert (Hdraw : fst (choice (platforms ru) (before_platform r)) = Val p)
    by (rewrite Hbefore, E5; reflexivity).
  destruct (choice_in USER_AGENTS r5) as (ua & r6 & Hua & E6);
    [discriminate|].
  rewrite (bind_val _ _ _ _ _ E6).
  destruct (memory_map_lookup cores r6 Hc) as (mem & Hmem & E7).
  rewrite (bind_val _ _ _ _ _ E7).
  destruct (Str.eqb p Lit.Win32) eqn:Ewin.
  - exists cores, mem, w, h, dw, dh, p, ua, 0, r6.
    rewrite Ewin. repeat (split; [assumption || reflexivity|]).
    reflexivity.
  - destruct (choice_in [0; 5] r6) as (t & r7 & Ht & E8); [discriminate|].
    rewrite (bind_val _ _ _ _ _ E8).
    exists cores, mem, w, h, dw, dh, p, ua, t, r7.
    rewrite Ewin. repeat (split; [assumption|]). reflexivity.
Qed.

(** A draw from a pool is the entry at the index the generator gives. *)
Lemma choice_index {A} (l : list A) (x : A) (r : R) :
  l <> [] ->
  fst (choice l r) = Val x ->
  nth_error l (Z.to_nat (fst (randbelow r (Z.of_nat (length l))))) = Some x
  /\ 0 <= fst (randbelow r (Z.of_nat (length l))) < Z.of_nat (length l).
Proof.
  intros Hl. destruct l as [|a l]; [congruence|].
  unfold choice.
  pose proof (randbelow_range r (Z.of_nat (length (a :: l)))) as Hr.
  destruct (randbelow r (Z.of_nat (length (a :: l)))) as [i r'].
  simpl fst in *. unfold getitem.
  destruct (nth_error (a :: l) (Z.to_nat i)) as [y|]; [|discriminate].
  intros [= ->]. split; [reflexivity|]. apply Hr. simpl length. lia.
Qed.

End SynthesisFacts.

(** ** Substring search *)

Lemma startswith_prefix (p s : str) :
  startswith p s = true <-> exists post, s = p ++ post.
Proof.
  revert s. induction p as [|x p IH]; intros s; simpl.
  - split; [intros _; now exists s | reflexivity].
  - destruct s as [|y s].
    + split; [discriminate | intros [post E]; discriminate].
    + rewrite andb_true_iff, N.eqb_eq, IH. split.
      * intros [-> [post ->]]. now exists post.
      * intros [post E]. injection E as -> ->. split; [reflexivity|].
        now exists post.
Qed.

(** [contains] decides occurrence as a contiguous substring. *)
Lemma contains_occurs_in (p s : str) :
  contains p s = true <-> occurs_in p s.
Proof.
  unfold occurs_in. induction s as [|y s IH].
  - simpl. rewrite orb_false_r, startswith_prefix. split.
    + intros [post E]. now exists [], post.
    + intros (pre & post & E). destruct pre; [now exists post|discriminate].
  - cbn [contains]. rewrite orb_true_iff, startswith_prefix, IH. split.
    + intros [[post E]|(pre & post & E)].
      * now exists [], post.
      * exists (y :: pre), post. simpl. now rewrite E.
    + intros (pre & post & E). destruct pre as [|z pre].
      * left. now exists post.
      * right. injection E as -> ->. now exists pre, post.
Qed.

Lemma contains_app (p pre post : str) :
  contains p (pre ++ p ++ post) = true.
Proof. apply contains_occurs_in. now exists pre, post. Qed.

Lemma str_eqb_eq (a b : str) : Str.eqb a b = true <-> a = b.
Proof.
  revert b. induction a as [|x a IH]; destruct b as [|y b]; simpl;
    try (split; [discriminate|discriminate]); [tauto|].
  rewrite andb_true_iff, N.eqb_eq, IH. split.
  - now intros [-> ->].
  - intros E. now injection E.
Qed.

(** ** Claims on fingerprint synthesis *)

Section SynthesisClaims.

Context {R : Type} `{RandomSource R}.

(** The fingerprint depends on the geolocation reply only through the
    timezone [detect_timezone_by_ip] makes of it. *)
Lemma generate_random_fingerprint_timezone (dt1 dt2 : bool) reply1 reply2
    (r : R) :
  initial_timezone dt1 reply1 = initial_timezone dt2 reply2 ->
  generate_random_fingerprint dt1 reply1 r
  = generate_random_fingerprint dt2 reply2 r.
Proof.
  intros E. unfold generate_random_fingerprint, bind.
  now rewrite !initial_timezone_run, E.
Qed.

Lemma generate_random_fingerprint_interrupted (dt : bool) reply c (r : R) :
  initial_timezone dt reply = Raise (PyBaseException c) ->
  generate_random_fingerprint dt reply r = (Raise (PyBaseException c), r).
Proof.
  intros E. unfold generate_random_fingerprint.
  apply bind_raise. now rewrite initial_timezone_run, E.
Qed.

Lemma generate_random_fingerprint_unclassified (dt : bool) reply tz e
    (r : R) :
  initial_timezone dt reply = Val tz ->
  is_russian_tz tz = Raise e ->
  generate_random_fingerprint dt reply r = (Raise e, r).
Proof.
  intros Htz He. unfold generate_random_fingerprint.
  rewrite (bind_val _ _ r tz r)
    by (rewrite initial_timezone_run, Htz; reflexivity).
  apply bind_raise. now rewrite He.
Qed.

(** C1. Whatever the state of the random generator and whatever the
    timezone lookup answers, every fingerprint
    [generate_random_fingerprint] returns is consistent: the device
    memory is the one the fixed map gives for the core count, the
    available width is at most the width, the available height is below
    the height by 40 to 150, and the viewport is the screen's width by
    its height less 40. Two runs only return no fingerprint: the one
    whose lookup is interrupted from outside, which raises that
    interrupt, and the one whose reply has for timezone a value that is
    no string, list or dict, on which line 94 raises [TypeError]. *)
Theorem generate_random_fingerprint_consistent
    (detect_timezone : bool) (reply : IpApiReply) (r : R) :
  match fst (generate_random_fingerprint detect_timezone reply r) with
  | Val fp => consistent fp
  | Raise e =>
      detect_timezone = true
      /\ ((exists c, reply = IpApiRaised (PyBaseException c)
                     /\ e = PyBaseException c)
          \/ (exists v msg, reply = IpApiResponse 200 (Some v)
                            /\ container v = false
                            /\ e = PyException "TypeError" msg))
  end.
Proof.
  destruct (initial_timezone_cases detect_timezone reply)
    as [(tz & Htz & Hsrc)|(c & Hdt & Hreply & Htz)].
  - destruct (is_russian_tz_cases tz) as [(ru & _ & Hru)|(msg & Hc & Hru)].
    + destruct (generate_random_fingerprint_run detect_timezone reply tz ru
                  r Htz Hru)
        as (cores & mem & w & h & dw & dh & p & ua & touch & r'
            & _ & Hmem & _ & Hdw & Hdh & _ & _ & _ & _ & E).
      rewrite E. unfold consistent. cbn.
      repeat split; try lia. exact Hmem.
    + rewrite (generate_random_fingerprint_unclassified _ _ tz _ r Htz Hru).
      cbn. destruct Hsrc as [->|[Hdt Hreply]]; [discriminate Hc|].
      split; [exact Hdt|]. right. now exists tz, msg.
  - rewrite (generate_random_fingerprint_interrupted _ _ c r Htz). cbn.
    split; [exact Hdt|]. left. now exists c.
Qed.

(** C5. Two sessions created with the same seed, whose timezone lookups
    give the same answer, get the same fingerprint, field by field,
    whatever state the process-wide generator was in before each. *)
Theorem same_seed_same_fingerprint
    (seed : Z) (reply1 reply2 : IpApiReply) (r1 r2 : R) :
  initial_timezone true reply1 = initial_timezone true reply2 ->
  session_fingerprint (Some seed) reply1 r1
  = session_fingerprint (Some seed) reply2 r2.
Proof.
  intros E. unfold session_fingerprint, OzonParser_init, bind.
  now apply generate_random_fingerprint_timezone.
Qed.

(** The draw of the platform, by the index the generator gives: in
    the pool of the Russian zones three indices of the five give
    [Win32], in the other pool one of the three. *)
Lemma platform_draw (ru : bool) (p : str) (r : R) :
  fst (choice (platforms ru) r) = Val p ->
  (p = Lit.Win32 <->
   fst (randbelow r (if ru then 5 else 3)) < (if ru then 3 else 1)).
Proof.
  intros Hp. apply choice_index in Hp; [|destruct ru; discriminate].
  destruct Hp as [Hn Hi]. destruct ru; cbn [platforms length] in *.
  - change (Z.of_nat 5) with 5 in *.
    set (i := fst (randbelow r 5)) in *.
    assert (Hcases : i = 0 \/ i = 1 \/ i = 2 \/ i = 3 \/ i = 4) by lia.
    destruct Hcases as [E|[E|[E|[E|E]]]]; rewrite E in *;
      cbn in Hn; injection Hn as <-;
      (split; [intros Hw; try discriminate Hw; lia
              |intros Hw; try reflexivity; lia]).
  - change (Z.of_nat 3) with 3 in *.
    set (i := fst (randbelow r 3)) in *.
    assert (Hcases : i = 0 \/ i = 1 \/ i = 2) by lia.
    destruct Hcases as [E|[E|E]]; rewrite E in *;
      cbn in Hn; injection Hn as <-;
      (split; [intros Hw; try discriminate Hw; lia
              |intros Hw; try reflexivity; lia]).
Qed.


(** C10. A timezone string counts as Russian exactly when one of
    'Moscow', 'Kaliningrad', 'Samara', 'Yekaterinburg' occurs in it.
    For every other timezone the platform is drawn from the plain
    three-element pool (the entry at the index the generator gives
    from [range(3)], of which one gives [Win32]) and the fingerprint
    keeps the timezone as it was, whatever the platform;
    'Asia/Novosibirsk' is such a timezone. The pool the platform of a
    timezone string is drawn from is the one this test selects, and no
    other. *)
Theorem is_russian_tz_four_substrings :
  (forall tz : str,
      (is_russian_tz (JString tz) = Val true <->
       occurs_in Lit.Moscow tz \/ occurs_in Lit.Kaliningrad tz
       \/ occurs_in Lit.Samara tz \/ occurs_in Lit.Yekaterinburg tz)
      /\ (is_russian_tz (JString tz) = Val false <->
          ~ (occurs_in Lit.Moscow tz \/ occurs_in Lit.Kaliningrad tz
             \/ occurs_in Lit.Samara tz \/ occurs_in Lit.Yekaterinburg tz)))
  /\ (forall (detect_timezone : bool) reply tz (r : R),
         initial_timezone detect_timezone reply = Val tz ->
         is_russian_tz tz = Val false ->
         exists fp r',
           generate_random_fingerprint detect_timezone reply r = (Val fp, r')
           /\ platforms false = [Lit.Win32; Lit.MacIntel; Lit.Linux_x86_64]
           /\ fst (choice (platforms false) (before_platform r))
              = Val (platform (navigator fp))
           /\ (platform (navigator fp) = Lit.Win32 <->
               fst (randbelow (before_platform r) 3) < 1)
           /\ timezone fp = tz)
  /\ (forall (detect_timezone : bool) reply (tz : str) (r : R),
         initial_timezone detect_timezone reply = Val (JString tz) ->
         exists ru fp r',
           is_russian_tz (JString tz) = Val ru
           /\ generate_random_fingerprint detect_timezone reply r
              = (Val fp, r')
           /\ fst (choice (platforms ru) (before_platform r))
              = Val (platform (navigator fp)))
  /\ is_russian_tz (JString (lit "Asia/Novosibirsk")) = Val false.
Proof.
  split; [|split; [|split]].
  - intros tz. rewrite is_russian_tz_string.
    set (b := contains Lit.Moscow tz || contains Lit.Kaliningrad tz
              || contains Lit.Samara tz || contains Lit.Yekaterinburg tz).
    assert (Hb : b = true <->
                 occurs_in Lit.Moscow tz \/ occurs_in Lit.Kaliningrad tz
                 \/ occurs_in Lit.Samara tz
                 \/ occurs_in Lit.Yekaterinburg tz).
    { unfold b. rewrite !orb_true_iff, !contains_occurs_in. tauto. }
    split; split.
    + intros [= E]. now apply Hb.
    + intros Ho. apply Hb in Ho. now rewrite Ho.
    + intros [= E] Ho. apply Hb in Ho. congruence.
    + intros Hno. destruct b; [|reflexivity].
      exfalso. apply Hno. now apply Hb.
  - intros dt reply tz r Htz Hru.
    destruct (generate_random_fingerprint_run dt reply tz false r Htz Hru)
      as (cores & mem & w & h & dw & dh & p & ua & touch & r'
          & _ & _ & _ & _ & _ & _ & _ & _ & Hdraw & E).
    eexists _, r'. split; [exact E|]. cbn.
    split; [reflexivity|]. split; [exact Hdraw|].
    split; [exact (platform_draw false p _ Hdraw)|].
    unfold corrected_timezone. rewrite !andb_false_r. reflexivity.
  - intros dt reply tz r Htz.
    pose proof (is_russian_tz_string tz) as Hru.
    destruct (generate_random_fingerprint_run dt reply (JString tz) _ r
                Htz Hru)
      as (cores & mem & w & h & dw & dh & p & ua & touch & r'
          & _ & _ & _ & _ & _ & _ & _ & _ & Hdraw & E).
    eexists _, _, r'. split; [exact Hru|]. split; [exact E|exact Hdraw].
  - vm_compute. reflexivity.
Qed.

End SynthesisClaims.

(** ** Lower case and the challenge test *)

Section ChallengeFacts.

Context {U : UnicodeData}.

Lemma ascii_lower_ascii (c : N) :
  (Py.ascii_lower c < 128)%N -> (c < 128)%N.
Proof.
  unfold Py.ascii_lower.
  destruct ((65 <=? c)%N && (c <=? 90)%N) eqn:E; [|auto].
  apply andb_true_iff in E. destruct E as [_ E%N.leb_le]. lia.
Qed.

(** ASCII letters are lowered one by one, whatever stands around them. *)
Lemma lower_from_ascii_app (before word post : str) :
  Forall (fun c => (Py.ascii_lower c < 128)%N) word ->
  Py.lower_from before (word ++ post)
  = map Py.ascii_lower word ++ Py.lower_from (before ++ word) post.
Proof.
  intros Hw. revert before.
  induction Hw as [|c u Hc Hu IH]; intros before; simpl.
  - now rewrite app_nil_r.
  - apply ascii_lower_ascii, N.ltb_lt in Hc.
    rewrite Hc, IH, <- app_assoc. reflexivity.
Qed.

Lemma lower_from_occurrence (before pre word post : str) :
  Forall (fun c => (Py.ascii_lower c < 128)%N) word ->
  occurs_in (map Py.ascii_lower word)
    (Py.lower_from before (pre ++ word ++ post)).
Proof.
  intros Hw. revert before.
  induction pre as [|c pre IH]; intros before.
  - simpl. rewrite (lower_from_ascii_app _ _ _ Hw).
    now exists [], (Py.lower_from (before ++ word) post).
  - cbn [app Py.lower_from].
    destruct (IH (before ++ [c])) as (x & y & E). rewrite E.
    eexists (_ ++ x), y. now rewrite <- app_assoc.
Qed.

Lemma lower_occurrence (pre word post : str) :
  Forall (fun c => (Py.ascii_lower c < 128)%N) word ->
  occurs_in (map Py.ascii_lower word) (Py.lower (pre ++ word ++ post)).
Proof. apply lower_from_occurrence. Qed.

Lemma detected_captcha_iff (text : str) :
  detected_captcha text = true <->
  exists phrase, In phrase captcha_indicators
                 /\ occurs_in phrase (Py.lower text).
Proof.
  unfold detected_captcha. rewrite existsb_exists.
  split; intros (p & Hp & Ho); exists p; split; auto;
    now apply contains_occurs_in.
Qed.

Lemma detected_captcha_word (pre word post : str) :
  map Py.ascii_lower word = captcha ->
  detected_captcha (pre ++ word ++ post) = true.
Proof.
  intros Hw. apply detected_captcha_iff. exists captcha. split.
  - vm_compute. tauto.
  - rewrite <- Hw. apply lower_occurrence.
    apply Forall_forall. intros c Hc.
    apply (in_map Py.ascii_lower) in Hc. rewrite Hw in Hc.
    unfold captcha in Hc. simpl In in Hc.
    repeat (destruct Hc as [<-|Hc]; [reflexivity|]). destruct Hc.
Qed.

(** A text taken for a challenge on entry is not taken as passed in
    the loop: the exit test is the stricter one. *)
Lemma challenged_not_passed (text : str) :
  challenged text = true -> passed text = false.
Proof.
  unfold challenged, passed.
  destruct (detected_captcha text); [reflexivity|]. simpl.
  intros E%Z.ltb_lt. rewrite Z.gtb_ltb. apply Z.ltb_ge. lia.
Qed.

End ChallengeFacts.

(** ** Calls on the engine *)

Lemma after_nil (w : World) : after w [] = w.
Proof. destruct w. unfold after. simpl. now rewrite app_nil_r. Qed.

Lemma after_after (w : World) (a b : list Call) :
  after (after w a) b = after w (a ++ b).
Proof. unfold after. simpl. now rewrite app_assoc. Qed.

Lemma log_after_length (w : World) (a : list Call) :
  length (log (after w a)) = (length (log w) + length a)%nat.
Proof. unfold after. simpl. apply length_app. Qed.

Lemma engine_after (w : World) (a : list Call) :
  engine (after w a) = engine w.
Proof. reflexivity. Qed.

Lemma calls_since_after (w : World) (a : list Call) :
  calls_since w (after w a) = a.
Proof.
  unfold calls_since, after. simpl.
  rewrite skipn_app, skipn_all, Nat.sub_diag. reflexivity.
Qed.

Lemma call_run {A} (c : Call) (reply : Engine -> nat -> Outcome A) w :
  call c reply w = (reply (engine w) (length (log w)), after w [c]).
Proof. reflexivity. Qed.

(** ** Teardown *)

Lemma stop_attempt (self : OzonParser) (w : World) :
  stop self w = attempt (teardown self) w.
Proof.
  unfold stop, teardown.
  destruct (page self), (browser self), (playwright self);
    cbn [app attempt]; unfold bind, call, ret; cbn [engine log];
    repeat match goal with
      | |- context [match ?x with Val _ => _ | Raise _ => _ end] =>
          destruct x as [[]|]
      end; reflexivity.
Qed.

Lemma attempt_all (calls : list Call) (w : World) :
  (forall k, (k < length calls)%nat ->
             close_reply (engine w) (length (log w) + k) = Val tt) ->
  attempt calls w = (Val tt, after w calls).
Proof.
  revert w. induction calls as [|c rest IH]; intros w Hok.
  - simpl. now rewrite after_nil.
  - cbn [attempt]. unfold bind. rewrite call_run.
    rewrite <- (Nat.add_0_r (length (log w))), (Hok 0%nat) by (simpl; lia).
    rewrite IH, after_after; [reflexivity|].
    intros k Hk. rewrite log_after_length. simpl.
    rewrite <- Nat.add_assoc. apply Hok. simpl. lia.
Qed.

Lemma attempt_first_failure (calls : list Call) (w : World) k e :
  (k < length calls)%nat ->
  (forall j, (j < k)%nat ->
             close_reply (engine w) (length (log w) + j) = Val tt) ->
  close_reply (engine w) (length (log w) + k) = Raise e ->
  attempt calls w = (Raise e, after w (firstn (S k) calls)).
Proof.
  revert w k. induction calls as [|c rest IH]; intros w k Hk Hok Hfail.
  - simpl in Hk. lia.
  - cbn [attempt]. unfold bind. rewrite call_run.
    destruct k as [|k].
    + rewrite Nat.add_0_r in Hfail. rewrite Hfail. reflexivity.
    + rewrite <- (Nat.add_0_r (length (log w))), (Hok 0%nat) by lia.
      rewrite (IH _ k).
      * rewrite after_after. reflexivity.
      * simpl in Hk. lia.
      * intros j Hj. rewrite log_after_length. simpl.
        rewrite <- Nat.add_assoc. apply Hok. lia.
      * rewrite log_after_length. simpl.
        rewrite <- Nat.add_assoc. exact Hfail.
Qed.

(** C4, as amended. [stop] goes through the teardown steps in order
    (close the page, close the browser, stop the driver), one for each
    object the parser holds. When no step fails all of them are made;
    when one fails, its exception leaves [stop] at once and the steps
    after it are not made. *)
Theorem stop_in_order_until_first_failure (self : OzonParser) (w : World) :
  ((forall k, (k < length (teardown self))%nat ->
              close_reply (engine w) (length (log w) + k) = Val tt) ->
   stop self w = (Val tt, after w (teardown self)))
  /\ (forall k e,
         (k < length (teardown self))%nat ->
         (forall j, (j < k)%nat ->
                    close_reply (engine w) (length (log w) + j) = Val tt) ->
         close_reply (engine w) (length (log w) + k) = Raise e ->
         stop self w = (Raise e, after w (firstn (S k) (teardown self)))).
Proof.
  rewrite stop_attempt. split.
  - apply attempt_all.
  - intros k e. apply attempt_first_failure.
Qed.

(** ** Calls on the page *)

Section PageFacts.

Context {U : UnicodeData}.

Variable self : OzonParser.
Variable h : Handle.
Hypothesis page_live : page self = Some h.

Lemma on_page_run {A} (c : Call) (reply : Engine -> nat -> Outcome A) w :
  on_page self c reply w
  = (reply (engine w) (length (log w)), after w [c]).
Proof. unfold on_page. rewrite page_live. reflexivity. Qed.

Lemma page_goto_run url timeout w :
  page_goto self url timeout w
  = (goto_reply (engine w) (length (log w)) url,
     after w [CGoto url timeout]).
Proof. apply on_page_run. Qed.

Lemma page_wait_for_timeout_run ms w :
  page_wait_for_timeout self ms w
  = (wait_reply (engine w) (length (log w)) ms,
     after w [CWaitForTimeout ms]).
Proof. apply on_page_run. Qed.

Lemma page_inner_text_run selector w :
  page_inner_text self selector w
  = (inner_text_reply (engine w) (length (log w)) selector,
     after w [CInnerText selector]).
Proof. apply on_page_run. Qed.

Lemma page_screenshot_run path w :
  page_screenshot self path w
  = (screenshot_reply (engine w) (length (log w)) path,
     after w [CScreenshot path]).
Proof. apply on_page_run. Qed.

End PageFacts.

(** ** Extraction *)

Section ExtractionFacts.

Context {U : UnicodeData}.

Ltac step_in E :=
  match type of E with
  | (match ?x with (_, _) => _ end) = _ =>
      let o := fresh "o" in
      let w := fresh "w" in
      let Ex := fresh "Ex" in
      destruct x as [o w] eqn:Ex; destruct o; [|discriminate E]
  end.

(** [int] returns a number or raises [ValueError], and leaves the state
    as it is. *)
Lemma int_cases {S} (s : str) (st : S) :
  (exists n, Py.int s st = (Val n, st))
  \/ (exists msg, Py.int s st = (Raise (PyException "ValueError" msg), st)).
Proof.
  unfold Py.int.
  destruct (Py.int_max_str_digits <? _); [right; eexists; reflexivity|].
  destruct (Py.take_while _ _); [right; eexists; reflexivity|].
  destruct (Py.drop_while Py.int_space _); [|right; eexists; reflexivity].
  destruct (Py.digits_value _ _); [left|right]; eexists; reflexivity.
Qed.

(** Lines 517-522 leave the record as it is or add the numeric price
    at its end. *)
Lemma add_price_number_result {S} (data : dict) (price : str) (s s' : S) d :
  add_price_number data price s = (Val d, s') ->
  s' = s
  /\ (d = data \/ exists n, d = data ++ [("price_number"%string, PInt n)]).
Proof.
  unfold add_price_number.
  destruct price as [|c price]; [intros [= <- <-]; auto|].
  destruct (Py.search_digits_spaces (c :: price)) as [group|];
    [|intros [= <- <-]; auto].
  unfold bind.
  destruct (int_cases (Py.remove_spaces group) s) as [[n ->]|[msg ->]];
    [|discriminate].
  intros [= <- <-]. split; [reflexivity|]. right. now exists n.
Qed.

(** What the extraction returns is the record of the page: it has the
    URL and no ['error'] entry. *)
Lemma extract_product_record (self : OzonParser) (url : str) w d w' :
  extract_product self url w = (Val d, w') ->
  has_key "error" d = false /\ get "url" d = Some (PStr url).
Proof.
  unfold extract_product. intros E.
  unfold bind in E.
  repeat step_in E. unfold ret in E. injection E as <- _.
  match goal with
  | H : add_price_number _ _ _ = _ |- _ =>
      apply add_price_number_result in H;
      destruct H as [_ [->|[n ->]]]
  end; split; reflexivity.
Qed.

End ExtractionFacts.

(** ** Navigation failures *)

Section NavigationFacts.

Context {U : UnicodeData}.

Lemma load_page_goto_raises (self : OzonParser) h url w e :
  page self = Some h ->
  goto_reply (engine w) (length (log w)) url = Raise e ->
  load_page self url w = (Raise e, after w [CGoto url 60000]).
Proof.
  intros Hp Hg. unfold load_page. apply bind_raise.
  rewrite (page_goto_run self h Hp), Hg. reflexivity.
Qed.

(** C3, as amended. When the navigation of a product page raises the
    engine's timeout, [parse_product] gives up the rest of the load and
    challenge check and goes on to the extraction: its result is the
    extraction's, made on the page as it is, so what it returns is the
    record of the URL, without an ['error'] entry. A navigation that
    fails in another way is what ends the attempt: the result is then
    the dict with the single entry ['error'], and nothing is
    extracted. *)
Theorem navigation_timeout_continues_to_extraction
    (self : OzonParser) (h : Handle) (url : str) (w : World) :
  page self = Some h ->
  (forall msg,
      goto_reply (engine w) (length (log w)) url
      = Raise (PlaywrightTimeoutError msg) ->
      parse_product self url w
      = extract_product self url (after w [CGoto url 60000])
      /\ (forall d w',
             parse_product self url w = (Val d, w') ->
             has_key "error" d = false /\ get "url" d = Some (PStr url)))
  /\ (forall cls msg,
         goto_reply (engine w) (length (log w)) url
         = Raise (PyException cls msg) ->
         parse_product self url w
         = (Val [("error"%string, PStr (load_failed_prefix ++ msg))],
            after w [CGoto url 60000])).
Proof.
  intros Hp. split.
  - intros msg Hg.
    assert (E : parse_product self url w
                = extract_product self url (after w [CGoto url 60000])).
    { unfold parse_product.
      now rewrite (load_page_goto_raises self h url w _ Hp Hg). }
    split; [exact E|]. intros d w'. rewrite E.
    apply extract_product_record.
  - intros cls msg Hg. unfold parse_product.
    now rewrite (load_page_goto_raises self h url w _ Hp Hg).
Qed.

End NavigationFacts.

(** ** Classification of the loaded page *)

Section ClassificationClaims.

Context {U : UnicodeData}.

(** Once the page is loaded and its text read, the [try] goes on as the
    test of line 456 says. *)
Lemma load_page_classified (self : OzonParser) h url w response text :
  page self = Some h ->
  goto_reply (engine w) (length (log w)) url = Val response ->
  wait_reply (engine w) (length (log w) + 1) 5000 = Val tt ->
  inner_text_reply (engine w) (length (log w) + 2) body = Val text ->
  load_page self url w
  = (returned <- (if challenged text
                  then wait_for_captcha self (range 120)
                  else ret None) ;;
     check_content self returned)
      (after w [CGoto url 60000; CWaitForTimeout 5000; CInnerText body]).
Proof.
  intros Hp Hg Hw Ht. unfold load_page.
  rewrite (bind_val _ _ w response (after w [CGoto url 60000]))
    by (rewrite (page_goto_run self h Hp), Hg; reflexivity).
  rewrite (bind_val _ _ _ tt
             (after w [CGoto url 60000; CWaitForTimeout 5000])).
  2:{ rewrite (page_wait_for_timeout_run self h Hp), engine_after,
        log_after_length, after_after. simpl length.
      rewrite Hw. reflexivity. }
  rewrite (bind_val _ _ _ text
             (after w [CGoto url 60000; CWaitForTimeout 5000;
                       CInnerText body])).
  2:{ rewrite (page_inner_text_run self h Hp), engine_after,
        log_after_length, after_after. simpl length.
      rewrite Ht. reflexivity. }
  reflexivity.
Qed.

(** C2. The test of line 456 takes the body text for a challenge
    exactly when its lower case holds one of the challenge phrases or
    it is shorter than 200 characters. So a text of 199 characters is
    taken for one even without a phrase, a text of 200 characters
    without a phrase is not, and a text in which 'captcha' occurs in
    any mix of cases is, at any length. In [parse_product] the test is
    made on the text read after the settle wait, and it decides what
    follows: the challenge loop, or the content check at once. *)
Theorem challenged_iff_phrase_or_short (text : str) :
  (challenged text = true <->
   (exists phrase, In phrase captcha_indicators
                   /\ occurs_in phrase (Py.lower text))
   \/ len text < 200)
  /\ (len text = 199 -> challenged text = true)
  /\ (len text = 200 ->
      (forall phrase, In phrase captcha_indicators ->
                      ~ occurs_in phrase (Py.lower text)) ->
      challenged text = false)
  /\ (forall pre word post,
         text = pre ++ word ++ post ->
         map Py.ascii_lower word = captcha ->
         challenged text = true)
  /\ (forall self h url w response,
         page self = Some h ->
         goto_reply (engine w) (length (log w)) url = Val response ->
         wait_reply (engine w) (length (log w) + 1) 5000 = Val tt ->
         inner_text_reply (engine w) (length (log w) + 2) body = Val text ->
         let w3 := after w [CGoto url 60000; CWaitForTimeout 5000;
                            CInnerText body] in
         (challenged text = true ->
          load_page self url w
          = (returned <- wait_for_captcha self (range 120) ;;
             check_content self returned) w3)
         /\ (challenged text = false ->
             load_page self url w = check_content self None w3)).
Proof.
  assert (Hiff : challenged text = true <->
                 (exists phrase, In phrase captcha_indicators
                                 /\ occurs_in phrase (Py.lower text))
                 \/ len text < 200).
  { unfold challenged.
    rewrite orb_true_iff, detected_captcha_iff, Z.ltb_lt. tauto. }
  split; [exact Hiff|]. split; [|split; [|split]].
  - intros Hlen. apply Hiff. right. lia.
  - intros Hlen Hno. apply not_true_is_false. intros Hc.
    apply Hiff in Hc. destruct Hc as [(p & Hp & Ho)|Hs].
    + exact (Hno p Hp Ho).
    + lia.
  - intros pre word post -> Hw. unfold challenged.
    now rewrite detected_captcha_word.
  - intros self h url w response Hp Hg Hw Ht w3.
    rewrite (load_page_classified self h url w response text Hp Hg Hw Ht).
    fold w3. split; intros ->; reflexivity.
Qed.

End ClassificationClaims.

(** ** Poll ticks in the log *)

Lemma ticks_in_app (a b : list Call) :
  ticks_in (a ++ b) = (ticks_in a + ticks_in b)%nat.
Proof. unfold ticks_in. now rewrite filter_app, length_app. Qed.

Lemma emits_ret {A} (a : A) : emits (ret a) 0.
Proof. intros w. exists []. now rewrite after_nil. Qed.

Lemma emits_raise {A} (e : exn) : emits (@raise World A e) 0.
Proof. intros w. exists []. now rewrite after_nil. Qed.

Lemma emits_call {A} (c : Call) (reply : Engine -> nat -> Outcome A) :
  emits (call c reply) (if is_tick c then 1 else 0).
Proof.
  intros w. exists [c]. split; [reflexivity|].
  unfold ticks_in. simpl. destruct (is_tick c); simpl; lia.
Qed.

Lemma emits_weaken {A} (m : M World A) (a b : nat) :
  (a <= b)%nat -> emits m a -> emits m b.
Proof.
  intros Hab Hm w. destruct (Hm w) as (l & E & Hl). exists l. split; [auto|lia].
Qed.

Lemma emits_bind {A B} (m : M World A) (k : A -> M World B) (a b : nat) :
  emits m a -> (forall x, emits (k x) b) -> emits (bind m k) (a + b).
Proof.
  intros Hm Hk w. unfold bind.
  destruct (Hm w) as (l1 & E1 & H1).
  destruct (m w) as [[x|e] w1]; simpl in E1; subst w1.
  - destruct (Hk x (after w l1)) as (l2 & E2 & H2).
    exists (l1 ++ l2). rewrite E2, after_after, ticks_in_app. split; [auto|lia].
  - exists l1. simpl. split; [auto|lia].
Qed.

Lemma emits_on_page {A} self (c : Call) (reply : Engine -> nat -> Outcome A) :
  emits (on_page self c reply) (if is_tick c then 1 else 0).
Proof.
  unfold on_page. destruct (page self).
  - apply emits_call.
  - eapply emits_weaken; [|apply emits_raise]. lia.
Qed.

Section TickFacts.

Context {U : UnicodeData}.

Lemma emits_wait_for_captcha self (ticks : list Z) :
  emits (wait_for_captcha self ticks) (length ticks).
Proof.
  induction ticks as [|i rest IH]; [apply emits_ret|].
  cbn [wait_for_captcha length].
  apply (emits_bind _ _ 1 (length rest)); [apply (emits_on_page self)|].
  intros _. apply (emits_bind _ _ 0 (length rest));
    [apply (emits_on_page self)|].
  intros text. destruct (passed text).
  - apply (emits_weaken _ (0 + 0)); [lia|].
    apply emits_bind; [apply (emits_on_page self)|].
    intros _. apply emits_ret.
  - destruct (i >=? 119).
    + eapply emits_weaken; [|apply emits_ret]. lia.
    + exact IH.
Qed.

Lemma emits_load_page self url : emits (load_page self url) 120.
Proof.
  unfold load_page.
  apply (emits_bind _ _ 0 120); [apply (emits_on_page self)|]. intros _.
  apply (emits_bind _ _ 0 120); [apply (emits_on_page self)|]. intros _.
  apply (emits_bind _ _ 0 120); [apply (emits_on_page self)|]. intros text.
  apply (emits_weaken _ (120 + 0)); [lia|].
  apply emits_bind.
  - destruct (challenged text).
    + apply (emits_wait_for_captcha self (range 120)).
    + eapply emits_weaken; [|apply emits_ret]. lia.
  - intros [d|]; [apply emits_ret|]. unfold check_content.
    apply (emits_bind _ _ 0 0); [apply (emits_on_page self)|]. intros _.
    apply (emits_bind _ _ 0 0); [apply (emits_on_page self)|]. intros _.
    apply emits_ret.
Qed.

Lemma emits__extract_text self selector :
  emits (_extract_text self selector) 0.
Proof.
  intros w. unfold _extract_text.
  match goal with
  | |- context [match ?m w with _ => _ end] =>
      assert (Hm : emits m 0)
  end.
  { apply (emits_bind _ _ 0 0); [apply (emits_on_page self)|].
    intros [el|]; [|apply emits_ret].
    apply (emits_bind _ _ 0 0); [apply emits_call|]. intros t.
    apply emits_ret. }
  destruct (Hm w) as (l & E & Hl). exists l.
  match goal with
  | |- context [match ?x with (_, _) => _ end] =>
      destruct x as [[[t|]|[m|c m|c]] w1]
  end; simpl in *; auto.
Qed.

Lemma emits_add_price_number data price :
  emits (add_price_number data price) 0.
Proof.
  unfold add_price_number. destruct price as [|c price]; [apply emits_ret|].
  destruct (Py.search_digits_spaces _); [|apply emits_ret].
  apply (emits_bind _ _ 0 0); [|intros ?; apply emits_ret].
  unfold Py.int.
  destruct (Py.int_max_str_digits <? _); [apply emits_raise|].
  destruct (Py.take_while _ _); [apply emits_raise|].
  destruct (Py.drop_while Py.int_space _); [|apply emits_raise].
  destruct (Py.digits_value _ _); [apply emits_ret|apply emits_raise].
Qed.

Lemma emits_extract_product self url : emits (extract_product self url) 0.
Proof.
  unfold extract_product.
  repeat (apply (emits_bind _ _ 0 0);
          [apply emits__extract_text|]; intros ?).
  apply (emits_bind _ _ 0 0); [apply emits_add_price_number|]. intros d.
  apply (emits_bind _ _ 0 0); [apply (emits_on_page self)|]. intros _.
  apply emits_ret.
Qed.

Lemma emits_parse_product self url : emits (parse_product self url) 120.
Proof.
  intros w. unfold parse_product.
  destruct (emits_load_page self url w) as (l1 & E1 & H1).
  destruct (load_page self url w) as [[[d|]|[m|c m|c]] w1];
    simpl in E1; subst w1;
    try (exists l1; split; [reflexivity|exact H1]);
    destruct (emits_extract_product self url (after w l1)) as (l2 & E2 & H2);
    exists (l1 ++ l2); rewrite E2, after_after, ticks_in_app;
    (split; [reflexivity|lia]).
Qed.

End TickFacts.

(** ** The challenge loop *)

Section PollFacts.

Context {U : UnicodeData}.

Variable self : OzonParser.
Variable h : Handle.
Hypothesis page_live : page self = Some h.

(** One tick of the loop, when the engine answers both its calls. *)
Lemma wait_for_captcha_tick (i : Z) (rest : list Z) (w : World) text :
  wait_reply (engine w) (length (log w)) 1000 = Val tt ->
  inner_text_reply (engine w) (S (length (log w))) body = Val text ->
  wait_for_captcha self (i :: rest) w
  = (if passed text then
       page_wait_for_timeout self 2000 ;;; ret None
     else if i >=? 119 then ret (Some captcha_timeout)
     else wait_for_captcha self rest)
      (after w [CWaitForTimeout 1000; CInnerText body]).
Proof.
  intros Hw Ht. cbn [wait_for_captcha].
  rewrite (bind_val _ _ w tt (after w [CWaitForTimeout 1000]))
    by (rewrite (page_wait_for_timeout_run self h page_live), Hw;
        reflexivity).
  rewrite (bind_val _ _ _ text
             (after w [CWaitForTimeout 1000; CInnerText body])).
  - reflexivity.
  - rewrite (page_inner_text_run self h page_live), engine_after,
      log_after_length, after_after. simpl length.
    rewrite Nat.add_1_r, Ht. reflexivity.
Qed.

(** Ticks that all stay in the challenge run to the last index and
    return the timeout result there. *)
Lemma wait_for_captcha_times_out (n i0 : nat) (w : World) :
  (0 < n)%nat -> (i0 + n = 120)%nat ->
  (forall k, (k < n)%nat ->
             still_challenged_at (engine w) (length (log w) + 2 * k)) ->
  wait_for_captcha self (map Z.of_nat (seq i0 n)) w
  = (Val (Some captcha_timeout), after w (poll_calls n)).
Proof.
  revert i0 w. induction n as [|n IH]; intros i0 w Hn Hsum Hstay; [lia|].
  destruct (Hstay 0%nat) as (text & Hw & Ht & Hp); [lia|].
  rewrite Nat.mul_0_r, Nat.add_0_r in Hw, Ht.
  cbn [seq map].
  rewrite (wait_for_captcha_tick _ _ _ text Hw Ht), Hp.
  destruct n as [|n].
  - replace (Z.of_nat i0 >=? 119) with true
      by (symmetry; apply Z.geb_le; lia).
    reflexivity.
  - replace (Z.of_nat i0 >=? 119) with false
      by (symmetry; rewrite Z.geb_leb; apply Z.leb_gt; lia).
    rewrite (IH (S i0)); [|lia|lia|].
    + rewrite after_after. reflexivity.
    + intros k Hk. rewrite engine_after, log_after_length. simpl length.
      replace (length (log w) + 2 + 2 * k)%nat
        with (length (log w) + 2 * S k)%nat by lia.
      apply Hstay. lia.
Qed.

End PollFacts.

Section PollClaims.

Context {U : UnicodeData}.

(** C6. A run of [parse_product] makes at most 120 poll ticks,
    whatever the engine does. When the page is taken for a challenge
    and each of the 120 ticks still is, the run ends at the 120th tick:
    [parse_product] returns the dict whose ['error'] entry reports the
    CAPTCHA timeout, and its calls are the navigation, the settle wait
    and the first reading followed by the 120 ticks and nothing
    more. *)
Theorem challenge_poll_ceiling :
  (forall self url w,
      (ticks_in (calls_since w (snd (parse_product self url w))) <= 120)%nat)
  /\ (forall self h url w response text,
         page self = Some h ->
         goto_reply (engine w) (length (log w)) url = Val response ->
         wait_reply (engine w) (length (log w) + 1) 5000 = Val tt ->
         inner_text_reply (engine w) (length (log w) + 2) body = Val text ->
         challenged text = true ->
         (forall k, (k < 120)%nat ->
                    still_challenged_at (engine w)
                      (length (log w) + 3 + 2 * k)) ->
         parse_product self url w
         = (Val captcha_timeout,
            after w ([CGoto url 60000; CWaitForTimeout 5000; CInnerText body]
                     ++ poll_calls 120))
         /\ get "error" captcha_timeout = Some (PStr captcha_timeout_message)
         /\ ticks_in ([CGoto url 60000; CWaitForTimeout 5000; CInnerText body]
                      ++ poll_calls 120) = 120%nat).
Proof.
  split.
  - intros self url w.
    destruct (emits_parse_product self url w) as (l & E & Hl).
    now rewrite E, calls_since_after.
  - intros self h url w response text Hp Hg Hw Ht Hc Hstay.
    split; [|split; [reflexivity | vm_compute; reflexivity]].
    unfold parse_product, load_page.
    rewrite (bind_val _ _ w response (after w [CGoto url 60000]))
      by (rewrite (page_goto_run self h Hp), Hg; reflexivity).
    rewrite (bind_val _ _ _ tt
               (after w [CGoto url 60000; CWaitForTimeout 5000])).
    2:{ rewrite (page_wait_for_timeout_run self h Hp), engine_after,
          log_after_length, after_after. simpl length.
        rewrite Hw. reflexivity. }
    rewrite (bind_val _ _ _ text
               (after w [CGoto url 60000; CWaitForTimeout 5000;
                         CInnerText body])).
    2:{ rewrite (page_inner_text_run self h Hp), engine_after,
          log_after_length, after_after. simpl length.
        rewrite Ht. reflexivity. }
    rewrite Hc.
    rewrite (bind_val _ _ _ (Some captcha_timeout)
               (after w ([CGoto url 60000; CWaitForTimeout 5000;
                          CInnerText body] ++ poll_calls 120))).
    + reflexivity.
    + unfold range.
      rewrite (wait_for_captcha_times_out self h Hp 120 0);
        [now rewrite after_after|lia|lia|].
      intros k Hk. rewrite engine_after, log_after_length. simpl length.
      apply Hstay, Hk.
Qed.

(** C7. In the challenge loop, a tick whose text holds no challenge
    phrase leaves the loop exactly when the text is longer than 500
    characters: with 501 characters it does, with 480 it does not. On
    leaving, the loop makes one more wait, of two seconds, and ends
    without a result, so that [parse_product] goes on; otherwise,
    before the last index, the loop goes to its next tick. *)
Theorem clean_tick_exits_above_500
    (self : OzonParser) (h : Handle) (i : Z) (rest : list Z) (w : World)
    (text : str) :
  page self = Some h ->
  wait_reply (engine w) (length (log w)) 1000 = Val tt ->
  inner_text_reply (engine w) (S (length (log w))) body = Val text ->
  detected_captcha text = false ->
  let w2 := after w [CWaitForTimeout 1000; CInnerText body] in
  (passed text = true <-> len text > 500)
  /\ (len text = 480 -> passed text = false)
  /\ (len text = 501 -> passed text = true)
  /\ (passed text = true ->
      wait_for_captcha self (i :: rest) w
      = (match wait_reply (engine w) (length (log w) + 2) 2000 with
         | Val _ => Val None
         | Raise e => Raise e
         end,
         after w2 [CWaitForTimeout 2000]))
  /\ (passed text = false -> i < 119 ->
      wait_for_captcha self (i :: rest) w = wait_for_captcha self rest w2).
Proof.
  intros Hp Hw Ht Hclean w2.
  assert (Hiff : passed text = true <-> len text > 500).
  { unfold passed. rewrite Hclean. simpl. rewrite Z.gtb_ltb, Z.ltb_lt. lia. }
  split; [exact Hiff|]. split; [|split; [|split]].
  - intros Hlen. apply not_true_is_false. intros E%Hiff. lia.
  - intros Hlen. apply Hiff. lia.
  - intros Hpass.
    rewrite (wait_for_captcha_tick self h Hp i rest w text Hw Ht), Hpass.
    unfold bind.
    rewrite (page_wait_for_timeout_run self h Hp), engine_after,
      log_after_length.
    simpl length.
    destruct (wait_reply (engine w) (length (log w) + 2) 2000);
      reflexivity.
  - intros Hpass Hi.
    rewrite (wait_for_captcha_tick self h Hp i rest w text Hw Ht), Hpass.
    replace (i >=? 119) with false
      by (symmetry; rewrite Z.geb_leb; apply Z.leb_gt; lia).
    reflexivity.
Qed.

End PollClaims.

(** ** The numeric price *)

Section PriceFacts.

Context {U : UnicodeData}.

Lemma search_skips (pre s : str) :
  Forall (fun c => Py.digit_or_space c = false) pre ->
  Py.search_digits_spaces (pre ++ s) = Py.search_digits_spaces s.
Proof.
  induction 1 as [|c pre Hc _ IH]; [reflexivity|].
  simpl. now rewrite Hc.
Qed.

Lemma take_while_run (f : N -> bool) (run rest : str) :
  Forall (fun c => f c = true) run ->
  match rest with [] => True | c :: _ => f c = false end ->
  Py.take_while f (run ++ rest) = run.
Proof.
  intros Hrun Hrest. induction Hrun as [|c run Hc _ IH].
  - destruct rest as [|c rest]; [reflexivity|]. simpl. now rewrite Hrest.
  - simpl. now rewrite Hc, IH.
Qed.

(** [re.search] finds the first run: what stands before it has no
    digit or whitespace, and the run ends at the first character that
    is neither. *)
Lemma search_first_run (pre run rest : str) :
  Forall (fun c => Py.digit_or_space c = false) pre ->
  run <> [] ->
  Forall (fun c => Py.digit_or_space c = true) run ->
  match rest with [] => True | c :: _ => Py.digit_or_space c = false end ->
  Py.search_digits_spaces (pre ++ run ++ rest) = Some run.
Proof.
  intros Hpre Hne Hrun Hrest. rewrite (search_skips _ _ Hpre).
  destruct run as [|c run]; [congruence|].
  pose proof (take_while_run _ _ _ Hrun Hrest) as Ht.
  cbn [app Py.search_digits_spaces] in *.
  rewrite (Forall_inv Hrun). now rewrite Ht.
Qed.

(** ** Digits and blanks *)

Lemma whitespace_ascii (c : N) :
  (c < 128)%N -> whitespace c = true ->
  (9 <= c <= 13 \/ 28 <= c <= 32)%N.
Proof.
  unfold whitespace. intros Hc.
  rewrite !orb_true_iff, !andb_true_iff, !N.leb_le, !N.eqb_eq. lia.
Qed.

(** No whitespace is a digit. *)
Lemma isspace_not_decimal (c : N) :
  Py.isspace c = true -> Py.isdecimal c = false.
Proof.
  unfold Py.isspace, Py.isdecimal, Py.decimal. intros Hs.
  destruct (c <? 128)%N eqn:Hc.
  - apply N.ltb_lt in Hc.
    destruct ((48 <=? c) && (c <=? 57))%N eqn:Hd; [|reflexivity].
    apply andb_true_iff in Hd. destruct Hd as [H1%N.leb_le H2%N.leb_le].
    pose proof (whitespace_ascii c Hc Hs). lia.
  - now rewrite (decimal_not_space c Hs).
Qed.








End PriceFacts.

(* ================================================================== *)
(** * Worked runs *)

Module Runs.

Import Examples.

#[local] Existing Instance Lcg.source.
#[local] Existing Instance BasicUnicode.tables.

(** Without a seed the fingerprint follows the state the generator
    happens to be in. *)
Example unseeded_sessions_differ :
  session_fingerprint None (IpApiResponse 200 None) 1
  <> session_fingerprint None (IpApiResponse 200 None) 2.
Proof. vm_compute. discriminate. Qed.

(** Seed 42, once after a failed lookup and once after a refused one,
    the generator in two different states before. *)
Lemma same_seed_same_fingerprint_witness :
  session_fingerprint (Some 42)
    (IpApiRaised (PyException "ConnectionError" [])) 7
  = session_fingerprint (Some 42) (IpApiResponse 503 None) 1000.
Proof.
  apply (same_seed_same_fingerprint 42
           (IpApiRaised (PyException "ConnectionError" []))
           (IpApiResponse 503 None) 7 1000).
  reflexivity.
Defined.

(** A reply whose timezone entry is [null]: no fingerprint. *)
Example null_timezone_raises :
  generate_random_fingerprint true (IpApiResponse 200 (Some JNull)) 1
  = (Raise (PyException "TypeError"
              (lit "argument of type 'NoneType' is not iterable")), 1).
Proof. vm_compute. reflexivity. Qed.

(** A reply whose timezone entry is a list holding 'Moscow'. *)
Example list_timezone_is_kept :
  exists fp r',
    generate_random_fingerprint true
      (IpApiResponse 200 (Some (JArray [JString Lit.Moscow]))) 1
    = (Val fp, r')
    /\ timezone fp = JArray [JString Lit.Moscow].
Proof. eexists _, _. split; vm_compute; reflexivity. Qed.


Example seed_4_draws_MacIntel :
  exists fp r',
    generate_random_fingerprint true
      (IpApiResponse 200 (Some (JString (lit "Asia/Yekaterinburg")))) 4
    = (Val fp, r')
    /\ platform (navigator fp) = Lit.MacIntel
    /\ timezone fp = JString Lit.Europe_Moscow.
Proof. eexists _, _. split; [vm_compute; reflexivity|]. split; reflexivity. Qed.

(** Novosibirsk is not taken for a Russian zone. *)
Lemma is_russian_tz_four_substrings_witness :
  exists fp r',
    generate_random_fingerprint true
      (IpApiResponse 200 (Some (JString (lit "Asia/Novosibirsk")))) 4
    = (Val fp, r')
    /\ platforms false = [Lit.Win32; Lit.MacIntel; Lit.Linux_x86_64]
    /\ fst (choice (platforms false) (before_platform 4))
       = Val (platform (navigator fp))
    /\ (platform (navigator fp) = Lit.Win32 <->
        fst (randbelow (before_platform 4) 3) < 1)
    /\ timezone fp = JString (lit "Asia/Novosibirsk").
Proof.
  apply (proj1 (proj2 is_russian_tz_four_substrings) true
           (IpApiResponse 200 (Some (JString (lit "Asia/Novosibirsk"))))
           (JString (lit "Asia/Novosibirsk")) 4);
    reflexivity.
Defined.

Lemma lower_clean (n : nat) : Py.lower (clean n) = clean n.
Proof.
  unfold Py.lower, clean. generalize (@nil N).
  induction n as [|n IH]; intros before; [reflexivity|].
  cbn [repeat Py.lower_from]. rewrite IH. reflexivity.
Qed.

Lemma clean_has_no_phrase (n : nat) (phrase : str) :
  In phrase captcha_indicators -> ~ occurs_in phrase (Py.lower (clean n)).
Proof.
  intros Hin (pre & post & E). rewrite lower_clean in E.
  assert (Hall : Forall (fun c => c = 120%N) (pre ++ phrase ++ post)).
  { rewrite <- E. unfold clean. apply Forall_forall.
    intros c Hc. now apply repeat_spec in Hc. }
  apply Forall_app in Hall. destruct Hall as [_ Hall].
  apply Forall_app in Hall. destruct Hall as [Hall _].
  unfold captcha_indicators in Hin. simpl in Hin.
  repeat (destruct Hin as [<-|Hin];
          [apply Forall_inv in Hall; discriminate Hall|]).
  destruct Hin.
Qed.

(** 199 and 200 letters without a phrase, a CAPTCHA notice, and a page
    of 200 letters loaded: no challenge loop. *)
Lemma challenged_iff_phrase_or_short_witness :
  challenged (clean 199) = true
  /\ challenged (clean 200) = false
  /\ challenged (lit "Please solve the CaPtChA to continue") = true
  /\ load_page started product_url (fresh (showing (clean 200)))
     = check_content started None
         (after (fresh (showing (clean 200)))
            [CGoto product_url 60000; CWaitForTimeout 5000;
             CInnerText body]).
Proof.
  assert (H200 : challenged (clean 200) = false).
  { apply (proj1 (proj2 (proj2 (challenged_iff_phrase_or_short (clean 200))))).
    - reflexivity.
    - intros phrase. apply clean_has_no_phrase. }
  split; [|split; [exact H200|split]].
  - apply (proj1 (proj2 (challenged_iff_phrase_or_short (clean 199)))).
    reflexivity.
  - apply (proj1 (proj2 (proj2 (proj2
             (challenged_iff_phrase_or_short
                (lit "Please solve the CaPtChA to continue")))))
             (lit "Please solve the ") (lit "CaPtChA") (lit " to continue"));
      reflexivity.
  - apply (proj2 (proj2 (proj2 (proj2 (proj2
                    (challenged_iff_phrase_or_short (clean 200)))))
                  started 2%nat product_url (fresh (showing (clean 200)))
                  (Some 200) eq_refl eq_refl eq_refl eq_refl) H200).
Defined.

(** A navigation that times out: the result has no ['error'] entry and
    the nine fields were queried. *)
Lemma navigation_timeout_returns_error_counterexample :
  ~ (forall (self : OzonParser) (h : Handle) (url : str) (w : World)
            (msg : str),
        page self = Some h ->
        goto_reply (engine w) (length (log w)) url
        = Raise (PlaywrightTimeoutError msg) ->
        exists d w',
          parse_product self url w = (Val d, w')
          /\ has_key "error" d = true
          /\ calls_since w w' = [CGoto url 60000]).
Proof.
  intros Hclaim.
  destruct (Hclaim started 2%nat product_url (fresh navigation_times_out)
              (lit "Timeout 60000ms exceeded.") eq_refl eq_refl)
    as (d & w' & E & Herror & _).
  vm_compute in E. injection E as <- _.
  vm_compute in Herror. discriminate Herror.
Qed.

Lemma navigation_timeout_continues_to_extraction_witness :
  parse_product started product_url (fresh navigation_times_out)
  = extract_product started product_url
      (after (fresh navigation_times_out) [CGoto product_url 60000])
  /\ (forall d w',
         parse_product started product_url (fresh navigation_times_out)
         = (Val d, w') ->
         has_key "error" d = false
         /\ get "url" d = Some (PStr product_url)).
Proof.
  apply (proj1 (navigation_timeout_continues_to_extraction
                  started 2%nat product_url (fresh navigation_times_out)
                  eq_refl)
           (lit "Timeout 60000ms exceeded.")).
  reflexivity.
Defined.

Example navigation_timeout_run :
  exists d w',
    parse_product started product_url (fresh navigation_times_out)
    = (Val d, w')
    /\ has_key "error" d = false
    /\ length (filter (fun c => match c with
                                | CQuerySelector _ => true
                                | _ => false
                                end) (log w')) = 9%nat.
Proof.
  eexists _, _. split; [vm_compute; reflexivity|].
  split; vm_compute; reflexivity.
Qed.

(** Closing the page fails: the browser is not closed. *)
Lemma stop_attempts_every_step_counterexample :
  ~ (forall (self : OzonParser) (w : World) (c : Call),
        In c (teardown self) ->
        In c (calls_since w (snd (stop self w)))).
Proof.
  intros Hclaim.
  assert (H : In CBrowserClose
                (calls_since (fresh page_close_fails)
                   (snd (stop started (fresh page_close_fails))))).
  { apply Hclaim. simpl. tauto. }
  vm_compute in H. destruct H as [H|[]]. discriminate H.
Qed.

Lemma stop_in_order_until_first_failure_witness :
  stop started (fresh page_close_fails)
  = (Raise (PyException "Error" (lit "Target page has been closed")),
     after (fresh page_close_fails) [CPageClose])
  /\ stop started (fresh (showing []))
     = (Val tt, after (fresh (showing []))
                  [CPageClose; CBrowserClose; CPlaywrightStop]).
Proof.
  split.
  - apply (proj2 (stop_in_order_until_first_failure started
                    (fresh page_close_fails)) 0%nat).
    + simpl. lia.
    + intros j Hj. lia.
    + reflexivity.
  - apply (proj1 (stop_in_order_until_first_failure started
                    (fresh (showing [])))).
    intros k Hk. reflexivity.
Defined.

(** A CAPTCHA page that never goes away. *)
Lemma challenge_poll_ceiling_witness :
  parse_product started product_url (fresh (showing captcha))
  = (Val captcha_timeout,
     after (fresh (showing captcha))
       ([CGoto product_url 60000; CWaitForTimeout 5000; CInnerText body]
        ++ poll_calls 120))
  /\ get "error" captcha_timeout = Some (PStr captcha_timeout_message)
  /\ ticks_in ([CGoto product_url 60000; CWaitForTimeout 5000;
                CInnerText body] ++ poll_calls 120) = 120%nat.
Proof.
  apply (proj2 challenge_poll_ceiling started 2%nat product_url
           (fresh (showing captcha)) (Some 200) captcha);
    try reflexivity.
  intros k Hk. exists captcha. repeat split; reflexivity.
Defined.

(** A clean page of 501 characters on the first tick. *)
Lemma clean_tick_exits_above_500_witness :
  let w := fresh (showing (clean 501)) in
  let w2 := after w [CWaitForTimeout 1000; CInnerText body] in
  (passed (clean 501) = true <-> len (clean 501) > 500)
  /\ (len (clean 501) = 480 -> passed (clean 501) = false)
  /\ (len (clean 501) = 501 -> passed (clean 501) = true)
  /\ (passed (clean 501) = true ->
      wait_for_captcha started (0 :: []) w
      = (match wait_reply (engine w) (length (log w) + 2) 2000 with
         | Val _ => Val None
         | Raise e => Raise e
         end,
         after w2 [CWaitForTimeout 2000]))
  /\ (passed (clean 501) = false -> 0 < 119 ->
      wait_for_captcha started (0 :: []) w = wait_for_captcha started [] w2).
Proof.
  apply (clean_tick_exits_above_500 started 2%nat 0 []
           (fresh (showing (clean 501))) (clean 501));
    reflexivity.
Defined.

Example clean_480_stays_501_leaves :
  passed (clean 480) = false /\ passed (clean 501) = true
  /\ passed (clean 500) = false.
Proof. repeat split; vm_compute; reflexivity. Qed.



End Runs.

(* ================================================================== *)
(** * Further properties of the fingerprint *)

Section FingerprintPools.

Context {R : Type} `{RandomSource R}.

Lemma generate_random_fingerprint_outcome (dt : bool) reply (r : R)
    (P : Fingerprint -> Prop) :
  (forall tz ru fp r',
      initial_timezone dt reply = Val tz ->
      is_russian_tz tz = Val ru ->
      generate_random_fingerprint dt reply r = (Val fp, r') -> P fp) ->
  match fst (generate_random_fingerprint dt reply r) with
  | Val fp => P fp
  | Raise e =>
      (exists c, e = PyBaseException c)
      \/ (exists msg, e = PyException "TypeError" msg)
  end.
Proof.
  intros HP.
  destruct (initial_timezone_cases dt reply)
    as [(tz & Htz & _)|(c & _ & _ & Htz)].
  - destruct (is_russian_tz_cases tz) as [(ru & _ & Hru)|(msg & _ & Hru)].
    + destruct (generate_random_fingerprint_run dt reply tz ru r Htz Hru)
        as (cores & mem & w & h & dw & dh & p & ua & touch & r' & Hrest).
      destruct Hrest as (_ & _ & _ & _ & _ & _ & _ & _ & _ & E).
      specialize (HP tz ru _ r' Htz Hru E). rewrite E. exact HP.
    + rewrite (generate_random_fingerprint_unclassified dt reply tz _ r
                 Htz Hru).
      simpl. right. now exists msg.
  - rewrite (generate_random_fingerprint_interrupted dt reply c r Htz).
    simpl. left. now exists c.
Qed.

(** X1. Every fingerprint takes its parts from the fixed pools: the
    core count is 4, 6, 8, 12 or 16, the screen is one of the listed
    resolutions at 24 bits, the platform is one of the three names, the
    user agent is one of [USER_AGENTS], and language, languages, vendor
    and locale are the fixed Russian Chromium values. A run that
    returns no fingerprint ends in an interrupt of the lookup or in the
    [TypeError] of line 94. *)
Theorem fingerprint_parts_from_pools (detect_timezone : bool)
    (reply : IpApiReply) (r : R) :
  match fst (generate_random_fingerprint detect_timezone reply r) with
  | Val fp =>
      In (hardware_concurrency (navigator fp)) [4; 6; 8; 12; 16]
      /\ In (width (screen fp), height (screen fp)) resolutions
      /\ color_depth (screen fp) = 24 /\ pixel_depth (screen fp) = 24
      /\ In (platform (navigator fp))
           [Lit.Win32; Lit.MacIntel; Lit.Linux_x86_64]
      /\ In (user_agent fp) USER_AGENTS
      /\ language (navigator fp) = Lit.ru_RU
      /\ languages (navigator fp) = [Lit.ru_RU; Lit.ru; Lit.en_US; Lit.en]
      /\ vendor (navigator fp) = Lit.Google_Inc
      /\ locale fp = Lit.ru_RU
  | Raise e =>
      (exists c, e = PyBaseException c)
      \/ (exists msg, e = PyException "TypeError" msg)
  end.
Proof.
  apply generate_random_fingerprint_outcome. intros tz ru fp r' Htz Hru E.
  destruct (generate_random_fingerprint_run detect_timezone reply tz ru r
              Htz Hru)
    as (cores & mem & w & h & dw & dh & p & ua & touch & r2
        & Hc & _ & Hwh & _ & _ & Hp & Hua & _ & _ & E2).
  rewrite E2 in E. injection E as <- _. cbn.
  repeat split; try reflexivity; try assumption.
  - unfold core_counts in Hc. simpl in *. tauto.
  - destruct ru; simpl in *; tauto.
Qed.

(** X2. The generated screen is never empty or inverted: the available
    width lies within 100 pixels below the width, the available height
    is at most the viewport height, which is below the screen height,
    and all of them are at least 618 pixels. A run that returns no
    fingerprint ends in an interrupt of the lookup or in the
    [TypeError] of line 94. *)
Theorem fingerprint_screen_geometry (detect_timezone : bool)
    (reply : IpApiReply) (r : R) :
  match fst (generate_random_fingerprint detect_timezone reply r) with
  | Val fp =>
      let s := screen fp in
      width s - 100 <= avail_width s <= width s
      /\ 1266 <= avail_width s
      /\ 618 <= avail_height s <= viewport_height (viewport fp)
      /\ viewport_height (viewport fp) < height s
      /\ height s <= width s
  | Raise e =>
      (exists c, e = PyBaseException c)
      \/ (exists msg, e = PyException "TypeError" msg)
  end.
Proof.
  apply generate_random_fingerprint_outcome. intros tz ru fp r' Htz Hru E.
  destruct (generate_random_fingerprint_run detect_timezone reply tz ru r
              Htz Hru)
    as (cores & mem & w & h & dw & dh & p & ua & touch & r2
        & _ & _ & Hwh & Hdw & Hdh & _ & _ & _ & _ & E2).
  rewrite E2 in E. injection E as <- _. cbn.
  unfold resolutions in Hwh. simpl in Hwh.
  repeat (destruct Hwh as [[= <- <-]|Hwh]; [lia|]). destruct Hwh.
Qed.

(** X3. A [Win32] fingerprint reports no touch points; any other
    platform reports 0 or 5. A run that returns no fingerprint ends in
    an interrupt of the lookup or in the [TypeError] of line 94. *)
Theorem fingerprint_touch_points (detect_timezone : bool)
    (reply : IpApiReply) (r : R) :
  match fst (generate_random_fingerprint detect_timezone reply r) with
  | Val fp =>
      (platform (navigator fp) = Lit.Win32 ->
       max_touch_points (navigator fp) = 0)
      /\ (max_touch_points (navigator fp) = 0
          \/ max_touch_points (navigator fp) = 5)
  | Raise e =>
      (exists c, e = PyBaseException c)
      \/ (exists msg, e = PyException "TypeError" msg)
  end.
Proof.
  apply generate_random_fingerprint_outcome. intros tz ru fp r' Htz Hru E.
  destruct (generate_random_fingerprint_run detect_timezone reply tz ru r
              Htz Hru)
    as (cores & mem & w & h & dw & dh & p & ua & touch & r2
        & _ & _ & _ & _ & _ & _ & _ & Ht & _ & E2).
  rewrite E2 in E. injection E as <- _. cbn.
  destruct (Str.eqb p Lit.Win32) eqn:Ep.
  - subst touch. auto.
  - split.
    + intros ->. discriminate Ep.
    + simpl in Ht. destruct Ht as [<-|[<-|[]]]; auto.
Qed.

(** X4. The timezone of the fingerprint is the one the synthesis
    started from unless the platform drawn is [MacIntel] in a Russian
    zone; the correction never changes how the zone is classified, and
    without the lookup the timezone is always Europe/Moscow. *)
Theorem fingerprint_timezone_kept (detect_timezone : bool)
    (reply : IpApiReply) (tz : Json) (ru : bool) (r : R) :
  initial_timezone detect_timezone reply = Val tz ->
  is_russian_tz tz = Val ru ->
  exists fp r',
    generate_random_fingerprint detect_timezone reply r = (Val fp, r')
    /\ (timezone fp = tz \/ timezone fp = JString Lit.Europe_Moscow)
    /\ (platform (navigator fp) <> Lit.MacIntel -> timezone fp = tz)
    /\ is_russian_tz (timezone fp) = is_russian_tz tz
    /\ (detect_timezone = false -> timezone fp = JString Lit.Europe_Moscow).
Proof.
  intros Htz Hru.
  destruct (generate_random_fingerprint_run detect_timezone reply tz ru r
              Htz Hru)
    as (cores & mem & w & h & dw & dh & p & ua & touch & r2
        & _ & _ & _ & _ & _ & _ & _ & _ & _ & E).
  eexists _, r2. split; [exact E|]. cbn.
  assert (Hcases : corrected_timezone p tz ru = tz
                   \/ (corrected_timezone p tz ru = JString Lit.Europe_Moscow
                       /\ p = Lit.MacIntel /\ ru = true)).
  { unfold corrected_timezone.
    destruct (Str.eqb p Lit.MacIntel) eqn:Ep; simpl.
    - apply str_eqb_eq in Ep.
      destruct ru; [right; auto|]. left. now rewrite andb_false_r.
    - left. now destruct (Str.eqb p Lit.Win32 && ru). }
  repeat split.
  - destruct Hcases as [->|[-> _]]; auto.
  - intros Hp. destruct Hcases as [->|(_ & Hmac & _)]; [reflexivity|].
    contradiction.
  - destruct Hcases as [->|(-> & _ & ->)]; [reflexivity|].
    rewrite Hru. reflexivity.
  - intros ->. cbn in Htz. injection Htz as <-.
    destruct Hcases as [->|[-> _]]; reflexivity.
Qed.

(** X5. When the lookup yields no zone (the request raises an
    exception, the status is not 200, or the body has no timezone
    entry) the synthesis goes on with Europe/Moscow: a fingerprint is
    produced, its timezone is Europe/Moscow and its platform is drawn
    from the pool of the Russian zones, the entry at the index the
    generator gives from [range(5)]. *)
Theorem lookup_failure_falls_back_to_moscow (reply : IpApiReply) (r : R) :
  (exists cls msg, reply = IpApiRaised (PyException cls msg))
  \/ (exists msg, reply = IpApiRaised (PlaywrightTimeoutError msg))
  \/ (exists code field, reply = IpApiResponse code field /\ code <> 200)
  \/ (exists code, reply = IpApiResponse code None) ->
  exists fp r',
    generate_random_fingerprint true reply r = (Val fp, r')
    /\ timezone fp = JString Lit.Europe_Moscow
    /\ fst (choice
              [Lit.Win32; Lit.Win32; Lit.Win32; Lit.MacIntel;
               Lit.Linux_x86_64] (before_platform r))
       = Val (platform (navigator fp))
    /\ (platform (navigator fp) = Lit.Win32 <->
        fst (randbelow (before_platform r) 5) < 3).
Proof.
  intros Hfail.
  assert (Htz : initial_timezone true reply
                = Val (JString Lit.Europe_Moscow)).
  { unfold initial_timezone.
    rewrite (detect_timezone_by_ip_state reply tt). simpl fst.
    destruct Hfail as [(cls & msg & ->)|[(msg & ->)|[(code & f & -> & Hc)
                                                    |(code & ->)]]];
      try reflexivity.
    - destruct code as [|q|q]; try reflexivity.
      destruct f as [tz|];
        repeat (destruct q as [q|q|]; try reflexivity).
      congruence.
    - destruct code as [|q|q]; try reflexivity.
      repeat (destruct q as [q|q|]; try reflexivity). }
  destruct (generate_random_fingerprint_run true reply _ true r Htz eq_refl)
    as (cores & mem & w & h & dw & dh & p & ua & touch & r2
        & _ & _ & _ & _ & _ & _ & _ & _ & Hdraw & E).
  eexists _, r2. split; [exact E|]. cbn.
  split; [|split; [exact Hdraw|exact (platform_draw true p _ Hdraw)]].
  unfold corrected_timezone.
  destruct (Str.eqb p Lit.MacIntel && _); [reflexivity|].
  now destruct (Str.eqb p Lit.Win32 && _).
Qed.

End FingerprintPools.

(** ** Draws that do not depend on one another *)

Lemma replay_choice {A} (l : list A) (j : nat) (x : A) (r : list Z) :
  nth_error l j = Some x ->
  choice (H := Replay.source) l (Z.of_nat j :: r) = (Val x, r).
Proof.
  intros Hj. assert (Hlt : (j < length l)%nat)
    by (apply nth_error_Some; congruence).
  destruct l as [|a l]; [simpl in Hlt; lia|].
  unfold choice. cbn [randbelow Replay.source Replay.below].
  rewrite Z.mod_small by lia.
  unfold getitem. now rewrite Nat2Z.id, Hj.
Qed.

(** X6. The user agent is drawn without regard to the platform: for
    every platform of the pool and every entry of [USER_AGENTS] there is
    a sequence of draws that yields a fingerprint with that platform
    and that user agent (a [Win32] platform with a Macintosh user agent
    among them). *)
Theorem user_agent_independent_of_platform (detect_timezone : bool)
    (reply : IpApiReply) (tz : Json) (ru : bool) (p ua : str) :
  initial_timezone detect_timezone reply = Val tz ->
  is_russian_tz tz = Val ru ->
  In p (platforms ru) ->
  In ua USER_AGENTS ->
  exists (r : list Z) fp r',
    generate_random_fingerprint (H := Replay.source) detect_timezone reply r
    = (Val fp, r')
    /\ platform (navigator fp) = p
    /\ user_agent fp = ua.
Proof.
  intros Htz Hru Hp Hua.
  apply In_nth_error in Hp. destruct Hp as [i Hi].
  apply In_nth_error in Hua. destruct Hua as [j Hj].
  exists [0; 0; 0; 0; Z.of_nat i; Z.of_nat j; 0].
  unfold generate_random_fingerprint.
  match goal with
  | |- context [bind _ _ ?r0] =>
      rewrite (bind_val _ _ r0 tz r0)
        by (rewrite initial_timezone_run, Htz; reflexivity);
      rewrite (bind_val _ _ r0 ru r0) by (rewrite Hru; reflexivity)
  end.
  rewrite (bind_val _ _ _ 4 _ (replay_choice core_counts 0 4 _ eq_refl)).
  rewrite (bind_val _ _ _ _ _
             (replay_choice resolutions 0 (1920, 1080) _ eq_refl)).
  rewrite (bind_val _ _ _ 0 [0; Z.of_nat i; Z.of_nat j; 0]) by reflexivity.
  rewrite (bind_val _ _ _ 40 [Z.of_nat i; Z.of_nat j; 0]) by reflexivity.
  rewrite (bind_val _ _ _ _ _ (replay_choice _ i p _ Hi)).
  rewrite (bind_val _ _ _ _ _ (replay_choice _ j ua _ Hj)).
  rewrite (bind_val _ _ _ 8 [0]) by reflexivity.
  destruct (Str.eqb p Lit.Win32).
  - eexists _, _. split; [reflexivity|]. split; reflexivity.
  - rewrite (bind_val _ _ _ _ _ (replay_choice [0; 5] 0 0 _ eq_refl)).
    eexists _, _. split; [reflexivity|]. split; reflexivity.
Qed.

(* ================================================================== *)
(** * Further properties of the session *)

(** ** Teardown *)

Lemma attempt_prefix (calls : list Call) (w : World) :
  exists k,
    (k <= length calls)%nat
    /\ snd (attempt calls w) = after w (firstn k calls)
    /\ (fst (attempt calls w) = Val tt -> k = length calls)
    /\ (forall e, fst (attempt calls w) = Raise e ->
                  exists k', k = S k'
                             /\ close_reply (engine w) (length (log w) + k')
                                = Raise e).
Proof.
  revert w. induction calls as [|c rest IH]; intros w.
  - exists 0%nat. simpl. rewrite after_nil.
    repeat split; auto. intros e [=].
  - cbn [attempt]. unfold bind. rewrite call_run.
    destruct (close_reply (engine w) (length (log w))) as [[]|e0] eqn:E0.
    + destruct (IH (after w [c])) as (k & Hk & Hs & Hv & Hr).
      exists (S k). rewrite Hs, after_after. simpl.
      split; [lia|]. split; [reflexivity|]. split.
      * intros Hval. now rewrite (Hv Hval).
      * intros e He. destruct (Hr e He) as (k' & -> & Hk').
        exists (S k'). split; [reflexivity|].
        rewrite engine_after, log_after_length in Hk'. simpl in Hk'.
        now rewrite <- Nat.add_assoc in Hk'.
    + exists 1%nat. simpl. split; [lia|]. split; [reflexivity|].
      split; [intros [=]|].
      intros e [= <-]. exists 0%nat. now rewrite Nat.add_0_r.
Qed.

(** X7. Whatever the engine does, the calls [stop] makes are an initial
    part of the teardown steps of the objects the parser holds, in
    their order: nothing is closed that was not set, nothing twice,
    nothing out of order. [stop] returns only after all of them, raises
    only what its last call raised, and on a parser that was never
    started it does nothing at all. *)
Theorem stop_calls_are_a_prefix (self : OzonParser) (w : World) :
  (exists k,
      calls_since w (snd (stop self w)) = firstn k (teardown self)
      /\ engine (snd (stop self w)) = engine w
      /\ (fst (stop self w) = Val tt -> k = length (teardown self))
      /\ (forall e, fst (stop self w) = Raise e ->
                    exists k', k = S k'
                               /\ close_reply (engine w)
                                    (length (log w) + k') = Raise e))
  /\ (page self = None -> browser self = None -> playwright self = None ->
      stop self w = (Val tt, w)).
Proof.
  split.
  - rewrite stop_attempt.
    destruct (attempt_prefix (teardown self) w) as (k & _ & Hs & Hv & Hr).
    exists k. rewrite Hs, calls_since_after. auto.
  - intros Hp Hb Hd. unfold stop. rewrite Hp, Hb, Hd. reflexivity.
Qed.

(** ** Whitespace *)

Lemma lstrip_head (s : str) :
  match Py.lstrip s with [] => True | c :: _ => Py.isspace c = false end.
Proof.
  induction s as [|c s IH]; simpl; [exact I|].
  destruct (Py.isspace c) eqn:E; [exact IH|exact E].
Qed.

Lemma lstrip_suffix (s : str) :
  exists a, s = a ++ Py.lstrip s /\ Forall (fun c => Py.isspace c = true) a.
Proof.
  induction s as [|c s IH]; [now exists []|]. simpl.
  destruct (Py.isspace c) eqn:E.
  - destruct IH as (a & Hs & Ha). exists (c :: a). split.
    + simpl. now rewrite <- Hs.
    + now constructor.
  - now exists [].
Qed.

Lemma lstrip_fixed (s : str) :
  match s with [] => True | c :: _ => Py.isspace c = false end ->
  Py.lstrip s = s.
Proof. destruct s as [|c s]; [reflexivity|]. simpl. now intros ->. Qed.

Lemma last_of_suffix (a b : str) :
  b <> [] -> hd_error (rev (a ++ b)) = hd_error (rev b).
Proof.
  intros Hb. rewrite rev_app_distr.
  destruct (rev b) as [|c rb] eqn:E; [|reflexivity].
  apply (f_equal (@rev N)) in E. rewrite rev_involutive in E.
  simpl in E. congruence.
Qed.

(** What [strip] returns has no whitespace at either end, and it is the
    text with whitespace only taken off its two ends. *)
Lemma strip_stripped (s : str) :
  stripped (Py.strip s)
  /\ exists a b, s = a ++ Py.strip s ++ b
                 /\ Forall (fun c => Py.isspace c = true) a
                 /\ Forall (fun c => Py.isspace c = true) b.
Proof.
  unfold Py.strip, stripped.
  destruct (lstrip_suffix s) as (a & Hs & Ha).
  destruct (lstrip_suffix (rev (Py.lstrip s))) as (b & Hr & Hb).
  pose proof (lstrip_head s) as Hhead.
  pose proof (lstrip_head (rev (Py.lstrip s))) as Hlast.
  set (t := Py.lstrip (rev (Py.lstrip s))) in *.
  assert (Hl : Py.lstrip s = rev t ++ rev b).
  { rewrite <- rev_app_distr, <- Hr. now rewrite rev_involutive. }
  split; [split|].
  - destruct (rev t) as [|c rt] eqn:Et; [exact I|].
    rewrite Hl in Hhead. simpl in Hhead. exact Hhead.
  - rewrite rev_involutive. exact Hlast.
  - exists a, (rev b). split; [|split].
    + rewrite Hs at 1. now rewrite Hl.
    + exact Ha.
    + now apply Forall_rev.
Qed.

Lemma strip_fixed (s : str) : stripped s -> Py.strip s = s.
Proof.
  intros [Hh Hl]. unfold Py.strip.
  rewrite (lstrip_fixed s Hh), (lstrip_fixed (rev s) Hl).
  apply rev_involutive.
Qed.

Section ExtractTextFacts.

Context {U : UnicodeData}.

(** X8. [_extract_text] never fails with an exception of the program's
    own kind: whatever the engine does, it returns a text, and only an
    interrupt from outside passes through it. When the element is found
    and its text read, the result is that text, stripped; in every
    other case it is the empty string; so the text returned has no
    whitespace at either end. It makes at most two calls. *)
Theorem _extract_text_never_fails (self : OzonParser) (selector : str)
    (w : World) :
  let n := length (log w) in
  match fst (_extract_text self selector w) with
  | Val text => stripped text
  | Raise e => exists c, e = PyBaseException c
  end
  /\ (forall hp h raw,
         page self = Some hp ->
         query_selector_reply (engine w) n selector = Val (Some h) ->
         element_inner_text_reply (engine w) (S n) h = Val raw ->
         fst (_extract_text self selector w) = Val (Py.strip raw))
  /\ (forall text,
         fst (_extract_text self selector w) = Val text ->
         text <> [] ->
         exists hp h raw,
           page self = Some hp
           /\ query_selector_reply (engine w) n selector = Val (Some h)
           /\ element_inner_text_reply (engine w) (S n) h = Val raw
           /\ text = Py.strip raw)
  /\ (length (calls_since w (snd (_extract_text self selector w))) <= 2)%nat.
Proof.
  intros n.
  assert (Hnil : stripped []) by (split; exact I).
  unfold _extract_text, page_query_selector, on_page, bind.
  destruct (page self) as [hp|].
  - rewrite call_run. fold n.
    destruct (query_selector_reply (engine w) n selector)
      as [[h|]|[m|cls m|c]] eqn:Eq; cbn [fst snd ret].
    + unfold element_inner_text. rewrite call_run, engine_after,
        log_after_length, after_after. simpl length. fold n.
      rewrite Nat.add_1_r.
      destruct (element_inner_text_reply (engine w) (S n) h)
        as [raw|[m|cls m|c]] eqn:Et; cbn [fst snd ret];
        (split; [|split; [|split;
                            [|rewrite calls_since_after; simpl; lia]]]);
        try (intros hp' h' raw' _ [= <-] Et'; rewrite Et in Et';
             congruence);
        try (intros text [= <-] Hne; congruence);
        try exact Hnil; try (now exists c); try discriminate.
      * apply strip_stripped.
      * intros text [= <-] _. now exists hp, h, raw.
    + (split; [|split; [|split;
                          [|rewrite calls_since_after; simpl; lia]]]);
        [exact Hnil|discriminate|intros text [= <-]; congruence].
    + (split; [|split; [|split;
                          [|rewrite calls_since_after; simpl; lia]]]);
        [exact Hnil|discriminate|intros text [= <-]; congruence].
    + (split; [|split; [|split;
                          [|rewrite calls_since_after; simpl; lia]]]);
        [exact Hnil|discriminate|intros text [= <-]; congruence].
    + (split; [|split; [|split;
                          [|rewrite calls_since_after; simpl; lia]]]);
        [now exists c|discriminate|discriminate].
  - unfold raise, attribute_error. cbn [fst snd].
    split; [exact Hnil|]. split; [discriminate|].
    split; [intros text [= <-]; congruence|].
    unfold calls_since. rewrite skipn_all. simpl. lia.
Qed.

End ExtractTextFacts.

(** ** Results of [parse_product] *)

Section ProductResultFacts.

Context {U : UnicodeData}.

Ltac run_in E :=
  match type of E with
  | (match ?x with (_, _) => _ end) = _ =>
      let o := fresh "o" in
      let w := fresh "w" in
      let Ex := fresh "Ex" in
      destruct x as [o w] eqn:Ex; destruct o; [|discriminate E]
  end.

(** The loop returns nothing but the timeout result. *)
Lemma wait_for_captcha_returned (self : OzonParser) (ticks : list Z) w d w' :
  wait_for_captcha self ticks w = (Val (Some d), w') -> d = captcha_timeout.
Proof.
  revert w. induction ticks as [|i rest IH]; intros w E; [discriminate E|].
  cbn [wait_for_captcha] in E. unfold bind in E.
  run_in E. run_in E.
  destruct (passed _).
  - run_in E. discriminate E.
  - destruct (i >=? 119); [now injection E as <- _|].
    exact (IH _ E).
Qed.

Lemma load_page_returned (self : OzonParser) (url : str) w d w' :
  load_page self url w = (Val (Some d), w') -> d = captcha_timeout.
Proof.
  unfold load_page. intros E. unfold bind in E.
  run_in E. run_in E. run_in E. run_in E.
  match goal with
  | H : (if challenged _ then _ else _) _ = (Val ?r, _) |- _ =>
      destruct r as [d0|]
  end.
  - cbn in E. injection E as <- _.
    match goal with
    | H : (if challenged ?t then _ else _) _ = _ |- _ =>
        destruct (challenged t); [|discriminate H];
        exact (wait_for_captcha_returned _ _ _ _ _ H)
    end.
  - cbn [check_content] in E. unfold bind in E.
    run_in E. run_in E. discriminate E.
Qed.

(** The record of the extraction: the ten keys in their order, then the
    numeric price if there is one. *)
Lemma extract_product_keys (self : OzonParser) (url : str) w d w' :
  extract_product self url w = (Val d, w') ->
  map fst d = product_keys
  \/ map fst d = product_keys ++ ["price_number"%string].
Proof.
  unfold extract_product. intros E. unfold bind in E.
  repeat run_in E. unfold ret in E. injection E as <- _.
  match goal with
  | H : add_price_number _ _ _ = _ |- _ =>
      apply add_price_number_result in H;
      destruct H as [_ [->|[n ->]]]
  end; [left|right]; reflexivity.
Qed.

(** X9. Whatever [parse_product] returns has one of two shapes. Either
    it is the dict with the single entry ['error'], whose text is the
    CAPTCHA timeout or the load failure with the exception's message;
    or it is the record of the page: the ten keys from ['url'] to
    ['description'] in that order, ['url'] being the URL asked for, no
    ['error'] entry, and at its end the ['price_number'] entry if there
    is one. *)
Theorem parse_product_result_shape (self : OzonParser) (url : str)
    (w w' : World) (d : dict) :
  parse_product self url w = (Val d, w') ->
  d = captcha_timeout
  \/ (exists msg, d = [("error"%string, PStr (load_failed_prefix ++ msg))])
  \/ (get "url" d = Some (PStr url)
      /\ has_key "error" d = false
      /\ (map fst d = product_keys
          \/ map fst d = product_keys ++ ["price_number"%string])).
Proof.
  unfold parse_product. intros E.
  destruct (load_page self url w) as [[[d0|]|[m|cls m|c]] w1] eqn:El.
  - injection E as <- _. left. exact (load_page_returned _ _ _ _ _ El).
  - right. right.
    destruct (extract_product_record self url w1 d w' E) as [He Hu].
    repeat split; auto. exact (extract_product_keys self url w1 d w' E).
  - right. right.
    destruct (extract_product_record self url w1 d w' E) as [He Hu].
    repeat split; auto. exact (extract_product_keys self url w1 d w' E).
  - injection E as <- _. right. left. now exists m.
  - discriminate E.
Qed.

(** X10. On a parser that was not started ([self.page] is [None])
    [parse_product] makes no call on the engine and returns the
    load-failure result: the attribute error of the first page call is
    caught like any failure of the navigation. *)
Theorem parse_product_not_started (self : OzonParser) (url : str)
    (w : World) :
  page self = None ->
  parse_product self url w
  = (Val [("error"%string,
           PStr (load_failed_prefix ++ exn_str attribute_error))], w).
Proof.
  intros Hp. unfold parse_product, load_page, page_goto, on_page, bind.
  rewrite Hp. reflexivity.
Qed.

End ProductResultFacts.

(** ** Prices that cannot be read *)

Section PriceErrorFacts.

Context {U : UnicodeData}.

(** [int] finds no digit in a string of whitespace. *)
Lemma int_all_space {S} (t : str) (s : S) :
  Forall (fun c => Py.isspace c = true) t ->
  Py.int t s
  = (Raise (PyException "ValueError" (lit "invalid literal for int()")), s).
Proof.
  intros Ht. unfold Py.int.
  assert (Hd : Py.take_while Py.isdecimal (Py.drop_while Py.int_space t)
               = []).
  { induction Ht as [|c t Hc _ IH]; [reflexivity|]. simpl.
    destruct (Py.int_space c); [exact IH|]. simpl.
    now rewrite (isspace_not_decimal c Hc). }
  rewrite Hd. reflexivity.
Qed.

Lemma remove_spaces_all_space (s : str) :
  Forall (fun c => Py.isspace c = true) s ->
  Forall (fun c => Py.isspace c = true) (Py.remove_spaces s).
Proof.
  intros Hs. unfold Py.remove_spaces. apply Forall_forall.
  intros c Hc. apply filter_In in Hc. destruct Hc as [Hc _].
  revert c Hc. now apply Forall_forall.
Qed.

Lemma _extract_text_raise_is_interrupt (self : OzonParser) selector w e w' :
  _extract_text self selector w = (Raise e, w') ->
  exists c, e = PyBaseException c.
Proof.
  unfold _extract_text.
  match goal with
  | |- context [match ?x with (_, _) => _ end] =>
      destruct x as [[[t|]|[m|cls m|c]] w1]
  end; intros [= <- _]. now exists c.
Qed.

Lemma add_price_number_no_digit {S} (data : dict) (pre gap rest : str)
    (s : S) :
  Forall (fun c => Py.digit_or_space c = false) pre ->
  gap <> [] ->
  Forall (fun c => Py.isspace c = true) gap ->
  match rest with [] => True | c :: _ => Py.digit_or_space c = false end ->
  add_price_number data (pre ++ gap ++ rest) s
  = (Raise (PyException "ValueError" (lit "invalid literal for int()")), s).
Proof.
  intros Hpre Hne Hgap Hrest. unfold add_price_number.
  destruct (pre ++ gap ++ rest) as [|c price] eqn:Eprice.
  { apply app_eq_nil in Eprice. destruct Eprice as [_ Eprice].
    apply app_eq_nil in Eprice. destruct Eprice. congruence. }
  rewrite <- Eprice, (search_first_run pre gap rest Hpre Hne);
    [|eapply Forall_impl; [|exact Hgap];
      intros a Ha; unfold Py.digit_or_space; rewrite Ha; apply orb_true_r
     |exact Hrest].
  unfold bind.
  now rewrite (int_all_space _ s (remove_spaces_all_space _ Hgap)).
Qed.

(** X11. When the first run of digits and whitespace in a price text is
    whitespace only (as in a text of several words and no digit before
    the first gap), lines 520-522 do not skip the numeric price: [int]
    is given an empty string and raises [ValueError]. Nothing catches
    it, so the extraction of a page whose price element reads like that
    returns no record: it ends in that [ValueError], unless an
    interrupt ended it before. *)
Theorem price_without_digits_raises (pre gap rest : str) :
  Forall (fun c => Py.digit_or_space c = false) pre ->
  gap <> [] ->
  Forall (fun c => Py.isspace c = true) gap ->
  match rest with [] => True | c :: _ => Py.digit_or_space c = false end ->
  let value_error :=
    PyException "ValueError" (lit "invalid literal for int()") in
  (forall S (data : dict) (s : S),
      add_price_number data (pre ++ gap ++ rest) s = (Raise value_error, s))
  /\ (forall self url w title w2 w3,
         _extract_text self Selectors.title w = (Val title, w2) ->
         _extract_text self Selectors.price w2
         = (Val (pre ++ gap ++ rest), w3) ->
         exists e w',
           extract_product self url w = (Raise e, w')
           /\ (e = value_error \/ exists c, e = PyBaseException c)).
Proof.
  intros Hpre Hne Hgap Hrest value_error. split.
  - intros S data s. now apply add_price_number_no_digit.
  - intros self url w title w2 w3 Et Ep. unfold extract_product.
    rewrite (bind_val _ _ _ _ _ Et), (bind_val _ _ _ _ _ Ep).
    repeat match goal with
      | |- context [bind (_extract_text ?sf ?sel) _ ?w0] =>
          let o := fresh "o" in
          let w1 := fresh "w" in
          let E := fresh "E" in
          destruct (_extract_text sf sel w0) as [[o|o] w1] eqn:E;
          [rewrite (bind_val _ _ _ _ _ E)
          |rewrite (bind_raise _ _ _ _ _ E);
           destruct (_extract_text_raise_is_interrupt _ _ _ _ _ E)
             as [c ->];
           eexists _, _; split; [reflexivity|right; now exists c]]
      end.
    rewrite (bind_raise _ _ _ _ _
               (add_price_number_no_digit _ pre gap rest _
                  Hpre Hne Hgap Hrest)).
    eexists _, _. split; [reflexivity|now left].
Qed.

End PriceErrorFacts.

(** ** The cost of a run *)

Lemma total_app (cost : Call -> N) (a b : list Call) :
  total cost (a ++ b) = (total cost a + total cost b)%N.
Proof.
  induction a as [|c a IH]; [reflexivity|]. simpl. rewrite IH. lia.
Qed.

Lemma total_one (calls : list Call) :
  total (fun _ => 1%N) calls = N.of_nat (length calls).
Proof.
  induction calls as [|c l IH]; [reflexivity|].
  cbn [total fold_right length]. fold (total (fun _ => 1%N) l).
  rewrite IH. lia.
Qed.

Section CostFacts.

Context {U : UnicodeData}.

Variable cost : Call -> N.

#[local] Open Scope N_scope.

Lemma costs_ret {A} (a : A) : costs cost (ret a) 0.
Proof. intros w. exists []. rewrite after_nil. split; [reflexivity|simpl; lia]. Qed.

Lemma costs_raise {A} (e : exn) : costs cost (@raise World A e) 0.
Proof. intros w. exists []. rewrite after_nil. split; [reflexivity|simpl; lia]. Qed.

Lemma costs_call {A} (c : Call) (reply : Engine -> nat -> Outcome A) :
  costs cost (call c reply) (cost c).
Proof. intros w. exists [c]. split; [reflexivity|]. simpl. lia. Qed.

Lemma costs_weaken {A} (m : M World A) (a b : N) :
  a <= b -> costs cost m a -> costs cost m b.
Proof.
  intros Hab Hm w. destruct (Hm w) as (l & E & Hl).
  exists l. split; [auto|lia].
Qed.

Lemma costs_zero {A} (m : M World A) (b : N) : costs cost m 0 -> costs cost m b.
Proof. apply costs_weaken. lia. Qed.

Lemma costs_bind {A B} (m : M World A) (k : A -> M World B) (a b : N) :
  costs cost m a -> (forall x, costs cost (k x) b) ->
  costs cost (bind m k) (a + b).
Proof.
  intros Hm Hk w. unfold bind.
  destruct (Hm w) as (l1 & E1 & H1).
  destruct (m w) as [[x|e] w1]; simpl in E1; subst w1.
  - destruct (Hk x (after w l1)) as (l2 & E2 & H2).
    exists (l1 ++ l2). rewrite E2, after_after, total_app.
    split; [auto|lia].
  - exists l1. simpl. split; [auto|lia].
Qed.

Lemma costs_on_page {A} self (c : Call)
    (reply : Engine -> nat -> Outcome A) :
  costs cost (on_page self c reply) (cost c).
Proof.
  unfold on_page. destruct (page self).
  - apply costs_call.
  - apply costs_zero, costs_raise.
Qed.

(** The cost of a wait of [ms] milliseconds, and a bound on the cost of
    any other call. *)
Variable wait_cost : Z -> N.
Variable other : N.
Hypothesis cost_wait : forall ms, cost (CWaitForTimeout ms) = wait_cost ms.
Hypothesis cost_other :
  forall c, (forall ms, c <> CWaitForTimeout ms) -> cost c <= other.

Lemma costs_wait self ms :
  costs cost (page_wait_for_timeout self ms) (wait_cost ms).
Proof. rewrite <- cost_wait. apply (costs_on_page self). Qed.

Lemma costs_other {A} self (c : Call) (reply : Engine -> nat -> Outcome A) :
  (forall ms, c <> CWaitForTimeout ms) ->
  costs cost (on_page self c reply) other.
Proof.
  intros Hc. eapply costs_weaken; [apply (cost_other c Hc)|].
  apply (costs_on_page self).
Qed.

Lemma costs_wait_for_captcha self (ticks : list Z) :
  costs cost (wait_for_captcha self ticks)
    (N.of_nat (length ticks) * (wait_cost 1000 + other) + wait_cost 2000).
Proof.
  set (tick := wait_cost 1000 + other).
  induction ticks as [|i rest IH].
  - apply costs_zero, costs_ret.
  - cbn [wait_for_captcha length].
    rewrite Nat2N.inj_succ, N.mul_succ_l.
    set (before := N.of_nat (length rest) * tick) in *.
    apply (costs_weaken _
             (wait_cost 1000 + (other + (before + wait_cost 2000))));
      [unfold tick; lia|].
    apply costs_bind; [apply costs_wait|]. intros _.
    apply costs_bind; [apply costs_other; discriminate|].
    intros text. destruct (passed text).
    + apply (costs_weaken _ (wait_cost 2000 + 0)); [lia|].
      apply costs_bind; [apply costs_wait|]. intros _. apply costs_ret.
    + destruct (i >=? 119).
      * apply costs_zero, costs_ret.
      * exact IH.
Qed.

Lemma costs_load_page self url :
  costs cost (load_page self url)
    (other + (wait_cost 5000
              + (other + ((120 * (wait_cost 1000 + other) + wait_cost 2000)
                          + (other + (other + 0)))))).
Proof.
  unfold load_page.
  apply costs_bind; [apply costs_other; discriminate|]. intros _.
  apply costs_bind; [apply costs_wait|]. intros _.
  apply costs_bind; [apply costs_other; discriminate|]. intros text.
  apply costs_bind.
  - destruct (challenged text).
    + apply (costs_wait_for_captcha self (range 120)).
    + apply costs_zero, costs_ret.
  - intros [d|]; [apply costs_zero, costs_ret|].
    unfold check_content.
    apply costs_bind; [apply costs_other; discriminate|]. intros _.
    apply costs_bind; [apply costs_other; discriminate|]. intros _.
    apply costs_ret.
Qed.

Lemma costs__extract_text self selector :
  costs cost (_extract_text self selector) (other + other).
Proof.
  intros w. unfold _extract_text.
  match goal with
  | |- context [match ?m w with _ => _ end] =>
      assert (Hm : costs cost m (other + other))
  end.
  { apply costs_bind; [apply costs_other; discriminate|].
    intros [el|]; [|apply costs_zero, costs_ret].
    apply (costs_weaken _ (other + 0)); [lia|].
    apply costs_bind; [|intros t; apply costs_ret].
    eapply costs_weaken; [apply (cost_other (CElementInnerText el))|];
      [discriminate|apply costs_call]. }
  destruct (Hm w) as (l & E & Hl). exists l.
  match goal with
  | |- context [match ?x with (_, _) => _ end] =>
      destruct x as [[[t|]|[m|c m|c]] w1]
  end; simpl in *; auto.
Qed.

Lemma costs_add_price_number data price :
  costs cost (add_price_number data price) 0.
Proof.
  unfold add_price_number. destruct price as [|c price]; [apply costs_ret|].
  destruct (Py.search_digits_spaces _); [|apply costs_ret].
  apply (costs_bind _ _ 0 0); [|intros ?; apply costs_ret].
  unfold Py.int.
  destruct (Py.int_max_str_digits <? _)%Z; [apply costs_raise|].
  destruct (Py.take_while _ _); [apply costs_raise|].
  destruct (Py.drop_while Py.int_space _); [|apply costs_raise].
  destruct (Py.digits_value _ _); [apply costs_ret|apply costs_raise].
Qed.

Lemma costs_extract_product self url :
  costs cost (extract_product self url) (18 * other + wait_cost 5000).
Proof.
  unfold extract_product.
  apply (costs_weaken _
           ((other + other)
            + ((other + other)
               + ((other + other)
                  + ((other + other)
                     + ((other + other)
                        + ((other + other)
                           + ((other + other)
                              + ((other + other)
                                 + ((other + other)
                                    + (0 + (wait_cost 5000 + 0))))))))))));
    [lia|].
  repeat (apply costs_bind; [apply costs__extract_text|]; intros ?).
  apply costs_bind; [apply costs_add_price_number|]. intros d.
  apply costs_bind; [apply costs_wait|]. intros _.
  apply costs_ret.
Qed.

Lemma costs_parse_product self url :
  costs cost (parse_product self url)
    (22 * other + 120 * (wait_cost 1000 + other)
     + wait_cost 2000 + 2 * wait_cost 5000).
Proof.
  intros w. unfold parse_product.
  destruct (costs_load_page self url w) as (l1 & E1 & H1).
  destruct (load_page self url w) as [[[d|]|[m|c m|c]] w1];
    simpl in E1; subst w1;
    try (exists l1; split; [reflexivity|lia]);
    destruct (costs_extract_product self url (after w l1))
      as (l2 & E2 & H2);
    exists (l1 ++ l2); rewrite E2, after_after, total_app;
    (split; [reflexivity|lia]).
Qed.

End CostFacts.

Section CostClaims.

Context {U : UnicodeData}.

(** X12. A run of [parse_product] is bounded, whatever the engine does:
    it makes at most 265 calls on the engine, and the waits it asks for
    add up to at most 132 seconds (the two five-second pauses, the 120
    one-second ticks and the two seconds after a passed challenge). *)
Theorem parse_product_bounded (self : OzonParser) (url : str) (w : World) :
  let calls := calls_since w (snd (parse_product self url w)) in
  (length calls <= 265)%nat
  /\ (total wait_ms calls <= 132000)%N
  /\ snd (parse_product self url w) = after w calls.
Proof.
  intros calls. subst calls.
  destruct (costs_parse_product (fun _ => 1%N) (fun _ => 1%N) 1%N
              (fun _ => eq_refl) (fun _ _ => N.le_refl 1) self url w)
    as (l1 & E1 & H1).
  destruct (costs_parse_product wait_ms (fun ms => Z.to_N ms) 0%N
              (fun _ => eq_refl)
              (fun c => match c with
                        | CWaitForTimeout ms => fun Hc =>
                            False_ind _ (Hc ms eq_refl)
                        | _ => fun _ => N.le_refl 0
                        end) self url w)
    as (l2 & E2 & H2).
  rewrite E1 in E2 |- *. rewrite calls_since_after.
  assert (l2 = l1).
  { apply (f_equal log) in E2. unfold after in E2. simpl in E2.
    now apply app_inv_head in E2. }
  subst l2. split; [|split; [|reflexivity]].
  - rewrite total_one in H1. lia.
  - lia.
Qed.

End CostClaims.

(* ================================================================== *)
(** * Properties of listings and search *)

Module ListingProps.

Import Listing.

(** ** Dicts *)

Lemma get_set_item_same (k : string) (v : PyVal) (d : dict) :
  get k (set_item k v d) = Some v.
Proof.
  induction d as [|[k' v'] d IH]; simpl.
  - now rewrite String.eqb_refl.
  - destruct (String.eqb k k') eqn:E; simpl.
    + now rewrite String.eqb_refl.
    + now rewrite E.
Qed.

Lemma get_set_item_other (k k' : string) (v : PyVal) (d : dict) :
  k <> k' -> get k (set_item k' v d) = get k d.
Proof.
  intros Hk. induction d as [|[k2 v2] d IH]; simpl.
  - apply String.eqb_neq in Hk. now rewrite Hk.
  - destruct (String.eqb k' k2) eqn:E; simpl.
    + apply String.eqb_eq in E. subst k2.
      apply String.eqb_neq in Hk. now rewrite Hk.
    + now rewrite IH.
Qed.

Lemma keys_set_item_present (k : string) (v : PyVal) (d : dict) :
  In k (map fst d) -> map fst (set_item k v d) = map fst d.
Proof.
  induction d as [|[k' v'] d IH]; simpl; [tauto|].
  destruct (String.eqb k k') eqn:E; simpl.
  - apply String.eqb_eq in E. now subst.
  - intros [->|Hin]; [now rewrite String.eqb_refl in E|].
    now rewrite IH.
Qed.

Lemma keys_set_item_absent (k : string) (v : PyVal) (d : dict) :
  ~ In k (map fst d) -> map fst (set_item k v d) = map fst d ++ [k].
Proof.
  induction d as [|[k' v'] d IH]; simpl; [reflexivity|].
  intros Hn. destruct (String.eqb k k') eqn:E; simpl.
  - apply String.eqb_eq in E. subst. tauto.
  - rewrite IH; [reflexivity|tauto].
Qed.

(** ** Calls on the engine *)

Lemma listing_after_nil (w : World) : after w [] = w.
Proof. destruct w. unfold after. simpl. now rewrite app_nil_r. Qed.

Lemma listing_after_after (w : World) (a b : list Call) :
  after (after w a) b = after w (a ++ b).
Proof. unfold after. simpl. now rewrite app_assoc. Qed.

Lemma listing_calls_since_after (w : World) (a : list Call) :
  calls_since w (after w a) = a.
Proof.
  unfold calls_since, after. simpl.
  rewrite skipn_app, skipn_all, Nat.sub_diag. reflexivity.
Qed.

(** ** One item *)

Lemma keeps_ret {A} i (a : A) : keeps i (ret a).
Proof. intros s Hs. exact Hs. Qed.

Lemma keeps_on_world {A} i (m : M World A) : keeps i (on_world m).
Proof.
  intros [d w] Hs. unfold on_world. simpl.
  destruct (m w) as [o w']. exact Hs.
Qed.

Lemma keeps_bind {A B} i (m : M ItemState A) (k : A -> M ItemState B) :
  keeps i m -> (forall a, keeps i (k a)) -> keeps i (bind m k).
Proof.
  intros Hm Hk s Hs. unfold bind. specialize (Hm s Hs).
  destruct (m s) as [[a|e] s']; simpl in *; [now apply Hk|exact Hm].
Qed.

Lemma stripped_nil : stripped [].
Proof. split; exact I. Qed.

Lemma reading_new_item (i : nat) : reading i (new_item i).
Proof.
  unfold reading, new_item. cbn.
  repeat split; eexists; (split; [reflexivity|]);
    auto using stripped_nil.
Qed.

Lemma keeps_assign_title i (t : str) :
  stripped t -> keeps i (assign "title" (PStr t)).
Proof.
  intros Ht [d w] (Hk & Hp & Htl & Hpr & Hl). unfold assign. simpl in *.
  unfold reading.
  rewrite keys_set_item_present by (rewrite Hk; simpl; tauto).
  rewrite get_set_item_same, !get_set_item_other by discriminate.
  repeat split; auto. now exists t.
Qed.

Lemma keeps_assign_price i (t : str) :
  stripped t -> keeps i (assign "price" (PStr t)).
Proof.
  intros Ht [d w] (Hk & Hp & Htl & Hpr & Hl). unfold assign. simpl in *.
  unfold reading.
  rewrite keys_set_item_present by (rewrite Hk; simpl; tauto).
  rewrite get_set_item_same, !get_set_item_other by discriminate.
  repeat split; auto. now exists t.
Qed.

Lemma keeps_assign_link i (l : str) :
  l = [] \/ startswith http l = true -> keeps i (assign "link" (PStr l)).
Proof.
  intros Ht [d w] (Hk & Hp & Htl & Hpr & Hl). unfold assign. simpl in *.
  unfold reading.
  rewrite keys_set_item_present by (rewrite Hk; simpl; tauto).
  rewrite get_set_item_same, !get_set_item_other by discriminate.
  repeat split; auto. now exists l.
Qed.

Lemma keeps_read_item i (elem : Handle) : keeps i (read_item elem).
Proof.
  unfold read_item.
  apply keeps_bind; [apply keeps_on_world|]. intros title_elem.
  apply keeps_bind.
  { destruct title_elem as [h|]; [|apply keeps_ret].
    apply keeps_bind; [apply keeps_on_world|]. intros text.
    apply keeps_assign_title, strip_stripped. }
  intros _.
  apply keeps_bind; [apply keeps_on_world|]. intros price_elem.
  apply keeps_bind.
  { destruct price_elem as [h|]; [|apply keeps_ret].
    apply keeps_bind; [apply keeps_on_world|]. intros text.
    apply keeps_assign_price, strip_stripped. }
  intros _.
  apply keeps_bind; [apply keeps_on_world|]. intros link_elem.
  destruct link_elem as [h|]; [|apply keeps_ret].
  apply keeps_bind; [apply keeps_on_world|]. intros [[|c rest]|];
    try apply keeps_ret.
  apply keeps_assign_link. right.
  destruct (startswith http (c :: rest)) eqn:E; [exact E|reflexivity].
Qed.

(** An item comes out well formed, and only an interrupt stops it. *)
Lemma parse_item_well_formed (i : nat) (elem : Handle) (w : World) :
  match fst (parse_item i elem w) with
  | Val item => well_formed_item i item
  | Raise e => exists c, e = PyBaseException c
  end.
Proof.
  unfold parse_item.
  pose proof (keeps_read_item i elem (new_item i, w) (reading_new_item i))
    as Hr.
  destruct (read_item elem (new_item i, w)) as [[[]|e] [d w']];
    simpl in Hr.
  - simpl. destruct Hr as (Hk & Hrest). split; [now left|exact Hrest].
  - assert (Herr : forall msg,
               well_formed_item i (set_item "error" (PStr msg) d)).
    { intros msg. destruct Hr as (Hk & Hp & Ht & Hpr & Hl).
      unfold well_formed_item.
      rewrite keys_set_item_absent
        by (rewrite Hk; simpl; intuition discriminate).
      rewrite !get_set_item_other by discriminate.
      rewrite Hk. repeat split; auto. }
    destruct e as [m|cls m|c]; simpl; [apply Herr|apply Herr|now exists c].
Qed.

Lemma parse_items_well_formed (i : nat) (elems : list Handle) (w : World) :
  match fst (parse_items i elems w) with
  | Val items =>
      length items = length elems /\ well_formed_items i items
  | Raise e => exists c, e = PyBaseException c
  end.
Proof.
  revert i w. induction elems as [|elem rest IH]; intros i w.
  - simpl. auto.
  - cbn [parse_items]. unfold bind.
    pose proof (parse_item_well_formed i elem w) as Hitem.
    destruct (parse_item i elem w) as [[item|e] w1]; simpl in Hitem;
      [|exact Hitem].
    specialize (IH (S i) w1).
    destruct (parse_items (S i) rest w1) as [[items|e] w2]; simpl in *;
      [|exact IH].
    destruct IH as [Hlen Hwf]. split; [now rewrite Hlen|auto].
Qed.

(** ** The listing *)

Lemma listing_on_page_run {A} (self : OzonParser) h (c : Call)
    (reply : Engine -> nat -> Outcome A) (w : World) :
  page self = Some h ->
  on_page self c reply w = (reply (engine w) (length (log w)), after w [c]).
Proof. intros Hp. unfold on_page. now rewrite Hp. Qed.

Lemma find_items_outcome (self : OzonParser) (limit : Z) (w : World) :
  match fst (find_items self limit w) with
  | Val items => well_formed_items 0 items
  | Raise _ => True
  end.
Proof.
  unfold find_items, bind.
  destruct (on_page self _ _ w) as [[elems|e] w1]; simpl; [|exact I].
  pose proof (parse_items_well_formed 0 (slice_to limit elems) w1) as H.
  destruct (parse_items 0 (slice_to limit elems) w1) as [[items|e] w2];
    simpl in *; [tauto|exact I].
Qed.

Lemma find_items_failed (self : OzonParser) h (limit : Z) (w : World) e :
  page self = Some h ->
  query_selectors_all_reply (engine w) (length (log w)) Selectors.items
  = Raise e ->
  find_items self limit w
  = (Raise e, after w [CQuerySelectorsAll Selectors.items]).
Proof.
  intros Hp Hq. unfold find_items.
  rewrite (bind_raise _ _ w e
             (after w [CQuerySelectorsAll Selectors.items]));
    [reflexivity|].
  now rewrite (listing_on_page_run self h _ _ w Hp), Hq.
Qed.

Lemma parse_listing_found (self : OzonParser) url limit w :
  fst (load_listing self url w) = Val tt
  \/ (exists msg, fst (load_listing self url w)
                  = Raise (PlaywrightTimeoutError msg)) ->
  parse_listing self url limit w
  = found self limit (snd (load_listing self url w)).
Proof.
  unfold parse_listing, found.
  destruct (load_listing self url w) as [[[]|[m|cls m|c]] w1]; simpl;
    intros [H|[msg H]]; try discriminate H; reflexivity.
Qed.

(** X13. [parse_listing] never fails with an exception of the program's
    own kind: whatever the engine does, it returns a list, and only an
    interrupt from outside passes through it. The list is either the
    single dict with the entry ['error'], or the items: each has the
    keys of line 562 in their order (and ['error'] after them if
    reading it failed), its position is its place in the list counted
    from 1, its title and price have no whitespace at either end, and
    its link is empty or starts with [http]. *)
Theorem parse_listing_result_shape (self : OzonParser) (url : str)
    (limit : Z) (w : World) :
  match fst (parse_listing self url limit w) with
  | Val items =>
      (exists msg, items = [[("error"%string, PStr msg)]])
      \/ well_formed_items 0 items
  | Raise e => exists c, e = PyBaseException c
  end.
Proof.
  assert (Hfound : forall w1,
             match fst (found self limit w1) with
             | Val items =>
                 (exists msg, items = [[("error"%string, PStr msg)]])
                 \/ well_formed_items 0 items
             | Raise e => exists c, e = PyBaseException c
             end).
  { intros w1. unfold found.
    pose proof (find_items_outcome self limit w1) as H.
    destruct (find_items self limit w1) as [[items|[m|cls m|c]] w2];
      simpl in *; [now right|left; eauto|left; eauto|now exists c]. }
  unfold parse_listing. fold (found self limit).
  destruct (load_listing self url w) as [[[]|[m|cls m|c]] w1]; simpl.
  - apply Hfound.
  - apply Hfound.
  - left. eauto.
  - now exists c.
Qed.

(** X15. The three ways a listing fails, each with the single dict
    ['error'] as its result: on a parser that was not started, without
    a call on the engine; on a navigation that raises anything but the
    timeout, with no search for items; and when the search for the
    items raises (as it does when the page has no method
    [query_selectors_all]), with the text of that exception. *)
Theorem parse_listing_failures (self : OzonParser) (url : str) (limit : Z)
    (w : World) :
  (page self = None ->
   parse_listing self url limit w
   = (Val [[("error"%string,
             PStr (load_failed_prefix ++ exn_str attribute_error))]], w))
  /\ (forall h cls msg,
         page self = Some h ->
         goto_reply (engine w) (length (log w)) url
         = Raise (PyException cls msg) ->
         parse_listing self url limit w
         = (Val [[("error"%string, PStr (load_failed_prefix ++ msg))]],
            after w [CGoto url]))
  /\ (forall h e,
         let w1 := snd (load_listing self url w) in
         page self = Some h ->
         fst (load_listing self url w) = Val tt
         \/ (exists msg, fst (load_listing self url w)
                         = Raise (PlaywrightTimeoutError msg)) ->
         query_selectors_all_reply (engine w1) (length (log w1))
           Selectors.items = Raise e ->
         (forall c, e <> PyBaseException c) ->
         parse_listing self url limit w
         = (Val [[("error"%string, PStr (not_found_prefix ++ exn_str e))]],
            after w1 [CQuerySelectorsAll Selectors.items])).
Proof.
  split; [|split].
  - intros Hp. unfold parse_listing, load_listing, on_page, bind.
    rewrite Hp. reflexivity.
  - intros h cls msg Hp Hg. unfold parse_listing, load_listing, bind.
    rewrite (listing_on_page_run self h _ _ w Hp), Hg. reflexivity.
  - intros h e w1 Hp Hload Hq He.
    rewrite (parse_listing_found self url limit w Hload). fold w1.
    unfold found. rewrite (find_items_failed self h limit w1 e Hp Hq).
    destruct e as [m|cls m|c]; try reflexivity.
    now destruct (He c).
Qed.

End ListingProps.

(** ** The search address *)

Module SearchProps.

Import Listing.

Ltac Zify.zify_post_hook ::= Z.to_euclidean_division_equations.

#[local] Open Scope N_scope.

Ltac decide_ltb :=
  repeat match goal with
    | |- context [N.ltb ?a ?b] =>
        destruct (N.ltb_spec a b); try lia
    end.

Lemma utf8_encode_none (c : N) :
  utf8_encode c = None <-> (55296 <= c <= 57343 \/ 1114112 <= c).
Proof.
  unfold utf8_encode.
  destruct (N.ltb_spec c 128); [split; [discriminate|lia]|].
  destruct (N.ltb_spec c 2048); [split; [discriminate|lia]|].
  destruct (N.ltb_spec c 65536).
  - destruct (N.leb_spec 55296 c); destruct (N.leb_spec c 57343); simpl;
      split; try discriminate; try lia; auto.
  - destruct (N.ltb_spec c 1114112); split; try discriminate; try lia; auto.
Qed.

Lemma some_inj {A} (a b : A) : Some a = Some b -> a = b.
Proof. congruence. Qed.

Lemma utf8_encode_bytes (c : N) (bs : list N) :
  utf8_encode c = Some bs -> Forall (fun b => b < 256) bs.
Proof.
  unfold utf8_encode.
  destruct (N.ltb_spec c 128);
    [intros E%some_inj; subst bs;
     repeat (apply Forall_cons; [lia|]); apply Forall_nil|].
  destruct (N.ltb_spec c 2048);
    [intros E%some_inj; subst bs;
     repeat (apply Forall_cons; [lia|]); apply Forall_nil|].
  destruct (N.ltb_spec c 65536).
  - destruct ((55296 <=? c) && (c <=? 57343)); [discriminate|].
    intros E%some_inj; subst bs.
    repeat (apply Forall_cons; [lia|]); apply Forall_nil.
  - destruct (N.ltb_spec c 1114112); [|discriminate].
    intros E%some_inj; subst bs.
    repeat (apply Forall_cons; [lia|]); apply Forall_nil.
Qed.

(** The decoder of the literals reads back what the encoder writes. *)
Lemma utf8_encode_decode (c : N) (bs rest : list N) :
  utf8_encode c = Some bs -> Str.utf8 (bs ++ rest) = c :: Str.utf8 rest.
Proof.
  unfold utf8_encode.
  destruct (N.ltb_spec c 128) as [H1|H1].
  { intros E%some_inj; subst bs. cbn [app Str.utf8]. decide_ltb.
    reflexivity. }
  destruct (N.ltb_spec c 2048) as [H2|H2].
  { intros E%some_inj; subst bs. cbn [app Str.utf8]. decide_ltb.
    f_equal. lia. }
  destruct (N.ltb_spec c 65536) as [H3|H3].
  { destruct ((55296 <=? c) && (c <=? 57343)); [discriminate|].
    intros E%some_inj; subst bs. cbn [app Str.utf8]. decide_ltb.
    f_equal. lia. }
  destruct (N.ltb_spec c 1114112) as [H4|H4]; [|discriminate].
  intros E%some_inj; subst bs. cbn [app Str.utf8]. decide_ltb.
  f_equal. lia.
Qed.

Lemma encode_bytes (s : str) (bs : list N) :
  encode s = Some bs -> Forall (fun b => b < 256) bs.
Proof.
  revert bs. induction s as [|c s IH]; intros bs; simpl.
  - intros [= <-]. constructor.
  - destruct (utf8_encode c) as [b1|] eqn:E1; [|discriminate].
    destruct (encode s) as [b2|]; [|discriminate].
    intros [= <-]. apply Forall_app. split.
    + exact (utf8_encode_bytes c b1 E1).
    + now apply IH.
Qed.

Lemma encode_decode (s : str) (bs : list N) :
  encode s = Some bs -> Str.utf8 bs = s.
Proof.
  revert bs. induction s as [|c s IH]; intros bs; simpl.
  - now intros [= <-].
  - destruct (utf8_encode c) as [b1|] eqn:E1; [|discriminate].
    destruct (encode s) as [b2|]; [|discriminate].
    intros [= <-]. rewrite (utf8_encode_decode c b1 b2 E1).
    f_equal. now apply IH.
Qed.

Lemma encode_none (s : str) :
  encode s = None <-> Exists (fun c => utf8_encode c = None) s.
Proof.
  induction s as [|c s IH]; simpl.
  - split; [discriminate|]. intros H. inversion H.
  - destruct (utf8_encode c) as [b1|] eqn:E1.
    + destruct (encode s) as [b2|].
      * split; [discriminate|]. intros H. inversion H; subst.
        -- congruence.
        -- apply IH in H1. discriminate.
      * split; [|reflexivity]. intros _. right. now apply IH.
    + split; [|reflexivity]. intros _. now left.
Qed.

Ltac bool_facts :=
  repeat match goal with
    | H : _ || _ = true |- _ => apply orb_true_iff in H
    | H : _ || _ = false |- _ => apply orb_false_iff in H
    | H : _ && _ = true |- _ => apply andb_true_iff in H
    | H : _ && _ = false |- _ => apply andb_false_iff in H
    | H : _ /\ _ |- _ => destruct H
    | H : (_ <=? _) = true |- _ => apply N.leb_le in H
    | H : (_ <=? _) = false |- _ => apply N.leb_gt in H
    | H : (_ =? _) = true |- _ => apply N.eqb_eq in H
    | H : (_ =? _) = false |- _ => apply N.eqb_neq in H
    | H : (_ <? _) = true |- _ => apply N.ltb_lt in H
    | H : (_ <? _) = false |- _ => apply N.ltb_ge in H
    end.

Lemma hex_digit_safe (n : N) : n < 16 -> always_safe (hex_digit n) = true.
Proof.
  intros Hn. unfold hex_digit, always_safe.
  destruct (n <? 10) eqn:E; bool_facts.
  - replace ((48 <=? 48 + n) && (48 + n <=? 57)) with true;
      [now rewrite !orb_true_r|].
    symmetry. apply andb_true_iff. split; apply N.leb_le; lia.
  - replace ((65 <=? 55 + n) && (55 + n <=? 90)) with true; [reflexivity|].
    symmetry. apply andb_true_iff. split; apply N.leb_le; lia.
Qed.

Lemma hex_value_digit (n : N) : n < 16 -> hex_value (hex_digit n) = n.
Proof.
  intros Hn. unfold hex_digit, hex_value.
  destruct (n <? 10) eqn:E; bool_facts.
  - replace ((48 <=? 48 + n) && (48 + n <=? 57)) with true; [lia|].
    symmetry. apply andb_true_iff. split; apply N.leb_le; lia.
  - replace ((48 <=? 55 + n) && (55 + n <=? 57)) with false.
    + replace ((65 <=? 55 + n) && (55 + n <=? 70)) with true; [lia|].
      symmetry. apply andb_true_iff. split; apply N.leb_le; lia.
    + symmetry. apply andb_false_iff. right. apply N.leb_gt. lia.
Qed.

Lemma always_safe_plain (b : N) :
  always_safe b = true -> b <> 43 /\ b <> 37.
Proof.
  unfold always_safe. intros H.
  repeat (bool_facts; match goal with H : _ \/ _ |- _ => destruct H end);
    bool_facts; lia.
Qed.

Lemma quote_byte_safe (b : N) :
  b < 256 -> Forall (fun c => url_safe c = true) (quote_byte b).
Proof.
  intros Hb. unfold quote_byte, url_safe.
  destruct (always_safe b) eqn:Es.
  - repeat constructor. now rewrite Es.
  - destruct (b =? 32); repeat constructor.
    + rewrite hex_digit_safe by lia. reflexivity.
    + rewrite hex_digit_safe by lia. reflexivity.
Qed.

Lemma unquote_quote_byte (b : N) (rest : str) :
  b < 256 ->
  unquote_plus (quote_byte b ++ rest) = b :: unquote_plus rest.
Proof.
  intros Hb. unfold quote_byte.
  destruct (always_safe b) eqn:Es.
  - destruct (always_safe_plain b Es) as [H1 H2].
    apply N.eqb_neq in H1, H2. cbn [app unquote_plus].
    now rewrite H1, H2.
  - destruct (b =? 32) eqn:E32.
    + apply N.eqb_eq in E32. subst b. reflexivity.
    + cbn [app unquote_plus]. cbn [N.eqb Pos.eqb].
      rewrite !hex_value_digit by lia. f_equal. lia.
Qed.

Lemma unquote_quote (bs : list N) :
  Forall (fun b => b < 256) bs ->
  unquote_plus (flat_map quote_byte bs) = bs.
Proof.
  induction 1 as [|b bs Hb _ IH]; [reflexivity|].
  cbn [flat_map]. now rewrite (unquote_quote_byte b _ Hb), IH.
Qed.

Lemma quote_safe (bs : list N) :
  Forall (fun b => b < 256) bs ->
  Forall (fun c => url_safe c = true) (flat_map quote_byte bs).
Proof.
  induction 1 as [|b bs Hb _ IH]; [constructor|].
  cbn [flat_map]. apply Forall_app. split; [now apply quote_byte_safe|exact IH].
Qed.

(** X16. The address [search] asks for is the fixed search address
    followed by [text=] and the escaped query, which holds nothing but
    letters, digits, [_.-~], [+] and [%]: whatever the query, it cannot
    add a parameter or leave the query string. The one query that
    cannot be escaped is one with a surrogate code point; [search] then
    raises [UnicodeEncodeError] before any call on the engine. *)
Theorem search_address_is_escaped (self : OzonParser) (query : str)
    (limit : Z) (w : World) :
  (forall q,
      quote_plus query = Some q ->
      Forall (fun c => url_safe c = true) q
      /\ search self query limit w
         = parse_listing self (search_prefix ++ lit "text" ++ [61] ++ q)
             limit w)
  /\ (quote_plus query = None <->
      Exists (fun c => 55296 <= c <= 57343 \/ 1114112 <= c) query)
  /\ (quote_plus query = None ->
      search self query limit w
      = (Raise (PyException "UnicodeEncodeError"
                  (lit "surrogates not allowed")), w)).
Proof.
  split; [|split].
  - intros q Hq. unfold search, urlencode_text. rewrite Hq.
    split; [|reflexivity].
    unfold quote_plus in Hq.
    destruct (encode query) as [bs|] eqn:E; [|discriminate].
    injection Hq as <-. apply quote_safe. exact (encode_bytes query bs E).
  - unfold quote_plus.
    destruct (encode query) as [bs|] eqn:E.
    + split; [discriminate|]. intros Hex.
      assert (Hn : encode query = None).
      { apply encode_none. eapply Exists_impl; [|exact Hex].
        intros c Hc. now apply utf8_encode_none. }
      congruence.
    + split; [|reflexivity]. intros _.
      apply encode_none in E. eapply Exists_impl; [|exact E].
      intros c Hc. now apply utf8_encode_none.
  - intros Hq. unfold search, urlencode_text. now rewrite Hq.
Qed.

(** X17. The escaping loses nothing: unescaping the escaped query and
    decoding the bytes gives the query back, so two different queries
    never lead to the same search address. *)
Theorem search_query_round_trip (query : str) (q : str) :
  quote_plus query = Some q ->
  Str.utf8 (unquote_plus q) = query
  /\ (forall query' params,
         urlencode_text query = Some params ->
         urlencode_text query' = Some params ->
         query' = query).
Proof.
  assert (Hround : forall s e, quote_plus s = Some e ->
                               Str.utf8 (unquote_plus e) = s).
  { intros s e. unfold quote_plus.
    destruct (encode s) as [bs|] eqn:E; [|discriminate].
    intros [= <-]. rewrite (unquote_quote bs (encode_bytes s bs E)).
    exact (encode_decode s bs E). }
  intros Hq. split; [exact (Hround query q Hq)|].
  intros query' params. unfold urlencode_text. rewrite Hq.
  destruct (quote_plus query') as [q'|] eqn:Hq'; [|discriminate].
  intros E1%some_inj E2%some_inj. subst params.
  apply app_inv_head in E2. apply app_inv_head in E2. subst q'.
  now rewrite <- (Hround query' q Hq'), (Hround query q Hq).
Qed.

End SearchProps.

(* ================================================================== *)
(** * Further worked runs *)

Module MoreRuns.

Import Examples.

#[local] Existing Instance Lcg.source.
#[local] Existing Instance BasicUnicode.tables.

(** Yekaterinburg with a [MacIntel] draw: the zone becomes
    Europe/Moscow and stays a Russian zone. *)
Lemma fingerprint_timezone_kept_witness :
  exists fp r',
    generate_random_fingerprint true
      (IpApiResponse 200 (Some (JString (lit "Asia/Yekaterinburg")))) 4
    = (Val fp, r')
    /\ (timezone fp = JString (lit "Asia/Yekaterinburg")
        \/ timezone fp = JString Lit.Europe_Moscow)
    /\ (platform (navigator fp) <> Lit.MacIntel ->
        timezone fp = JString (lit "Asia/Yekaterinburg"))
    /\ is_russian_tz (timezone fp)
       = is_russian_tz (JString (lit "Asia/Yekaterinburg"))
    /\ (true = false -> timezone fp = JString Lit.Europe_Moscow).
Proof.
  apply (fingerprint_timezone_kept true
           (IpApiResponse 200 (Some (JString (lit "Asia/Yekaterinburg"))))
           (JString (lit "Asia/Yekaterinburg")) true 4);
    reflexivity.
Defined.

(** A lookup answered with status 503. *)
Lemma lookup_failure_falls_back_to_moscow_witness :
  exists fp r',
    generate_random_fingerprint true
      (IpApiResponse 503 (Some (JString (lit "Asia/Tokyo")))) 1
    = (Val fp, r')
    /\ timezone fp = JString Lit.Europe_Moscow
    /\ fst (choice
              [Lit.Win32; Lit.Win32; Lit.Win32; Lit.MacIntel;
               Lit.Linux_x86_64] (before_platform 1))
       = Val (platform (navigator fp))
    /\ (platform (navigator fp) = Lit.Win32 <->
        fst (randbelow (before_platform 1) 5) < 3).
Proof.
  apply (lookup_failure_falls_back_to_moscow
           (IpApiResponse 503 (Some (JString (lit "Asia/Tokyo")))) 1).
  right. right. left. exists 503, (Some (JString (lit "Asia/Tokyo"))).
  split; [reflexivity|discriminate].
Defined.

(** A [Win32] platform with a Macintosh user agent. *)
Lemma user_agent_independent_of_platform_witness :
  exists (r : list Z) fp r',
    generate_random_fingerprint (H := Replay.source) false
      (IpApiResponse 200 None) r = (Val fp, r')
    /\ platform (navigator fp) = Lit.Win32
    /\ user_agent fp
       = lit "Mozilla/5.0 (Macintosh; Intel Mac OS X 10_15_7) AppleWebKit/537.36 (KHTML, like Gecko) Chrome/120.0.0.0 Safari/537.36".
Proof.
  apply (user_agent_independent_of_platform false (IpApiResponse 200 None)
           (JString Lit.Europe_Moscow) true).
  - reflexivity.
  - reflexivity.
  - left. reflexivity.
  - do 3 right. left. reflexivity.
Defined.

(** Nothing started, nothing closed. *)
Lemma stop_calls_are_a_prefix_witness :
  stop MoreExamples.not_started (fresh page_close_fails)
  = (Val tt, fresh page_close_fails).
Proof.
  apply (proj2 (stop_calls_are_a_prefix MoreExamples.not_started
                  (fresh page_close_fails)));
    reflexivity.
Defined.

(** A CAPTCHA page that never goes away ends in the timeout result. *)
Lemma parse_product_result_shape_witness :
  captcha_timeout = captcha_timeout
  \/ (exists msg,
         captcha_timeout
         = [("error"%string, PStr (load_failed_prefix ++ msg))])
  \/ (get "url" captcha_timeout = Some (PStr product_url)
      /\ has_key "error" captcha_timeout = false
      /\ (map fst captcha_timeout = product_keys
          \/ map fst captcha_timeout
             = product_keys ++ ["price_number"%string])).
Proof.
  apply (parse_product_result_shape started product_url
           (fresh (showing captcha))
           (snd (parse_product started product_url
                   (fresh (showing captcha))))
           captcha_timeout).
  vm_compute. reflexivity.
Defined.

Lemma parse_product_not_started_witness :
  parse_product MoreExamples.not_started product_url (fresh (showing []))
  = (Val [("error"%string,
           PStr (load_failed_prefix ++ exn_str attribute_error))],
     fresh (showing [])).
Proof.
  apply (parse_product_not_started MoreExamples.not_started product_url
           (fresh (showing []))).
  reflexivity.
Defined.

(** A price element that reads "Нет в наличии". *)
Lemma price_without_digits_raises_witness :
  add_price_number [] (lit "Нет в наличии") tt
  = (Raise (PyException "ValueError" (lit "invalid literal for int()")), tt).
Proof.
  assert (Hpre : Forall (fun c => Py.digit_or_space c = false) (lit "Нет"))
    by (repeat (apply Forall_cons; [reflexivity|]); apply Forall_nil).
  assert (Hgap : Forall (fun c => Py.isspace c = true) (lit " "))
    by (repeat (apply Forall_cons; [reflexivity|]); apply Forall_nil).
  assert (Hne : lit " " <> []) by discriminate.
  assert (Hrest : match lit "в наличии" with
                  | [] => True
                  | c :: _ => Py.digit_or_space c = false
                  end) by reflexivity.
  exact (proj1 (price_without_digits_raises
                  (lit "Нет") (lit " ") (lit "в наличии")
                  Hpre Hne Hgap Hrest)
           unit [] tt).
Defined.

(** The three failures of a listing. *)
Lemma parse_listing_failures_witness :
  Listing.parse_listing MoreExamples.not_started MoreExamples.category_url 20
    (MoreExamples.fresh MoreExamples.no_such_method)
  = (Val [[("error"%string,
            PStr (load_failed_prefix ++ exn_str attribute_error))]],
     MoreExamples.fresh MoreExamples.no_such_method)
  /\ Listing.parse_listing started MoreExamples.category_url 20
       (MoreExamples.fresh MoreExamples.refusing)
     = (Val [[("error"%string,
               PStr (load_failed_prefix
                     ++ lit "net::ERR_CONNECTION_REFUSED"))]],
        Listing.after (MoreExamples.fresh MoreExamples.refusing)
          [Listing.CGoto MoreExamples.category_url])
  /\ Listing.parse_listing started MoreExamples.category_url 20
       (MoreExamples.fresh MoreExamples.no_such_method)
     = (Val [[("error"%string,
               PStr (Listing.not_found_prefix
                     ++ exn_str
                          (PyException "AttributeError"
                             (lit "'Page' object has no attribute 'query_selectors_all'"))))]],
        Listing.after
          (snd (Listing.load_listing started MoreExamples.category_url
                  (MoreExamples.fresh MoreExamples.no_such_method)))
          [Listing.CQuerySelectorsAll Listing.Selectors.items]).
Proof.
  split; [|split].
  - apply (proj1 (ListingProps.parse_listing_failures
                    MoreExamples.not_started MoreExamples.category_url 20
                    (MoreExamples.fresh MoreExamples.no_such_method))).
    reflexivity.
  - apply (proj1 (proj2 (ListingProps.parse_listing_failures
                           started MoreExamples.category_url 20
                           (MoreExamples.fresh MoreExamples.refusing)))
             2%nat "Error"%string (lit "net::ERR_CONNECTION_REFUSED"));
      reflexivity.
  - apply (proj2 (proj2 (ListingProps.parse_listing_failures
                           started MoreExamples.category_url 20
                           (MoreExamples.fresh MoreExamples.no_such_method)))
             2%nat
             (PyException "AttributeError"
                (lit "'Page' object has no attribute 'query_selectors_all'"))).
    + reflexivity.
    + left. reflexivity.
    + reflexivity.
    + discriminate.
Defined.

(** A query in Russian, and a query with a lone surrogate. *)
Lemma search_address_is_escaped_witness :
  (Forall (fun c => Listing.url_safe c = true)
     (lit "%D1%84%D1%83%D1%82%D0%B1%D0%BE%D0%BB%D0%BA%D0%B8+a%26b")
   /\ Listing.search started (lit "футболки a&b") 10
        (MoreExamples.fresh MoreExamples.no_such_method)
      = Listing.parse_listing started
          (Listing.search_prefix ++ lit "text" ++ [61%N]
           ++ lit "%D1%84%D1%83%D1%82%D0%B1%D0%BE%D0%BB%D0%BA%D0%B8+a%26b")
          10 (MoreExamples.fresh MoreExamples.no_such_method))
  /\ Listing.search started [102%N; 56320%N] 10
       (MoreExamples.fresh MoreExamples.no_such_method)
     = (Raise (PyException "UnicodeEncodeError"
                 (lit "surrogates not allowed")),
        MoreExamples.fresh MoreExamples.no_such_method).
Proof.
  split.
  - apply (proj1 (SearchProps.search_address_is_escaped started
                    (lit "футболки a&b") 10
                    (MoreExamples.fresh MoreExamples.no_such_method))).
    reflexivity.
  - apply (proj2 (proj2 (SearchProps.search_address_is_escaped started
                           [102%N; 56320%N] 10
                           (MoreExamples.fresh MoreExamples.no_such_method)))).
    reflexivity.
Defined.

Lemma search_query_round_trip_witness :
  Str.utf8
    (Listing.unquote_plus
       (lit "%D1%84%D1%83%D1%82%D0%B1%D0%BE%D0%BB%D0%BA%D0%B8+a%26b"))
  = lit "футболки a&b"
  /\ (forall query' params,
         Listing.urlencode_text (lit "футболки a&b") = Some params ->
         Listing.urlencode_text query' = Some params ->
         query' = lit "футболки a&b").
Proof.
  apply (SearchProps.search_query_round_trip (lit "футболки a&b")
           (lit "%D1%84%D1%83%D1%82%D0%B1%D0%BE%D0%BB%D0%BA%D0%B8+a%26b")).
  reflexivity.
Defined.

End MoreRuns.

(* ================================================================== *)
(** * Properties of the session *)

Module SessionProps.

Import Session.

Section WithRandom.

Context {R : Type} `{RandomSource R}.
Context {U : UnicodeData}.

#[local] Abbreviation Proc := (@Process R).

Ltac unfold_session :=
  unfold start, init, bind, in_rng, in_world, in_listing, launch, emit,
    set_self, ret, raise;
  cbn [rng launcher launched world listing files put self].

(** X18. When the lookup gives a timezone line 94 can classify and the
    browser comes up, [start] makes these five calls and no other on
    the browser: the driver is started, the browser launched, the page
    opened with the user agent, the viewport and the timezone of the
    fingerprint generated and locale ru-RU, the init script of that
    same fingerprint added, and the default timeout set. It leaves the
    three objects in the parser, and ends with one wait on the page, of
    2000 to 4000 ms; that wait's outcome is the outcome of [start]. *)
Theorem start_brings_the_browser_up (headless : bool) (timeout : Z)
    (reply : IpApiReply) (tz : Json) (ru : bool) (p : Proc)
    (pw br pg : Handle) :
  let n := length (launched p) in
  initial_timezone true reply = Val tz ->
  is_russian_tz tz = Val ru ->
  start_reply (launcher p) n = Val pw ->
  launch_reply (launcher p) (n + 1) = Val br ->
  new_page_reply (launcher p) (n + 2) = Val pg ->
  add_init_script_reply (launcher p) (n + 3) = Val tt ->
  set_default_timeout_reply (launcher p) (n + 4) = Val tt ->
  exists fp ms,
    let p' := snd (start headless timeout reply p) in
    fst (generate_random_fingerprint true reply (rng p)) = Val fp
    /\ launched p'
       = launched p
         ++ [ CStartPlaywright;
              CLaunch headless launch_args;
              CNewPage (user_agent fp) (width (screen fp))
                (height (screen fp) - 40) Lit.ru_RU (timezone fp);
              CAddInitScript fp;
              CSetDefaultTimeout timeout ]
    /\ self p' = {| playwright := Some pw; browser := Some br;
                    page := Some pg |}
    /\ 2000 <= ms <= 4000
    /\ world p' = after (world p) [CWaitForTimeout ms]
    /\ fst (start headless timeout reply p)
       = wait_reply (engine (world p)) (length (log (world p))) ms
    /\ listing p' = listing p /\ put p' = put p.
Proof.
  intros n Htz Hru Hs Hl Hn Ha Hd.
  destruct p as [r0 la ld w0 li fi pu se].
  cbn [rng launcher launched world listing files put self] in *.
  destruct (generate_random_fingerprint_run true reply tz ru r0 Htz Hru)
    as (cores & mem & w & h & dw & dh & pl & ua & touch & r1 & Hrest).
  destruct Hrest as (_ & _ & _ & _ & _ & _ & _ & _ & _ & E).
  match type of E with _ = (Val ?f, _) => set (fp := f) in * end.
  destruct (randint_spec 2000 4000 r1) as (ms & r2 & Hms & Er); [lia|].
  exists fp, ms.
  assert (Hn1 : length (ld ++ [CStartPlaywright]) = (n + 1)%nat)
    by (rewrite length_app; reflexivity).
  assert (Hn2 : forall c1 c2 : Session.Call,
             length ((ld ++ [c1]) ++ [c2]) = (n + 2)%nat)
    by (intros; rewrite !length_app; simpl; fold n; lia).
  assert (Hn3 : forall c1 c2 c3 : Session.Call,
             length (((ld ++ [c1]) ++ [c2]) ++ [c3]) = (n + 3)%nat)
    by (intros; rewrite !length_app; simpl; fold n; lia).
  assert (Hn4 : forall c1 c2 c3 c4 : Session.Call,
             length ((((ld ++ [c1]) ++ [c2]) ++ [c3]) ++ [c4]) = (n + 4)%nat)
    by (intros; rewrite !length_app; simpl; fold n; lia).
  cbv beta iota zeta
    delta [start bind in_rng in_world launch set_self ret
           rng launcher launched world listing files put self
           playwright browser page fst snd].
  rewrite E. fold n.
  cbv beta iota
    delta [rng launcher launched world listing files put self
           playwright browser page fst snd].
  rewrite Hs, Hn1, Hl, Hn2, Hn, Hn3, Ha, Hn4, Hd, Er.
  unfold page_wait_for_timeout, on_page. cbn [page].
  rewrite call_run. cbn [fst snd engine log].
  rewrite <- !app_assoc. repeat split; auto; lia.
Qed.

(** ** What a step keeps *)

Lemma preserves_ret {A} (I : Proc -> Prop) (a : A) : preserves I (ret a).
Proof. intros p Hp. exact Hp. Qed.

Lemma preserves_bind {A B} (I : Proc -> Prop) (m : M Proc A)
    (k : A -> M Proc B) :
  preserves I m -> (forall a, preserves I (k a)) -> preserves I (bind m k).
Proof.
  intros Hm Hk p Hp. unfold bind. specialize (Hm p Hp).
  destruct (m p) as [[a|e] p1]; simpl in *; [now apply Hk|exact Hm].
Qed.

Lemma in_rng_state {A} (m : M R A) (p : Proc) :
  let p' := snd (in_rng m p) in
  launcher p' = launcher p /\ launched p' = launched p
  /\ world p' = world p /\ listing p' = listing p
  /\ files p' = files p /\ put p' = put p /\ self p' = self p.
Proof. unfold in_rng. destruct (m (rng p)). simpl. tauto. Qed.

Lemma launch_state {A} (c : Session.Call)
    (reply : Launcher -> nat -> Outcome A) (p : Proc) :
  let p' := snd (launch c reply p) in
  world p' = world p /\ listing p' = listing p
  /\ put p' = put p /\ self p' = self p.
Proof. simpl. tauto. Qed.

Lemma only_waited_refl (p : Proc) : only_waited p p.
Proof.
  exists []. rewrite after_nil. repeat split; auto.
Qed.

Lemma only_waited_in_rng {A} (p0 : Proc) (m : M R A) :
  preserves (only_waited p0) (in_rng m).
Proof.
  intros p (l & Hw & Hl & Hli & Hp).
  destruct (in_rng_state m p) as (_ & _ & Ew & Eli & _ & Ep & _).
  exists l. rewrite Ew, Eli, Ep. auto.
Qed.

Lemma only_waited_launch {A} (p0 : Proc) (c : Session.Call)
    (reply : Launcher -> nat -> Outcome A) :
  preserves (only_waited p0) (launch c reply).
Proof. intros p (l & Hw & Hl & Hli & Hp). exists l. simpl. auto. Qed.

Lemma only_waited_set_self (p0 : Proc) (s : OzonParser -> OzonParser) :
  preserves (only_waited p0) (set_self s).
Proof. intros p (l & Hw & Hl & Hli & Hp). exists l. simpl. auto. Qed.

Lemma only_waited_wait (p0 : Proc) (ms : Z) :
  preserves (only_waited p0)
    (in_world (fun self => page_wait_for_timeout self ms)).
Proof.
  intros p (l & Hw & Hl & Hli & Hp).
  unfold in_world, page_wait_for_timeout, on_page.
  destruct (page (self p)).
  - rewrite call_run. cbn [snd]. exists (l ++ [CWaitForTimeout ms]).
    cbn [world listing put]. rewrite Hw, after_after. repeat split; auto.
    apply Forall_app. split; [exact Hl|].
    constructor; [now exists ms|constructor].
  - exists l. cbn. auto.
Qed.

Lemma only_waited_start (p0 : Proc) headless timeout reply :
  preserves (only_waited p0) (start headless timeout reply).
Proof.
  unfold start.
  apply preserves_bind; [apply only_waited_in_rng|]. intros fp.
  apply preserves_bind; [apply only_waited_launch|]. intros pw.
  apply preserves_bind; [apply only_waited_set_self|]. intros _.
  apply preserves_bind; [apply only_waited_launch|]. intros br.
  apply preserves_bind; [apply only_waited_set_self|]. intros _.
  apply preserves_bind; [apply only_waited_launch|]. intros pg.
  apply preserves_bind; [apply only_waited_set_self|]. intros _.
  apply preserves_bind; [apply only_waited_launch|]. intros _.
  apply preserves_bind; [apply only_waited_launch|]. intros _.
  apply preserves_bind; [apply only_waited_in_rng|]. intros ms.
  apply only_waited_wait.
Qed.

Lemma only_waited_init_start (p : Proc) seed headless timeout reply :
  only_waited p (snd ((init seed ;;; start headless timeout reply) p)).
Proof.
  apply (preserves_bind (only_waited p)); [|intros _; apply only_waited_start
                                           |apply only_waited_refl].
  unfold init.
  apply preserves_bind; [apply only_waited_in_rng|]. intros _.
  apply only_waited_set_self.
Qed.

Lemma holds_driver_step {A} pw (m : M Proc A) :
  (forall p, self (snd (m p)) = self p) -> preserves (holds_driver pw) m.
Proof. intros Hm p Hp. unfold holds_driver in *. now rewrite Hm. Qed.

Lemma init_start_holds_driver seed headless timeout reply tz ru pw
    (p : Proc) :
  initial_timezone true reply = Val tz ->
  is_russian_tz tz = Val ru ->
  start_reply (launcher p) (length (launched p)) = Val pw ->
  holds_driver pw (snd ((init seed ;;; start headless timeout reply) p)).
Proof.
  intros Htz Hru Hs.
  assert (Hinit : exists p0,
             init seed p = (Val tt, p0)
             /\ launcher p0 = launcher p /\ launched p0 = launched p).
  { unfold init, bind, in_rng, OzonParser_init, set_self.
    destruct seed; simpl; eexists; repeat split. }
  destruct Hinit as (p0 & Ei & El & Eld).
  rewrite (bind_val _ _ _ _ _ Ei). unfold start.
  destruct (generate_random_fingerprint_run true reply tz ru (rng p0)
              Htz Hru)
    as (cores & mem & w & h & dw & dh & pl & ua & touch & r1 & Hrest).
  destruct Hrest as (_ & _ & _ & _ & _ & _ & _ & _ & _ & E).
  match type of E with _ = (Val ?f, _) => set (fp := f) in * end.
  match goal with
  | |- holds_driver _ (snd (bind _ ?k _)) =>
      rewrite (bind_val _ k p0 fp
                 {| rng := r1; launcher := launcher p0;
                    launched := launched p0; world := world p0;
                    listing := listing p0; files := files p0;
                    put := put p0; self := self p0 |})
        by (unfold in_rng; now rewrite E)
  end.
  match goal with
  | |- holds_driver _ (snd (bind _ ?k ?q)) =>
      rewrite (bind_val _ k q pw (snd (launch CStartPlaywright start_reply q)))
        by (unfold launch; cbn [launcher launched]; now rewrite El, Eld, Hs)
  end.
  match goal with
  | |- holds_driver _ (snd (bind (set_self ?s) ?k ?q)) =>
      rewrite (bind_val _ k q tt (snd (set_self s q))) by reflexivity
  end.
  match goal with
  | |- holds_driver _ (snd (?m ?q)) =>
      cut (preserves (holds_driver pw) m);
        [intros Hm; apply Hm; unfold holds_driver; reflexivity|]
  end.
  apply preserves_bind; [apply holds_driver_step; reflexivity|]. intros br.
  apply preserves_bind; [intros q Hq; exact Hq|]. intros _.
  apply preserves_bind; [apply holds_driver_step; reflexivity|]. intros pg.
  apply preserves_bind; [intros q Hq; exact Hq|]. intros _.
  apply preserves_bind; [apply holds_driver_step; reflexivity|]. intros _.
  apply preserves_bind; [apply holds_driver_step; reflexivity|]. intros _.
  apply preserves_bind;
    [apply holds_driver_step; intros q; apply in_rng_state|]. intros ms.
  apply holds_driver_step. intros q. unfold in_world.
  destruct (page_wait_for_timeout (self q) ms (world q)). reflexivity.
Qed.

(** X19. When [__init__] or [start] raises, the [with] statement ends
    in that exception and [__exit__] never runs: nothing was asked of
    the page but the wait of [start], nothing was listed, printed or
    saved, and no teardown call is made. If the driver had been
    started by then (the lookup gave a timezone line 94 can classify,
    and the driver came up), the parser holds it and it is not
    stopped. *)
Theorem failed_start_is_not_torn_down {A} (headless : bool)
    (seed : option Z) (reply : IpApiReply) (body : M Proc A)
    (p p1 : Proc) (e : exn) :
  (init seed ;;; start headless 30000 reply) p = (Raise e, p1) ->
  with_parser headless seed reply body p = (Raise e, p1)
  /\ only_waited p p1
  /\ (forall tz ru pw,
         initial_timezone true reply = Val tz ->
         is_russian_tz tz = Val ru ->
         start_reply (launcher p) (length (launched p)) = Val pw ->
         playwright (self p1) = Some pw).
Proof.
  intros E. split; [|split].
  - unfold with_parser. now rewrite E.
  - pose proof (only_waited_init_start p seed headless 30000 reply) as Hw.
    now rewrite E in Hw.
  - intros tz ru pw Htz Hru Hs.
    pose proof (init_start_holds_driver seed headless 30000 reply tz ru pw p
                  Htz Hru Hs) as Hd.
    now rewrite E in Hd.
Qed.

(** ** The end of the with block *)

Lemma in_world_stop (p : Proc) :
  let p' := snd (in_world stop p) in
  exists k,
    world p' = after (world p) (firstn k (teardown (self p)))
    /\ (teardown (self p) <> [] -> (1 <= k)%nat)
    /\ launched p' = launched p /\ listing p' = listing p
    /\ put p' = put p /\ self p' = self p
    /\ (fst (in_world stop p) = Val tt -> k = length (teardown (self p)))
    /\ (forall e, fst (in_world stop p) = Raise e ->
                  exists k', k = S k'
                             /\ close_reply (engine (world p))
                                  (length (log (world p)) + k') = Raise e).
Proof.
  unfold in_world. rewrite stop_attempt.
  destruct (attempt_prefix (teardown (self p)) (world p))
    as (k & Hk & Hs & Hv & Hr).
  destruct (attempt (teardown (self p)) (world p)) as [[[]|e] w'] eqn:Ea;
    simpl in *; subst w'; exists k; repeat split; auto.
  - intros Hne. rewrite (Hv eq_refl).
    destruct (teardown (self p)); [congruence|simpl; lia].
  - intros Hne. destruct (Hr e eq_refl) as (k' & -> & _). lia.
Qed.

(** After a start that returned, the block runs its body and then
    [stop]. *)
Lemma with_parser_after_start {A} (headless : bool) (seed : option Z)
    (reply : IpApiReply) (body : M Proc A) (p p1 : Proc) :
  (init seed ;;; start headless 30000 reply) p = (Val tt, p1) ->
  let p2 := snd (body p1) in
  let p3 := snd (with_parser headless seed reply body p) in
  exists k,
    world p3 = after (world p2) (firstn k (teardown (self p2)))
    /\ (teardown (self p2) <> [] -> (1 <= k)%nat)
    /\ launched p3 = launched p2 /\ listing p3 = listing p2
    /\ put p3 = put p2 /\ self p3 = self p2
    /\ (fst (with_parser headless seed reply body p) = fst (body p1)
        /\ k = length (teardown (self p2))
        \/ exists k' e,
             fst (with_parser headless seed reply body p) = Raise e
             /\ k = S k'
             /\ close_reply (engine (world p2))
                  (length (log (world p2)) + k') = Raise e).
Proof.
  intros E p2 p3. subst p2 p3. unfold with_parser. rewrite E.
  destruct (body p1) as [[a|e] p2] eqn:Eb; cbn [snd fst];
    destruct (in_world_stop p2)
      as (k & Hw & H1 & Hla & Hli & Hpu & Hse & Hv & Hr);
    destruct (in_world stop p2) as [[[]|e'] p3] eqn:Es; cbn [snd fst] in *;
    exists k; repeat split; auto.
  - destruct (Hr e' eq_refl) as (k' & -> & Hc). right. now exists k', e'.
  - destruct (Hr e' eq_refl) as (k' & -> & Hc). right. now exists k', e'.
Qed.

(** X20. Once [start] has returned, the [with] statement ends with
    [stop], whether its body returns or raises: after the body the
    teardown steps of the objects the parser holds are attempted in
    their order, the first of them always, and nothing else changes.
    The statement returns what the body returned, or raises what the
    body raised, unless a teardown step raises: then that exception
    takes its place. *)
Theorem with_block_ends_with_stop {A} (headless : bool) (seed : option Z)
    (reply : IpApiReply) (body : M Proc A) (p p1 : Proc) :
  (init seed ;;; start headless 30000 reply) p = (Val tt, p1) ->
  let p2 := snd (body p1) in
  let p3 := snd (with_parser headless seed reply body p) in
  exists k,
    world p3 = after (world p2) (firstn k (teardown (self p2)))
    /\ (teardown (self p2) <> [] -> (1 <= k)%nat)
    /\ launched p3 = launched p2 /\ listing p3 = listing p2
    /\ put p3 = put p2 /\ self p3 = self p2
    /\ (fst (with_parser headless seed reply body p) = fst (body p1)
        /\ k = length (teardown (self p2))
        \/ exists k' e,
             fst (with_parser headless seed reply body p) = Raise e
             /\ k = S k'
             /\ close_reply (engine (world p2))
                  (length (log (world p2)) + k') = Raise e).
Proof.
  intros E p2 p3. subst p2 p3. unfold with_parser. rewrite E.
  destruct (body p1) as [[a|e] p2] eqn:Eb; cbn [snd fst];
    destruct (in_world_stop p2)
      as (k & Hw & H1 & Hla & Hli & Hpu & Hse & Hv & Hr);
    destruct (in_world stop p2) as [[[]|e'] p3] eqn:Es; cbn [snd fst] in *;
    exists k; repeat split; auto.
  - destruct (Hr e' eq_refl) as (k' & -> & Hc). right. now exists k', e'.
  - destruct (Hr e' eq_refl) as (k' & -> & Hc). right. now exists k', e'.
Qed.

(** ** main *)

Lemma run_command_state (args : Args) (p : Proc) :
  let p' := snd (run_command args p) in
  launched p' = launched p /\ put p' = put p /\ self p' = self p.
Proof.
  unfold run_command, bind, in_world, in_listing.
  destruct (command args).
  - destruct (parse_product _ _ _) as [[d|e] w']; simpl; tauto.
  - destruct (Listing.parse_listing _ _ _ _) as [[d|e] w']; simpl; tauto.
  - destruct (Listing.search _ _ _ _) as [[d|e] w']; simpl; tauto.
Qed.

(** X21. [main] rejects a [product] or [category] command whose URL is
    absent or empty, and a [search] command whose query is absent or
    empty, before anything else: it raises the exit of
    [parser.error], and no browser is started, no page asked, nothing
    printed or saved. *)
Theorem main_rejects_missing_argument (args : Args) (reply : IpApiReply)
    (p : Proc) :
  ~ valid args -> main args reply p = (Raise usage_error, p).
Proof.
  unfold valid, main. intros Hv.
  destruct (command args); cbn [andb];
    try (destruct (missing (url args)); [reflexivity|now destruct Hv]);
    destruct (missing (query args)); [reflexivity|now destruct Hv].
Qed.

(** X22. When the command of a valid [main] raises (a price that cannot
    be read, a query that cannot be escaped, an interrupt), nothing is
    printed and nothing is saved, and the browser is still torn down:
    the teardown steps of the parser are attempted, the first of them
    always. [main] ends in the exception of the command, unless a
    teardown step raises one in its place. *)
Theorem main_command_failure (args : Args) (reply : IpApiReply)
    (p p1 : Proc) (e : exn) :
  valid args ->
  (init (seed args) ;;; start (negb (no_headless args)) 30000 reply) p
  = (Val tt, p1) ->
  fst (run_command args p1) = Raise e ->
  let p2 := snd (run_command args p1) in
  let p3 := snd (main args reply p) in
  put p3 = put p
  /\ exists k,
       world p3 = after (world p2) (firstn k (teardown (self p1)))
       /\ (teardown (self p1) <> [] -> (1 <= k)%nat)
       /\ (fst (main args reply p) = Raise e
           /\ k = length (teardown (self p1))
           \/ exists k' e',
                fst (main args reply p) = Raise e'
                /\ k = S k'
                /\ close_reply (engine (world p2))
                     (length (log (world p2)) + k') = Raise e').
Proof.
  intros Hv E Hr p2 p3.
  assert (Hmain : main args reply p
                  = with_parser (negb (no_headless args)) (seed args) reply
                      (result <- run_command args ;; report args result) p).
  { unfold main, valid in *.
    destruct (command args); cbn [andb]; rewrite Hv; reflexivity. }
  subst p3. rewrite Hmain.
  set (body := result <- run_command args ;; report args result).
  assert (Hbody : body p1 = (Raise e, p2)).
  { unfold body. apply bind_raise. subst p2.
    destruct (run_command args p1) as [o q]. simpl in *. now subst o. }
  destruct (with_parser_after_start (negb (no_headless args)) (seed args)
              reply body p p1 E)
    as (k & Hw & H1 & _ & _ & Hpu & _ & Hout).
  rewrite Hbody in *. cbn [snd fst] in *.
  destruct (run_command_state args p1) as (_ & Hp2 & Hs2). fold p2 in Hp2, Hs2.
  pose proof (only_waited_init_start p (seed args) (negb (no_headless args))
                30000 reply) as Hstart.
  rewrite E in Hstart. destruct Hstart as (l & _ & _ & _ & Hp1).
  simpl in Hp1.
  split; [congruence|].
  exists k. rewrite <- Hs2. repeat split; auto.
Qed.

(** ** What main puts out *)

Lemma files_in_rng {A} (f : Files) (m : M R A) :
  preserves (fun q : Proc => files q = f) (in_rng m).
Proof.
  intros p Hp. destruct (in_rng_state m p) as (_ & _ & _ & _ & Ef & _).
  now rewrite Ef.
Qed.

Lemma files_launch {A} (f : Files) (c : Session.Call)
    (reply : Launcher -> nat -> Outcome A) :
  preserves (fun q : Proc => files q = f) (launch c reply).
Proof. intros p Hp. exact Hp. Qed.

Lemma files_set_self (f : Files) (s : OzonParser -> OzonParser) :
  preserves (fun q : Proc => files q = f) (set_self s).
Proof. intros p Hp. exact Hp. Qed.

Lemma files_in_world {A} (f : Files) (m : OzonParser -> M World A) :
  preserves (fun q : Proc => files q = f) (in_world m).
Proof.
  intros p Hp. unfold in_world. destruct (m (self p) (world p)). exact Hp.
Qed.

Lemma files_in_listing {A} (f : Files)
    (m : OzonParser -> M Listing.World A) :
  preserves (fun q : Proc => files q = f) (in_listing m).
Proof.
  intros p Hp. unfold in_listing. destruct (m (self p) (listing p)). exact Hp.
Qed.

Ltac keeps_files :=
  repeat first [ apply files_in_rng | apply files_launch
               | apply files_set_self | apply files_in_world
               | apply files_in_listing | apply preserves_ret
               | apply preserves_bind; [|intro] ].

Lemma init_start_files (p : Proc) seed headless timeout reply :
  files (snd ((init seed ;;; start headless timeout reply) p)) = files p.
Proof.
  apply (preserves_bind (fun q : Proc => files q = files p));
    [| |reflexivity].
  - unfold init. keeps_files.
  - intros _. unfold start. keeps_files.
Qed.

Lemma run_command_files (args : Args) (p : Proc) :
  files (snd (run_command args p)) = files p.
Proof.
  assert (Hk : preserves (fun q : Proc => files q = files p)
                 (run_command args)).
  { unfold run_command. destruct (command args); keeps_files. }
  now apply Hk.
Qed.

Lemma report_put (args : Args) (result : Result) (p : Proc) :
  exists outs,
    put (snd (report args result p)) = put p ++ OPrint result :: outs
    /\ (missing (output args) = false ->
        outs = [OSave (Given (given (output args))) result])
    /\ (missing (output args) = true ->
        match mkdir_reply (files p) (length (put p) + 1) with
        | Val _ =>
            outs = [OMkdir;
                    OSave (Default (command_name (command args)
                                    ++ lit "_result.json")) result]
        | Raise _ => outs = [OMkdir]
        end).
Proof.
  destruct p as [r0 la ld w0 li fi pu se].
  cbv beta iota zeta
    delta [report save_json emit bind
           rng launcher launched world listing files put self].
  destruct (missing (output args)).
  - rewrite length_app. cbn [length].
    destruct (mkdir_reply fi (length pu + 1)) as [[]|e] eqn:Em;
      cbv beta iota zeta delta [snd put]; rewrite <- ?app_assoc; eexists;
      (split; [reflexivity|]); (split; [discriminate|]); intros _;
      reflexivity.
  - destruct (save_reply fi _ _); cbv beta iota zeta delta [snd put];
      rewrite <- ?app_assoc;
      eexists; (split; [reflexivity|]); (split; [reflexivity|discriminate]).
Qed.

(** X23. When the command of a valid [main] returns, its result is
    printed first and saved after: to the path of [--output] when one
    is given, and otherwise to the file [<command>_result.json] of the
    output directory, which is created before. What is saved is what
    was printed. When the directory cannot be created nothing is
    saved, but the result was printed by then. *)
Theorem main_prints_then_saves (args : Args) (reply : IpApiReply)
    (p p1 p2 : Proc) (result : Result) :
  valid args ->
  (init (seed args) ;;; start (negb (no_headless args)) 30000 reply) p
  = (Val tt, p1) ->
  run_command args p1 = (Val result, p2) ->
  exists outs,
    put (snd (main args reply p)) = put p ++ OPrint result :: outs
    /\ (missing (output args) = false ->
        outs = [OSave (Given (given (output args))) result])
    /\ (missing (output args) = true ->
        match mkdir_reply (files p) (length (put p) + 1) with
        | Val _ =>
            outs = [OMkdir;
                    OSave (Default (command_name (command args)
                                    ++ lit "_result.json")) result]
        | Raise _ => outs = [OMkdir]
        end).
Proof.
  intros Hv E Er.
  assert (Hmain : main args reply p
                  = with_parser (negb (no_headless args)) (seed args) reply
                      (result <- run_command args ;; report args result) p).
  { unfold main, valid in *.
    destruct (command args); cbn [andb]; rewrite Hv; reflexivity. }
  rewrite Hmain.
  set (body := result <- run_command args ;; report args result).
  assert (Hbody : body p1 = report args result p2).
  { unfold body. now apply bind_val. }
  destruct (with_parser_after_start (negb (no_headless args)) (seed args)
              reply body p p1 E)
    as (k & _ & _ & _ & _ & Hpu & _).
  rewrite Hpu, Hbody.
  assert (Hput : put p2 = put p).
  { destruct (run_command_state args p1) as (_ & Hp2 & _).
    rewrite Er in Hp2. cbn [snd] in Hp2. rewrite Hp2.
    pose proof (only_waited_init_start p (seed args)
                  (negb (no_headless args)) 30000 reply) as Hstart.
    rewrite E in Hstart. destruct Hstart as (l & _ & _ & _ & Hp1).
    exact Hp1. }
  assert (Hfiles : files p2 = files p).
  { pose proof (run_command_files args p1) as Hf.
    rewrite Er in Hf. cbn [snd] in Hf. rewrite Hf.
    pose proof (init_start_files p (seed args) (negb (no_headless args))
                  30000 reply) as Hs.
    now rewrite E in Hs. }
  destruct (report_put args result p2) as (outs & Ho & Hg & Hd).
  exists outs. rewrite Ho, <- Hput, <- Hfiles. auto.
Qed.

End WithRandom.

End SessionProps.

Module SessionRuns.

Import Examples Session MoreExamples.

#[local] Existing Instance Lcg.source.
#[local] Existing Instance BasicUnicode.tables.

(** A lookup that reports no zone, on a machine with a browser. *)
Lemma start_brings_the_browser_up_witness :
  exists fp ms,
    let p' := snd (start true 30000 (IpApiResponse 200 None) with_browser) in
    fst (generate_random_fingerprint true (IpApiResponse 200 None)
           (rng with_browser)) = Val fp
    /\ launched p'
       = launched with_browser
         ++ [ CStartPlaywright;
              CLaunch true launch_args;
              CNewPage (user_agent fp) (width (screen fp))
                (height (screen fp) - 40) Lit.ru_RU (timezone fp);
              CAddInitScript fp;
              CSetDefaultTimeout 30000 ]
    /\ self p' = {| playwright := Some 0%nat; browser := Some 1%nat;
                    page := Some 2%nat |}
    /\ 2000 <= ms <= 4000
    /\ world p' = after (world with_browser) [CWaitForTimeout ms]
    /\ fst (start true 30000 (IpApiResponse 200 None) with_browser)
       = wait_reply (engine (world with_browser))
           (length (log (world with_browser))) ms
    /\ listing p' = listing with_browser /\ put p' = put with_browser.
Proof.
  apply (SessionProps.start_brings_the_browser_up true 30000
           (IpApiResponse 200 None) (JString Lit.Europe_Moscow) true
           with_browser 0%nat 1%nat 2%nat);
    reflexivity.
Defined.

(** No browser is installed: the driver is started and left running. *)
Lemma failed_start_is_not_torn_down_witness :
  with_parser true None (IpApiResponse 200 None) (ret tt) without_browser
  = (Raise (PyException "Error" (lit "Executable doesn't exist")),
     snd ((init None ;;; start true 30000 (IpApiResponse 200 None))
            without_browser))
  /\ only_waited without_browser
       (snd ((init None ;;; start true 30000 (IpApiResponse 200 None))
               without_browser))
  /\ (forall tz ru pw,
         initial_timezone true (IpApiResponse 200 None) = Val tz ->
         is_russian_tz tz = Val ru ->
         start_reply (launcher without_browser)
           (length (launched without_browser)) = Val pw ->
         playwright
           (self (snd ((init None ;;; start true 30000
                          (IpApiResponse 200 None)) without_browser)))
         = Some pw).
Proof.
  apply (SessionProps.failed_start_is_not_torn_down true None (IpApiResponse 200 None)
           (ret tt) without_browser).
  vm_compute. reflexivity.
Defined.

(** A body that raises, in a session that came up. *)
Lemma with_block_ends_with_stop_witness :
  let body : M (@Process Z) unit :=
    raise (PyException "KeyError" (lit "'price'")) in
  let p1 := snd ((init None ;;; start true 30000 (IpApiResponse 200 None))
                   with_browser) in
  let p2 := snd (body p1) in
  let p3 := snd (with_parser true None (IpApiResponse 200 None) body
                   with_browser) in
  exists k,
    world p3 = after (world p2) (firstn k (teardown (self p2)))
    /\ (teardown (self p2) <> [] -> (1 <= k)%nat)
    /\ launched p3 = launched p2 /\ listing p3 = listing p2
    /\ put p3 = put p2 /\ self p3 = self p2
    /\ (fst (with_parser true None (IpApiResponse 200 None) body
               with_browser) = fst (body p1)
        /\ k = length (teardown (self p2))
        \/ exists k' e,
             fst (with_parser true None (IpApiResponse 200 None) body
                    with_browser) = Raise e
             /\ k = S k'
             /\ close_reply (engine (world p2))
                  (length (log (world p2)) + k') = Raise e).
Proof.
  intros body p1.
  apply (SessionProps.with_block_ends_with_stop true None (IpApiResponse 200 None) body
           with_browser p1).
  vm_compute. reflexivity.
Defined.

(** [search] without [--query]. *)
Lemma main_rejects_missing_argument_witness :
  main (search_args None) (IpApiResponse 200 None) with_browser
  = (Raise usage_error, with_browser).
Proof.
  apply (SessionProps.main_rejects_missing_argument (search_args None)
           (IpApiResponse 200 None) with_browser).
  intros Hv. discriminate Hv.
Defined.

(** A search for a query with a lone surrogate. *)
Lemma main_command_failure_witness :
  let args := search_args (Some [102%N; 56320%N]) in
  let reply := IpApiResponse 200 None in
  let p1 := snd ((init (seed args)
                  ;;; start (negb (no_headless args)) 30000 reply)
                   with_browser) in
  let p2 := snd (run_command args p1) in
  let p3 := snd (main args reply with_browser) in
  put p3 = put with_browser
  /\ exists k,
       world p3 = after (world p2) (firstn k (teardown (self p1)))
       /\ (teardown (self p1) <> [] -> (1 <= k)%nat)
       /\ (fst (main args reply with_browser)
           = Raise (PyException "UnicodeEncodeError"
                      (lit "surrogates not allowed"))
           /\ k = length (teardown (self p1))
           \/ exists k' e',
                fst (main args reply with_browser) = Raise e'
                /\ k = S k'
                /\ close_reply (engine (world p2))
                     (length (log (world p2)) + k') = Raise e').
Proof.
  intros args reply p1.
  apply (SessionProps.main_command_failure args reply with_browser p1
           (PyException "UnicodeEncodeError"
              (lit "surrogates not allowed"))).
  - reflexivity.
  - vm_compute. reflexivity.
  - vm_compute. reflexivity.
Defined.

(** A search on the page as Playwright has it: the error record is
    printed, and saved to the default file. *)
Lemma main_prints_then_saves_witness :
  let args := search_args (Some (lit "futbolki")) in
  let reply := IpApiResponse 200 None in
  let result :=
    Many [[("error"%string,
            PStr (Listing.not_found_prefix
                  ++ exn_str
                       (PyException "AttributeError"
                          (lit "'Page' object has no attribute 'query_selectors_all'"))))]] in
  exists outs,
    put (snd (main args reply with_browser))
    = put with_browser ++ OPrint result :: outs
    /\ (missing (output args) = false ->
        outs = [OSave (Given (given (output args))) result])
    /\ (missing (output args) = true ->
        match mkdir_reply (files with_browser)
                (length (put with_browser) + 1) with
        | Val _ =>
            outs = [OMkdir;
                    OSave (Default (command_name (command args)
                                    ++ lit "_result.json")) result]
        | Raise _ => outs = [OMkdir]
        end).
Proof.
  intros args reply result.
  apply (SessionProps.main_prints_then_saves args reply with_browser
           (snd ((init (seed args)
                  ;;; start (negb (no_headless args)) 30000 reply)
                   with_browser))
           (snd (run_command args
                   (snd ((init (seed args)
                          ;;; start (negb (no_headless args)) 30000 reply)
                           with_browser))))).
  - reflexivity.
  - vm_compute. reflexivity.
  - vm_compute. reflexivity.
Defined.

End SessionRuns.
